(** * R-Talks backend: order lifecycle, payment reconciliation and catalog

    A shallow embedding of the request handlers of [server.js] and
    [routes/admin.js] together with the tables of [database.sql] they touch,
    and of the catalog seeding of [initDb.js].

    - JavaScript scalars are modelled by [Js.prim]; a number is the double
      that an integer literal denotes, the ticket price is a rational that
      the [DECIMAL(10,2)] column rounds.
    - The PostgreSQL store is a record of row lists with its [SERIAL]
      counters; a handler runs in the monad [M], which threads the store and
      a script of statement outcomes and can throw.
    - Library functions whose code is not part of the repository (HMAC,
      e-mail checks, the integer and time input conversions of the
      database, JWT) are the fields of [Externals]; every theorem holds
      for all of them. *)

From Stdlib Require Import ZArith QArith List String Ascii Bool Lia.
From Stdlib Require Import Permutation Sorted DecimalString.
Import ListNotations.

Local Open Scope string_scope.
Local Open Scope Z_scope.

(** ** JavaScript scalars *)

Module Js.

(** The scalars that the handlers meet in a body or a query string.  A
    number is given by an integer literal [z]. *)
Inductive prim :=
  | Undefined
  | Null
  | Bool (b : bool)
  | Num (z : Z)
  | Str (s : string).

(** [if (v)] *)
Definition truthy (v : prim) : bool :=
  match v with
  | Undefined | Null => false
  | Bool b => b
  | Num z => negb (z =? 0)
  | Str s => negb (String.eqb s "")
  end.

(** *** Numbers as text

    [Num z] is the number that the literal [z] denotes: the double
    nearest to [z], an infinity beyond the largest double.  Its text is
    the shortest decimal that reads back as that double, written plainly
    up to 21 digits and with an exponent beyond. *)

Definition decimal (z : Z) : string := NilZero.string_of_int (Z.to_int z).

(** The double nearest to the integer [z >= 0], a tie going to the even
    significand. *)
Definition nearest_double (z : Z) : Z :=
  let e := Z.log2 z - 52 in
  if e <=? 0 then z
  else
    let u := 2 ^ e in
    let q := z / u in
    let r := z mod u in
    let up := if r * 2 =? u then Z.odd q else u <? r * 2 in
    (if up then q + 1 else q) * u.

(** Does the decimal [v] read back as the double [x >= 2^53]?  The
    doubles next to [x] are one unit in the last place away, the lower one
    half a unit when [x] is a power of two; a decimal half-way between two
    doubles reads as the one with the even significand. *)
Definition reads_as (x v : Z) : bool :=
  let e := Z.log2 x - 52 in
  let u := 2 ^ e in
  let m := x / u in
  let lo := 4 * x - (if m =? 2 ^ 52 then u else 2 * u) in
  let hi := 4 * x + 2 * u in
  ((lo <? 4 * v) && (4 * v <? hi))
  || (Z.even m && ((4 * v =? lo) || (4 * v =? hi))).

(** The decimal of [k] significant digits nearest to [x] that reads back
    as [x], if there is one; [n] is the number of digits of [x]. *)
Definition shortest_with (x n k : Z) : option Z :=
  let p := 10 ^ (n - k) in
  let v1 := x / p * p in
  let v2 := v1 + p in
  match reads_as x v1, reads_as x v2 with
  | true, true => Some (if x - v1 <=? v2 - x then v1 else v2)
  | true, false => Some v1
  | false, true => Some v2
  | false, false => None
  end.

Fixpoint shortest_from (x n k : Z) (digits : nat) : Z :=
  match digits with
  | O => x
  | S digits =>
      match shortest_with x n k with
      | Some v => v
      | None => shortest_from x n (k + 1) digits
      end
  end.

(** The decimal with the fewest significant digits that reads back as the
    double [x]. *)
Definition shortest (x : Z) : Z :=
  if x <? 2 ^ 53 then x
  else
    let n := Z.of_nat (String.length (decimal x)) in
    shortest_from x n 1 (Z.to_nat n).

Fixpoint strip_zeros (l : list ascii) : list ascii :=
  match l with
  | "0"%char :: l' => strip_zeros l'
  | _ => l
  end.

(** The digits of a numeral without the zeros that end it. *)
Definition significant (s : string) : string :=
  string_of_list_ascii (rev (strip_zeros (rev (list_ascii_of_string s)))).

(** [Number::toString] on the shortest decimal [v >= 0] of a number. *)
Definition number_to_string (v : Z) : string :=
  let s := decimal v in
  let n := Z.of_nat (String.length s) in
  if n <=? 21 then s
  else
    match significant s with
    | String d EmptyString => String d ("e+" ++ decimal (n - 1))
    | String d ds => String d ("." ++ ds ++ "e+" ++ decimal (n - 1))
    | EmptyString => s
    end.

Definition of_number (z : Z) : string :=
  let x := nearest_double (Z.abs z) in
  let s := if 2 ^ 1024 <=? x then "Infinity"
           else number_to_string (shortest x) in
  if z <? 0 then "-" ++ s else s.

(** [`${v}`] *)
Definition to_string (v : prim) : string :=
  match v with
  | Undefined => "undefined"
  | Null => "null"
  | Bool true => "true"
  | Bool false => "false"
  | Num z => of_number z
  | Str s => s
  end.

(** [a || b] *)
Definition or (a b : prim) : prim := if truthy a then a else b.

(** [s === v] for a string [s] *)
Definition str_eq (s : string) (v : prim) : bool :=
  match v with
  | Str t => String.eqb s t
  | _ => false
  end.

(** A query-string or environment entry: a string, or absent. *)
Definition of_option (o : option string) : prim :=
  match o with
  | Some s => Str s
  | None => Undefined
  end.

End Js.

(** ** Functions of libraries outside the repository *)

Record Externals := {
  (** [crypto.createHmac('sha256', key).update(msg).digest('hex')] *)
  hmac_sha256_hex : string -> string -> string;
  (** PostgreSQL's conversion of a text parameter to [integer];
      [None] is the error "invalid input syntax" or "out of range". *)
  int4in : string -> option Z;
  (** validator.js *)
  isEmail : string -> bool;
  normalizeEmail : string -> string;
  (** [jwt.verify(token, secret)] returns instead of throwing *)
  jwt_verify : option string -> string -> bool;
  (** PostgreSQL's reading of a text parameter as [TIME], written the way
      the column gives it back ([HH:MM:SS]); [None] is the error "invalid
      input syntax for type time". *)
  time_in : string -> option string
}.

(** ** Process environment *)

Record Env := {
  pool : bool;               (** [pool] of server.js is not null *)
  admin_pool : bool;         (** [pool] of routes/admin.js is defined *)
  RAZORPAY_KEY_ID : option string;
  RAZORPAY_KEY_SECRET : option string;
  FRONTEND_URL : option string;
  APP_URL : option string;
  JWT_SECRET : option string
}.

Definition env_or (a : option string) (b : string) : string :=
  match a with
  | Some s => if String.eqb s "" then b else s
  | None => b
  end.

Definition env_set (a : option string) : bool := Js.truthy (Js.of_option a).

Definition env_is (a : option string) (s : string) : bool :=
  Js.str_eq s (Js.of_option a).

(** [razorpay] is a client exactly when both keys are set and neither is
    the placeholder of the sample configuration. *)
Definition razorpay (env : Env) : bool :=
  env_set (RAZORPAY_KEY_ID env) && env_set (RAZORPAY_KEY_SECRET env)
  && negb (env_is (RAZORPAY_KEY_ID env) "your_key_id")
  && negb (env_is (RAZORPAY_KEY_SECRET env) "your_key_secret").

(** [process.env.FRONTEND_URL || process.env.APP_URL || 'http://localhost:3000'] *)
Definition frontendUrl (env : Env) : string :=
  env_or (FRONTEND_URL env) (env_or (APP_URL env) "http://localhost:3000").

(** ** Tables *)

Module Order.
Record t := {
  id : Z;
  customer_name : string;
  customer_email : string;
  customer_phone : string;
  package_name : string;
  amount : Q;
  status : string;
  payment_id : option string;
  created_at : Z
}.
End Order.

Module Package.
Record t := {
  id : Z;
  name : string;
  category : option string;
  price : Q;
  features : option string;
  package_type : string;
  (** [INTEGER DEFAULT 0], a column that may hold NULL *)
  display_order : option Z;
  is_active : bool;
  created_at : Z;
  updated_at : Z
}.
End Package.

Module Speaker.
Record t := {
  id : Z;
  name : string;
  title : option string;
  company : option string;
  bio : option string;
  image_url : option string;
  display_order : option Z;
  is_active : bool;
  created_at : Z;
  updated_at : Z
}.
End Speaker.

Record Db := {
  orders : list Order.t;
  orders_id_seq : Z;
  event_packages : list Package.t;
  event_packages_id_seq : Z;
  speakers : list Speaker.t;
  speakers_id_seq : Z
}.

Definition set_orders (l : list Order.t) (d : Db) : Db :=
  {| orders := l; orders_id_seq := orders_id_seq d;
     event_packages := event_packages d;
     event_packages_id_seq := event_packages_id_seq d;
     speakers := speakers d; speakers_id_seq := speakers_id_seq d |}.

Definition set_event_packages (l : list Package.t) (d : Db) : Db :=
  {| orders := orders d; orders_id_seq := orders_id_seq d;
     event_packages := l;
     event_packages_id_seq := event_packages_id_seq d;
     speakers := speakers d; speakers_id_seq := speakers_id_seq d |}.

Definition set_speakers (l : list Speaker.t) (d : Db) : Db :=
  {| orders := orders d; orders_id_seq := orders_id_seq d;
     event_packages := event_packages d;
     event_packages_id_seq := event_packages_id_seq d;
     speakers := l; speakers_id_seq := speakers_id_seq d |}.

(** ** Handler monad: store, statement outcomes, exceptions *)

(** What the server answers to the next statement besides what the
    statement itself decides: [Fails] stands for a lost connection, a
    violated column constraint and the like, with its SQLSTATE. *)
Inductive Outcome :=
  | Succeeds
  | Fails (code : string).

Record World := {
  db : Db;
  (** open transaction of the checked-out client: the tables at [BEGIN]
      and whether a statement has failed since *)
  tx : option (Db * bool);
  (** outcomes of the coming statements; past its end all succeed *)
  script : list Outcome
}.

Inductive Exn :=
  | TypeError
  | DbError (code : string).

Inductive Res (A : Type) :=
  | Ok (a : A)
  | Throw (e : Exn).
Arguments Ok {A} a.
Arguments Throw {A} e.

Definition M (A : Type) : Type := World -> Res A * World.

Definition ret {A} (a : A) : M A := fun w => (Ok a, w).

Definition bind {A B} (m : M A) (k : A -> M B) : M B := fun w =>
  match m w with
  | (Ok a, w') => k a w'
  | (Throw e, w') => (Throw e, w')
  end.

Definition throw {A} (e : Exn) : M A := fun w => (Throw e, w).

Definition try_catch {A} (m : M A) (h : Exn -> M A) : M A := fun w =>
  match m w with
  | (Ok a, w') => (Ok a, w')
  | (Throw e, w') => h e w'
  end.

Declare Scope js_scope.
Delimit Scope js_scope with js.
Notation "x <- m ;; k" := (bind m (fun x => k))
  (at level 61, m at next level, right associativity) : js_scope.
Notation "m ;; k" := (bind m (fun _ => k))
  (at level 61, right associativity) : js_scope.
Local Open Scope js_scope.

Definition set_db (d : Db) (w : World) : World :=
  {| db := d; tx := tx w; script := script w |}.

Definition set_tx (t : option (Db * bool)) (w : World) : World :=
  {| db := db w; tx := t; script := script w |}.

Definition pop (w : World) : World :=
  {| db := db w; tx := tx w; script := tl (script w) |}.

Definition next_outcome (w : World) : Outcome :=
  match script w with
  | o :: _ => o
  | [] => Succeeds
  end.

(** A statement reads and writes the tables and may be refused by the
    server (a key that is no integer, a duplicate primary key). *)
Definition Stmt (A : Type) : Type := Db -> Res A * Db.

Definition run_stmt {A} (s : Stmt A) (w : World) : Res A * World :=
  match next_outcome w with
  | Fails c => (Throw (DbError c), pop w)
  | Succeeds =>
      match s (db w) with
      | (r, d) => (r, set_db d (pop w))
      end
  end.

(** [await pool.query(...)]: one statement in its own transaction.  With
    no pool the method call itself throws. *)
Definition pool_query {A} (has_pool : bool) (s : Stmt A) : M A := fun w =>
  if has_pool then run_stmt s w else (Throw TypeError, w).

(** *** The checked-out client of [POST /api/orders] *)

(** [await pool.connect()] *)
Definition pool_connect : M unit := fun w =>
  match next_outcome w with
  | Fails c => (Throw (DbError c), pop w)
  | Succeeds => (Ok tt, pop w)
  end.

(** The tables go back to the snapshot; the [SERIAL] counters do not. *)
Definition rolled_back (snap cur : Db) : Db :=
  {| orders := orders snap; orders_id_seq := orders_id_seq cur;
     event_packages := event_packages snap;
     event_packages_id_seq := event_packages_id_seq cur;
     speakers := speakers snap; speakers_id_seq := speakers_id_seq cur |}.

Definition mark_failed (w : World) : World :=
  match tx w with
  | Some (snap, _) => set_tx (Some (snap, true)) w
  | None => w
  end.

(** [await client.query('BEGIN')] *)
Definition client_begin : M unit := fun w =>
  match next_outcome w with
  | Fails c => (Throw (DbError c), pop w)
  | Succeeds => (Ok tt, set_tx (Some (db w, false)) (pop w))
  end.

(** [await client.query(...)] inside the transaction: once a statement
    has failed the server refuses every other one until the end of the
    transaction. *)
Definition client_query {A} (s : Stmt A) : M A := fun w =>
  match tx w with
  | Some (_, true) => (Throw (DbError "25P02"), w)
  | _ =>
      match run_stmt s w with
      | (Ok a, w') => (Ok a, w')
      | (Throw e, w') => (Throw e, mark_failed w')
      end
  end.

(** [await client.query('COMMIT')]: a failed transaction is rolled back
    by it, without an error. *)
Definition client_commit : M unit := fun w =>
  match next_outcome w with
  | Fails c => (Throw (DbError c), pop w)
  | Succeeds =>
      match tx w with
      | Some (snap, true) =>
          (Ok tt, set_tx None (set_db (rolled_back snap (db w)) (pop w)))
      | _ => (Ok tt, set_tx None (pop w))
      end
  end.

(** [await client.query('ROLLBACK')]: the transaction is gone whether or
    not the answer arrives. *)
Definition client_rollback : M unit := fun w =>
  let w' :=
    match tx w with
    | Some (snap, _) => set_tx None (set_db (rolled_back snap (db w)) (pop w))
    | None => pop w
    end in
  match next_outcome w with
  | Fails c => (Throw (DbError c), w')
  | Succeeds => (Ok tt, w')
  end.

(** ** Statements on [orders] *)

(** node-postgres sends [null] and [undefined] as NULL and every other
    scalar as its text. *)
Definition pg_param (v : Js.prim) : option string :=
  match v with
  | Js.Undefined | Js.Null => None
  | _ => Some (Js.to_string v)
  end.

Inductive Key :=
  | KeyNull
  | KeyInt (k : Z)
  | KeyError.

Definition bump_orders_id_seq (d : Db) : Db :=
  {| orders := orders d; orders_id_seq := orders_id_seq d + 1;
     event_packages := event_packages d;
     event_packages_id_seq := event_packages_id_seq d;
     speakers := speakers d; speakers_id_seq := speakers_id_seq d |}.

(** The number of cents nearest to [q], half a cent going away from
    zero. *)
Definition cents (q : Q) : Z :=
  let n := Qnum q * 100 in
  let d := Zpos (Qden q) in
  Z.sgn n * ((2 * Z.abs n + d) / (2 * d)).

(** A value as a [DECIMAL(10,2)] column takes it: rounded to the cent and
    in lowest terms; [None] is the error "numeric field overflow", which
    values of 10^8 and beyond raise. *)
Definition decimal_10_2 (q : Q) : option Q :=
  let c := cents q in
  if Z.abs c <? 10 ^ 10 then Some (Qred (c # 100)) else None.

(** [INSERT INTO orders (customer_name, customer_email, customer_phone,
    package_name, amount, status) VALUES ($1..$6) RETURNING id]; the
    parameter that does not fit [amount] is refused before a row is
    formed. *)
Definition insert_order (now : Z) (name email phone pkg : string) (amt : Q)
    (st : string) : Stmt Z := fun d =>
  match decimal_10_2 amt with
  | None => (Throw (DbError "22003"), d)
  | Some amount =>
      let k := orders_id_seq d in
      if existsb (fun o => Order.id o =? k) (orders d)
      then (Throw (DbError "23505"), bump_orders_id_seq d)
      else
        (Ok k,
         set_orders
           (orders d ++
            [ {| Order.id := k; Order.customer_name := name;
                 Order.customer_email := email; Order.customer_phone := phone;
                 Order.package_name := pkg; Order.amount := amount;
                 Order.status := st; Order.payment_id := None;
                 Order.created_at := now |} ])
           (bump_orders_id_seq d))
  end.

Definition with_payment_id (pid : option string) (o : Order.t) : Order.t :=
  {| Order.id := Order.id o; Order.customer_name := Order.customer_name o;
     Order.customer_email := Order.customer_email o;
     Order.customer_phone := Order.customer_phone o;
     Order.package_name := Order.package_name o;
     Order.amount := Order.amount o; Order.status := Order.status o;
     Order.payment_id := pid; Order.created_at := Order.created_at o |}.

Definition with_status (st : string) (pid : option string) (o : Order.t)
    : Order.t :=
  {| Order.id := Order.id o; Order.customer_name := Order.customer_name o;
     Order.customer_email := Order.customer_email o;
     Order.customer_phone := Order.customer_phone o;
     Order.package_name := Order.package_name o;
     Order.amount := Order.amount o; Order.status := st;
     Order.payment_id := pid; Order.created_at := Order.created_at o |}.

Definition where_id {R} (rid : R -> Z) (k : Z) (f : R -> R) (r : R) : R :=
  if rid r =? k then f r else r.

(** [UPDATE orders SET payment_id = $1 WHERE id = $2], the key being the
    integer that [RETURNING id] gave. *)
Definition update_order_payment (pid : string) (k : Z) : Stmt unit := fun d =>
  (Ok tt,
   set_orders (map (where_id Order.id k (with_payment_id (Some pid))) (orders d)) d).

(** ** Responses *)

Record FieldError := { path : string; msg : string }.

Inductive Body :=
  (** [{ error }] *)
  | BError (error : string)
  (** [{ error, message, code }], with [details] for a failed validation *)
  | BFailure (error message code : string) (details : list FieldError)
  (** [{ success: true }] *)
  | BSuccess
  (** [{ status: 'ok' }] *)
  | BStatusOk
  (** [{ orderId, paymentLink, razorpayOrderId, amount, testMode, useHostedPage }] *)
  | BOrder (orderId : Z) (paymentLink razorpayOrderId : option string)
      (amount : Q) (testMode useHostedPage : bool)
  | BPackages (rows : list Package.t)
  | BPackage (row : Package.t)
  | BSpeakers (rows : list Speaker.t)
  | BSpeaker (row : Speaker.t)
  (** [{ totalTickets, totalRevenue, todaySales }] *)
  | BStats (totalTickets : Z) (totalRevenue : Q) (todaySales : Z).

Inductive Response :=
  | Json (code : Z) (body : Body)
  | Redirect (code : Z) (location : string).

Definition Handler : Type := World -> Response * World.

(** [try { ... res.json(...) } catch (err) { ... }] around a handler body *)
Definition respond (m : M Response) (on_error : Exn -> Response) : Handler :=
  fun w =>
    match m w with
    | (Ok r, w') => (r, w')
    | (Throw e, w') => (on_error e, w')
    end.

(** [checkDbConnection] of server.js *)
Definition checkDbConnection (env : Env) (next : Handler) : Handler := fun w =>
  if pool env then next w
  else
    (Json 503
       (BFailure "Database connection not available"
          "The service is temporarily unavailable. Please try again later."
          "DB_CONNECTION_ERROR" []), w).

(** ** Validation of an order request *)

Module OrderReq.
Record t := {
  name : string;
  email : string;
  phone : string;
  package : string;
  (** the number in [price]; [None] when the field holds no number *)
  price : option Q
}.
End OrderReq.

Definition code_of (c : ascii) : nat := nat_of_ascii c.

(** [\s] on code units below 256 *)
Definition is_space (c : ascii) : bool :=
  let n := code_of c in
  (((9 <=? n) && (n <=? 13)) || (n =? 32) || (n =? 160))%nat.

(** [\d] *)
Definition is_digit (c : ascii) : bool :=
  let n := code_of c in ((48 <=? n) && (n <=? 57))%nat.

(** [[1-9]] *)
Definition is_digit_1_9 (c : ascii) : bool :=
  let n := code_of c in ((49 <=? n) && (n <=? 57))%nat.

Fixpoint ltrim (s : string) : string :=
  match s with
  | String c r => if is_space c then ltrim r else s
  | EmptyString => EmptyString
  end.

Fixpoint rtrim (s : string) : string :=
  match s with
  | EmptyString => EmptyString
  | String c r =>
      match rtrim r with
      | EmptyString => if is_space c then EmptyString else String c EmptyString
      | r' => String c r'
      end
  end.

(** [.trim()] *)
Definition trim (s : string) : string := rtrim (ltrim s).

(** [.isLength({ min, max })] *)
Definition isLength (min max : nat) (s : string) : bool :=
  ((min <=? String.length s) && (String.length s <=? max))%nat.

Fixpoint all_digits (s : string) : bool :=
  match s with
  | EmptyString => true
  | String c r => is_digit c && all_digits r
  end.

(** [.matches(/^[\+]?[1-9][\d]{0,15}$/)] *)
Definition phone_matches (s : string) : bool :=
  let rest :=
    match s with
    | String "+"%char r => r
    | _ => s
    end in
  match rest with
  | String c r => is_digit_1_9 c && all_digits r && (String.length r <=? 15)%nat
  | EmptyString => false
  end.

(** [.isIn([...])] *)
Definition isIn (options : list string) (s : string) : bool :=
  existsb (String.eqb s) options.

Definition packages_on_sale : list string :=
  ["Professional"; "Executive"; "Leadership"].

(** [.isFloat({ min: 0.01 })] *)
Definition isFloat_min_cent (p : option Q) : bool :=
  match p with
  | Some q => Qle_bool (1 # 100) q
  | None => false
  end.

Definition check (ok : bool) (field message : string) : list FieldError :=
  if ok then [] else [ {| path := field; msg := message |} ].

(** ** Requests of the payment channels *)

Module VerifyReq.
Record t := {
  orderId : Js.prim;
  paymentId : Js.prim;
  signature : Js.prim
}.
End VerifyReq.

Module SuccessQuery.
Record t := {
  order_id : option string;
  razorpay_payment_id : option string;
  razorpay_payment_link_id : option string;
  razorpay_payment_link_reference_id : option string;
  razorpay_payment_link_status : option string;
  razorpay_signature : option string
}.
End SuccessQuery.

(** The webhook envelope; [None] is a field that is [null] or missing. *)
Module Webhook.
Record Notes := { order_id : Js.prim }.
Record PaymentLink := { notes : option Notes }.
Record Payment := { id : Js.prim }.
Record Payload := {
  payment_link : option PaymentLink;
  payment : option Payment
}.
Record Body := {
  event : Js.prim;
  payload : option Payload
}.
End Webhook.

(** Reading a property of [null] or [undefined] throws. *)
Definition property_of {A} (o : option A) : M A :=
  match o with
  | Some a => ret a
  | None => throw TypeError
  end.

(** ** Catalog tables: packages and speakers *)

Class Catalog (R : Type) := {
  row_id : R -> Z;
  row_display_order : R -> option Z;
  row_is_active : R -> bool;
  (** [SET is_active = false] *)
  deactivate : R -> R
}.

#[export] Instance Catalog_Package : Catalog Package.t := {
  row_id := Package.id;
  row_display_order := Package.display_order;
  row_is_active := Package.is_active;
  deactivate p :=
    {| Package.id := Package.id p; Package.name := Package.name p;
       Package.category := Package.category p;
       Package.price := Package.price p;
       Package.features := Package.features p;
       Package.package_type := Package.package_type p;
       Package.display_order := Package.display_order p;
       Package.is_active := false;
       Package.created_at := Package.created_at p;
       Package.updated_at := Package.updated_at p |}
}.

#[export] Instance Catalog_Speaker : Catalog Speaker.t := {
  row_id := Speaker.id;
  row_display_order := Speaker.display_order;
  row_is_active := Speaker.is_active;
  deactivate p :=
    {| Speaker.id := Speaker.id p; Speaker.name := Speaker.name p;
       Speaker.title := Speaker.title p; Speaker.company := Speaker.company p;
       Speaker.bio := Speaker.bio p; Speaker.image_url := Speaker.image_url p;
       Speaker.display_order := Speaker.display_order p;
       Speaker.is_active := false;
       Speaker.created_at := Speaker.created_at p;
       Speaker.updated_at := Speaker.updated_at p |}
}.

Section CatalogQueries.

Context {R : Type} `{Catalog R}.

(** [ORDER BY display_order, id] compares two rows; in ascending order
    NULL comes after every value. *)
Definition display_le (a b : R) : bool :=
  match row_display_order a, row_display_order b with
  | Some x, Some y => (x <? y) || ((x =? y) && (row_id a <=? row_id b))
  | Some _, None => true
  | None, Some _ => false
  | None, None => row_id a <=? row_id b
  end.

Fixpoint insert_row (a : R) (l : list R) : list R :=
  match l with
  | [] => [a]
  | b :: m => if display_le a b then a :: l else b :: insert_row a m
  end.

Definition order_by_display (l : list R) : list R :=
  fold_right insert_row [] l.

(** [SELECT * FROM t WHERE is_active = true ORDER BY display_order, id] *)
Definition select_active (l : list R) : list R :=
  order_by_display (filter row_is_active l).

(** [MAX(display_order)]: the NULLs are left out, and the result is NULL
    when nothing is left. *)
Definition max_display_order (l : list R) : option Z :=
  fold_right
    (fun r acc =>
       match row_display_order r, acc with
       | Some x, Some m => Some (Z.max x m)
       | Some x, None => Some x
       | None, _ => acc
       end)
    None l.

(** [COALESCE(MAX(display_order), 0) + 1] *)
Definition next_order (l : list R) : Z :=
  match max_display_order l with
  | Some m => m + 1
  | None => 0 + 1
  end.

(** [SELECT COALESCE(MAX(display_order), 0) + 1 as next_order FROM t]:
    the sum is an [integer], and past 2147483647 the statement fails with
    "integer out of range". *)
Definition select_next_order (l : list R) : Res Z :=
  if next_order l <=? 2147483647 then Ok (next_order l)
  else Throw (DbError "22003").

(** [UPDATE t SET is_active = false WHERE id = $1] *)
Definition soft_delete (k : Z) (l : list R) : list R :=
  map (where_id row_id k deactivate) l.

End CatalogQueries.

(** [SET is_active = false] touches no other column. *)
Class CatalogLaws (R : Type) `{Catalog R} : Prop := {
  deactivate_id : forall r, row_id (deactivate r) = row_id r;
  deactivate_display_order :
    forall r, row_display_order (deactivate r) = row_display_order r;
  deactivate_is_active : forall r, row_is_active (deactivate r) = false
}.

#[export] Instance CatalogLaws_Package : CatalogLaws Package.t.
Proof. split; reflexivity. Qed.

#[export] Instance CatalogLaws_Speaker : CatalogLaws Speaker.t.
Proof. split; reflexivity. Qed.

Module PackageReq.
Record t := {
  name : string;
  category : option string;
  price : Q;
  (** [JSON.stringify(features)] *)
  features : option string;
  package_type : string
}.
End PackageReq.

Module SpeakerReq.
Record t := {
  name : string;
  title : option string;
  company : option string;
  bio : option string;
  image_url : option string
}.
End SpeakerReq.

Definition bump_event_packages_id_seq (d : Db) : Db :=
  {| orders := orders d; orders_id_seq := orders_id_seq d;
     event_packages := event_packages d;
     event_packages_id_seq := event_packages_id_seq d + 1;
     speakers := speakers d; speakers_id_seq := speakers_id_seq d |}.

Definition bump_speakers_id_seq (d : Db) : Db :=
  {| orders := orders d; orders_id_seq := orders_id_seq d;
     event_packages := event_packages d;
     event_packages_id_seq := event_packages_id_seq d;
     speakers := speakers d; speakers_id_seq := speakers_id_seq d + 1 |}.

(** [INSERT INTO event_packages (name, category, price, features,
    package_type, display_order) VALUES ($1..$6) RETURNING *]; [price] is
    a [DECIMAL(10,2)] column. *)
Definition insert_package (now : Z) (r : PackageReq.t) (ord : option Z)
    : Stmt Package.t := fun d =>
  match decimal_10_2 (PackageReq.price r) with
  | None => (Throw (DbError "22003"), d)
  | Some price =>
      let k := event_packages_id_seq d in
      let row :=
        {| Package.id := k; Package.name := PackageReq.name r;
           Package.category := PackageReq.category r;
           Package.price := price;
           Package.features := PackageReq.features r;
           Package.package_type := PackageReq.package_type r;
           Package.display_order := ord; Package.is_active := true;
           Package.created_at := now; Package.updated_at := now |} in
      if existsb (fun p => Package.id p =? k) (event_packages d)
      then (Throw (DbError "23505"), bump_event_packages_id_seq d)
      else
        (Ok row,
         set_event_packages (event_packages d ++ [row])
           (bump_event_packages_id_seq d))
  end.

(** [INSERT INTO speakers (name, title, company, bio, image_url,
    display_order) VALUES ($1..$6) RETURNING *] *)
Definition insert_speaker (now : Z) (r : SpeakerReq.t) (ord : option Z)
    : Stmt Speaker.t := fun d =>
  let k := speakers_id_seq d in
  let row :=
    {| Speaker.id := k; Speaker.name := SpeakerReq.name r;
       Speaker.title := SpeakerReq.title r;
       Speaker.company := SpeakerReq.company r;
       Speaker.bio := SpeakerReq.bio r;
       Speaker.image_url := SpeakerReq.image_url r;
       Speaker.display_order := ord; Speaker.is_active := true;
       Speaker.created_at := now; Speaker.updated_at := now |} in
  if existsb (fun p => Speaker.id p =? k) (speakers d)
  then (Throw (DbError "23505"), bump_speakers_id_seq d)
  else
    (Ok row, set_speakers (speakers d ++ [row]) (bump_speakers_id_seq d)).

Definition select_active_packages : Stmt (list Package.t) := fun d =>
  (Ok (select_active (event_packages d)), d).

Definition select_active_speakers : Stmt (list Speaker.t) := fun d =>
  (Ok (select_active (speakers d)), d).

Definition select_next_package_order : Stmt Z := fun d =>
  (select_next_order (event_packages d), d).

Definition select_next_speaker_order : Stmt Z := fun d =>
  (select_next_order (speakers d), d).

(** ** Dashboard figures *)

Definition is_completed (o : Order.t) : bool :=
  String.eqb (Order.status o) "completed".

(** [DATE(created_at)] and the day of [new Date()], as day numbers *)
Definition date_of (t : Z) : Z := t / 86400.

(** [SUM(amount)], NULL over no rows *)
Definition sum_amount (l : list Order.t) : option Q :=
  match l with
  | [] => None
  | _ => Some (fold_left Qplus (map Order.amount l) 0%Q)
  end.

(** [SELECT COUNT( * ) as total_tickets, SUM(amount) as total_revenue
    FROM orders WHERE status = 'completed'] *)
Definition select_total_stats : Stmt (Z * option Q) := fun d =>
  let sold := filter is_completed (orders d) in
  (Ok (Z.of_nat (List.length sold), sum_amount sold), d).

(** [SELECT COUNT( * ) as today_sales FROM orders
    WHERE status = 'completed' AND DATE(created_at) = $1] *)
Definition select_today_sales (today : Z) : Stmt Z := fun d =>
  let sold :=
    filter
      (fun o => is_completed o && (date_of (Order.created_at o) =? today))
      (orders d) in
  (Ok (Z.of_nat (List.length sold)), d).

(** [parseFloat(x) || 0] *)
Definition parseFloat_or_0 (x : option Q) : Q :=
  match x with
  | Some q => if Qeq_bool q 0 then 0%Q else q
  | None => 0%Q
  end.

Section Handlers.

Variable X : Externals.

(** The key of [WHERE id = $n] as the server reads it. *)
Definition key_of (v : Js.prim) : Key :=
  match pg_param v with
  | None => KeyNull
  | Some s =>
      match int4in X s with
      | Some k => KeyInt k
      | None => KeyError
      end
  end.

(** [UPDATE orders SET status = $1, payment_id = $2 WHERE id = $3] *)
Definition update_order_status (st : string) (pid key : Js.prim)
    : Stmt unit := fun d =>
  match key_of key with
  | KeyError => (Throw (DbError "22P02"), d)
  | KeyNull => (Ok tt, d)
  | KeyInt k =>
      (Ok tt,
       set_orders
         (map (where_id Order.id k (with_status st (pg_param pid))) (orders d)) d)
  end.

(** [validateOrder] followed by [validationResult(req).array()] *)
Definition validateOrder (r : OrderReq.t) : list FieldError :=
  (check (isLength 2 100 (trim (OrderReq.name r))) "name"
     "Name must be between 2 and 100 characters"
   ++ check (isEmail X (OrderReq.email r)) "email" "Invalid email format"
   ++ check (phone_matches (OrderReq.phone r)) "phone"
        "Invalid phone number format"
   ++ check (isIn packages_on_sale (OrderReq.package r)) "package"
        "Invalid package selection"
   ++ check (isFloat_min_cent (OrderReq.price r)) "price" "Invalid price")%list.

(** [price] once the request is valid (no number never is). *)
Definition price_of (r : OrderReq.t) : Q :=
  match OrderReq.price r with
  | Some q => q
  | None => 0
  end.

(** The sanitizers of the chains rewrite [req.body]. *)
Definition sanitized_name (r : OrderReq.t) : string := trim (OrderReq.name r).
Definition sanitized_email (r : OrderReq.t) : string :=
  normalizeEmail X (OrderReq.email r).

(** ** [POST /api/orders] *)

(** What [razorpay.paymentLink.create] does. *)
Inductive ProviderReply :=
  | LinkCreated (short_url link_id : string)
  | LinkFailed.

Definition validation_failed (errs : list FieldError) : Response :=
  Json 400
    (BFailure "Validation failed" "Please check your input data"
       "VALIDATION_ERROR" errs).

Definition order_creation_error (e : Exn) : Response :=
  match e with
  | DbError "23505" =>
      Json 409
        (BFailure "Duplicate order"
           "An order with these details already exists"
           "DUPLICATE_ORDER_ERROR" [])
  | _ =>
      Json 500
        (BFailure "Unable to process your request. Please try again."
           "Order creation failed. Please check your details and try again."
           "ORDER_CREATION_ERROR" [])
  end.

(** The payment-link step.  [paymentLink] and [razorpayOrderId] are
    assigned before the [UPDATE], so they keep the link when only the
    [UPDATE] throws; either failure is caught and logged. *)
Definition request_payment_link (env : Env) (provider : ProviderReply)
    (k : Z) : M (option string * option string) :=
  if razorpay env then
    match provider with
    | LinkFailed => ret (None, None)
    | LinkCreated url lid =>
        try_catch (client_query (update_order_payment lid k)) (fun _ => ret tt) ;;
        ret (Some url, Some lid)
    end
  else ret (None, None).

Definition create_order (env : Env) (now : Z) (provider : ProviderReply)
    (r : OrderReq.t) (amt : Q) : M Response :=
  pool_connect ;;
  try_catch
    (client_begin ;;
     k <- client_query
            (insert_order now (sanitized_name r) (sanitized_email r)
               (OrderReq.phone r) (OrderReq.package r) amt "pending") ;;
     link <- request_payment_link env provider k ;;
     client_commit ;;
     ret (Json 200
            (BOrder k (fst link) (snd link) amt (negb (razorpay env)) true)))
    (fun err => client_rollback ;; throw err).

Definition post_orders (env : Env) (now : Z) (provider : ProviderReply)
    (r : OrderReq.t) : Handler :=
  checkDbConnection env
    (fun w =>
       match validateOrder r with
       | [] =>
           respond (create_order env now provider r (price_of r))
             order_creation_error w
       | errs => (validation_failed errs, w)
       end).

Definition internal_server_error (_ : Exn) : Response :=
  Json 500 (BError "Internal server error").

(** ** [POST /api/verify-payment] *)

(** [crypto.createHmac('sha256', key)] throws on a key that is
    [undefined]. *)
Definition createHmac_sha256_hex (key : option string) (message : string)
    : M string :=
  match key with
  | Some k => ret (hmac_sha256_hex X k message)
  | None => throw TypeError
  end.

(** [`${orderId}|${paymentId}`] *)
Definition signed_message (orderId paymentId : Js.prim) : string :=
  (Js.to_string orderId ++ "|" ++ Js.to_string paymentId)%string.

(** The [try] block of the handler. *)
Definition verify_payment_try (env : Env) (r : VerifyReq.t) : M Response :=
  expectedSignature <-
    createHmac_sha256_hex (RAZORPAY_KEY_SECRET env)
      (signed_message (VerifyReq.orderId r) (VerifyReq.paymentId r)) ;;
  if Js.str_eq expectedSignature (VerifyReq.signature r) then
    pool_query (pool env)
      (update_order_status "completed" (VerifyReq.paymentId r)
         (VerifyReq.orderId r)) ;;
    ret (Json 200 BSuccess)
  else ret (Json 400 (BError "Invalid signature")).

Definition verify_payment (env : Env) (r : VerifyReq.t) : Handler :=
  checkDbConnection env
    (respond (verify_payment_try env r) internal_server_error).

(** ** [GET /api/payment-success] *)

Definition redirect_to (env : Env) (flag : string) (order_id : Js.prim)
    : Response :=
  Redirect 302
    (frontendUrl env ++ "/?payment=" ++ flag ++ "&order="
     ++ Js.to_string order_id)%string.

(** [razorpay_payment_id || razorpay_payment_link_id] *)
Definition provider_payment_id (q : SuccessQuery.t) : Js.prim :=
  Js.or (Js.of_option (SuccessQuery.razorpay_payment_id q))
    (Js.of_option (SuccessQuery.razorpay_payment_link_id q)).

(** The [try] block of the handler. *)
Definition payment_success_try (env : Env) (q : SuccessQuery.t) : M Response :=
  let order_id := Js.of_option (SuccessQuery.order_id q) in
  if Js.str_eq "paid"
       (Js.of_option (SuccessQuery.razorpay_payment_link_status q))
     && Js.truthy order_id
  then
    pool_query (pool env)
      (update_order_status "completed" (provider_payment_id q) order_id) ;;
    ret (redirect_to env "success" order_id)
  else ret (redirect_to env "failed" order_id).

Definition payment_success (env : Env) (q : SuccessQuery.t) : Handler :=
  respond (payment_success_try env q)
    (fun _ => redirect_to env "error" (Js.of_option (SuccessQuery.order_id q))).

(** ** [POST /api/razorpay-webhook] *)

(** [payment_link.notes?.order_id] *)
Definition notes_order_id (l : Webhook.PaymentLink) : Js.prim :=
  match Webhook.notes l with
  | Some n => Webhook.order_id n
  | None => Js.Undefined
  end.

Definition webhook_body (env : Env) (b : Webhook.Body) : M unit :=
  if Js.str_eq "payment_link.paid" (Webhook.event b) then
    payload <- property_of (Webhook.payload b) ;;
    payment_link <- property_of (Webhook.payment_link payload) ;;
    let orderId := notes_order_id payment_link in
    if Js.truthy orderId then
      payment <- property_of (Webhook.payment payload) ;;
      pool_query (pool env)
        (update_order_status "completed" (Webhook.id payment) orderId)
    else ret tt
  else ret tt.

Definition razorpay_webhook (env : Env) (b : Webhook.Body) : Handler :=
  respond
    (webhook_body env b ;; ret (Json 200 BStatusOk))
    (fun _ => Json 500 (BError "Webhook processing failed")).

(** ** Packages and speakers *)

(** [verifyAdminToken] of routes/admin.js *)
Definition verifyAdminToken (env : Env) (adminToken : option string)
    (next : Handler) : Handler := fun w =>
  match adminToken with
  | Some token =>
      if String.eqb token "" then (Json 401 (BError "No token provided"), w)
      else if jwt_verify X (JWT_SECRET env) token then next w
      else (Json 401 (BError "Invalid token"), w)
  | None => (Json 401 (BError "No token provided"), w)
  end.

(** [checkDbConnection] of routes/admin.js *)
Definition admin_checkDbConnection (env : Env) (next : Handler) : Handler :=
  fun w =>
    if admin_pool env then next w
    else (Json 503 (BError "Database connection not available"), w).

Definition admin_route (env : Env) (adminToken : option string)
    (body : M Response) : Handler :=
  verifyAdminToken env adminToken
    (admin_checkDbConnection env (respond body internal_server_error)).

(** [GET /api/packages] *)
Definition get_packages (env : Env) : Handler :=
  checkDbConnection env
    (respond
       (rows <- pool_query (pool env) select_active_packages ;;
        ret (Json 200 (BPackages rows)))
       internal_server_error).

(** [GET /api/speakers] *)
Definition get_speakers (env : Env) : Handler :=
  checkDbConnection env
    (respond
       (rows <- pool_query (pool env) select_active_speakers ;;
        ret (Json 200 (BSpeakers rows)))
       internal_server_error).

(** [GET /api/admin/packages] *)
Definition admin_get_packages (env : Env) (adminToken : option string)
    : Handler :=
  admin_route env adminToken
    (rows <- pool_query (admin_pool env) select_active_packages ;;
     ret (Json 200 (BPackages rows))).

(** [GET /api/admin/speakers] *)
Definition admin_get_speakers (env : Env) (adminToken : option string)
    : Handler :=
  admin_route env adminToken
    (rows <- pool_query (admin_pool env) select_active_speakers ;;
     ret (Json 200 (BSpeakers rows))).

(** [POST /api/admin/packages] *)
Definition admin_create_package (env : Env) (now : Z)
    (adminToken : option string) (r : PackageReq.t) : Handler :=
  admin_route env adminToken
    (nextOrder <- pool_query (admin_pool env) select_next_package_order ;;
     row <- pool_query (admin_pool env)
              (insert_package now r (Some nextOrder)) ;;
     ret (Json 200 (BPackage row))).

(** [POST /api/admin/speakers] *)
Definition admin_create_speaker (env : Env) (now : Z)
    (adminToken : option string) (r : SpeakerReq.t) : Handler :=
  admin_route env adminToken
    (nextOrder <- pool_query (admin_pool env) select_next_speaker_order ;;
     row <- pool_query (admin_pool env)
              (insert_speaker now r (Some nextOrder)) ;;
     ret (Json 200 (BSpeaker row))).

(** [UPDATE event_packages SET is_active = false WHERE id = $1] *)
Definition soft_delete_package (id : string) : Stmt unit := fun d =>
  match key_of (Js.Str id) with
  | KeyError => (Throw (DbError "22P02"), d)
  | KeyNull => (Ok tt, d)
  | KeyInt k => (Ok tt, set_event_packages (soft_delete k (event_packages d)) d)
  end.

(** [UPDATE speakers SET is_active = false WHERE id = $1] *)
Definition soft_delete_speaker (id : string) : Stmt unit := fun d =>
  match key_of (Js.Str id) with
  | KeyError => (Throw (DbError "22P02"), d)
  | KeyNull => (Ok tt, d)
  | KeyInt k => (Ok tt, set_speakers (soft_delete k (speakers d)) d)
  end.

(** [DELETE /api/admin/packages/:id] *)
Definition admin_delete_package (env : Env) (adminToken : option string)
    (id : string) : Handler :=
  admin_route env adminToken
    (pool_query (admin_pool env) (soft_delete_package id) ;;
     ret (Json 200 BSuccess)).

(** [DELETE /api/admin/speakers/:id] *)
Definition admin_delete_speaker (env : Env) (adminToken : option string)
    (id : string) : Handler :=
  admin_route env adminToken
    (pool_query (admin_pool env) (soft_delete_speaker id) ;;
     ret (Json 200 BSuccess)).

(** ** [GET /api/admin/stats] *)

Definition admin_stats (env : Env) (now : Z) (adminToken : option string)
    : Handler :=
  admin_route env adminToken
    (let today := date_of now in
     totalStats <- pool_query (admin_pool env) select_total_stats ;;
     todayStats <- pool_query (admin_pool env) (select_today_sales today) ;;
     ret (Json 200
            (BStats (fst totalStats) (parseFloat_or_0 (snd totalStats))
               todayStats))).

End Handlers.

(** ** Vocabulary of the statements *)

(** The [SERIAL] counter of [orders] lies above every identifier in use,
    as it does when all rows come from [INSERT ... RETURNING id]. *)
Definition orders_fresh (d : Db) : Prop :=
  forall o, In o (orders d) -> Order.id o < orders_id_seq d.

Definition packages_fresh (d : Db) : Prop :=
  forall p, In p (event_packages d) -> Package.id p < event_packages_id_seq d.

Definition speakers_fresh (d : Db) : Prop :=
  forall p, In p (speakers d) -> Speaker.id p < speakers_id_seq d.

(** The row that [POST /api/orders] stores for a valid request, and the
    link it answers: those of the provider when the client is configured
    and the call went through, none otherwise. *)
Definition granted_link (env : Env) (provider : ProviderReply)
    : option string * option string :=
  match razorpay env, provider with
  | true, LinkCreated url lid => (Some url, Some lid)
  | _, _ => (None, None)
  end.

Definition stored_order (X : Externals) (env : Env) (now : Z)
    (provider : ProviderReply) (r : OrderReq.t) (amount : Q) (k : Z)
    : Order.t :=
  {| Order.id := k; Order.customer_name := sanitized_name r;
     Order.customer_email := sanitized_email X r;
     Order.customer_phone := OrderReq.phone r;
     Order.package_name := OrderReq.package r; Order.amount := amount;
     Order.status := "pending";
     Order.payment_id := snd (granted_link env provider);
     Order.created_at := now |}.

(** Everything of an order but its status and payment reference. *)
Definition same_purchase (o o' : Order.t) : Prop :=
  Order.id o' = Order.id o
  /\ Order.customer_name o' = Order.customer_name o
  /\ Order.customer_email o' = Order.customer_email o
  /\ Order.customer_phone o' = Order.customer_phone o
  /\ Order.package_name o' = Order.package_name o
  /\ Order.amount o' = Order.amount o
  /\ Order.created_at o' = Order.created_at o.

(** Row [o] has become [o'] by a completion of order [k] that recorded
    the payment identifier [pid]: the row of [k] is completed whatever it
    was, every other row is untouched. *)
Definition completes_order (k : Z) (pid : option string) (o o' : Order.t)
    : Prop :=
  (Order.id o = k ->
   same_purchase o o' /\ Order.status o' = "completed"
   /\ Order.payment_id o' = pid)
  /\ (Order.id o <> k -> o' = o).

Definition completion (k : Z) (pid : option string)
    (before after : list Order.t) : Prop :=
  Forall2 (completes_order k pid) before after.

(** One character of the string is replaced by another one. *)
Inductive mutated : string -> string -> Prop :=
  | mutated_here c c' s : c <> c' -> mutated (String c s) (String c' s)
  | mutated_later c s s' : mutated s s' -> mutated (String c s) (String c s').

(** The three completion channels. *)
Inductive Channel :=
  | ManualVerify (r : VerifyReq.t)
  | RedirectCallback (q : SuccessQuery.t)
  | PaidWebhook (b : Webhook.Body).

Definition fire (X : Externals) (env : Env) (c : Channel) : Handler :=
  match c with
  | ManualVerify r => verify_payment X env r
  | RedirectCallback q => payment_success X env q
  | PaidWebhook b => razorpay_webhook X env b
  end.

(** The answer with which a channel reports a completion. *)
Definition reports_completion (env : Env) (c : Channel) (resp : Response)
    : Prop :=
  match c with
  | ManualVerify _ => resp = Json 200 BSuccess
  | RedirectCallback q =>
      resp = redirect_to env "success" (Js.of_option (SuccessQuery.order_id q))
  | PaidWebhook _ => resp = Json 200 BStatusOk
  end.

(** Channel [c] carries a confirmation of order [k] with payment
    identifier [pid], in terms of what the request holds: a signature
    that is the HMAC of [orderId|paymentId]; a link status [paid] with a
    non-empty [order_id], the payment identifier being
    [razorpay_payment_id] or, when that is missing or empty,
    [razorpay_payment_link_id]; a [payment_link.paid] event with an
    [order_id] in the notes of the link and the identifier of the payment.
    In each case the order identifier is a text that the database reads
    as the integer [k]. *)
Definition confirms (X : Externals) (env : Env) (c : Channel) (k : Z)
    (pid : option string) : Prop :=
  match c with
  | ManualVerify r =>
      exists secret oid,
        RAZORPAY_KEY_SECRET env = Some secret
        /\ VerifyReq.signature r =
             Js.Str
               (hmac_sha256_hex X secret
                  (Js.to_string (VerifyReq.orderId r) ++ "|"
                   ++ Js.to_string (VerifyReq.paymentId r)))
        /\ pg_param (VerifyReq.orderId r) = Some oid
        /\ int4in X oid = Some k
        /\ pg_param (VerifyReq.paymentId r) = pid
  | RedirectCallback q =>
      SuccessQuery.razorpay_payment_link_status q = Some "paid"
      /\ exists oid,
           SuccessQuery.order_id q = Some oid
           /\ oid <> ""
           /\ int4in X oid = Some k
           /\ pid =
                match SuccessQuery.razorpay_payment_id q with
                | Some p =>
                    if String.eqb p "" then SuccessQuery.razorpay_payment_link_id q
                    else Some p
                | None => SuccessQuery.razorpay_payment_link_id q
                end
  | PaidWebhook b =>
      Webhook.event b = Js.Str "payment_link.paid"
      /\ exists payload link notes payment oid,
           Webhook.payload b = Some payload
           /\ Webhook.payment_link payload = Some link
           /\ Webhook.notes link = Some notes
           /\ Js.truthy (Webhook.order_id notes) = true
           /\ pg_param (Webhook.order_id notes) = Some oid
           /\ int4in X oid = Some k
           /\ Webhook.payment payload = Some payment
           /\ pg_param (Webhook.id payment) = pid
  end.

(** The request carries an admin token that [jwt.verify] accepts. *)
Definition authorized (X : Externals) (env : Env) (adminToken : option string)
    : Prop :=
  exists token,
    adminToken = Some token /\ token <> ""
    /\ jwt_verify X (JWT_SECRET env) token = true.

(** The rows a list endpoint may answer for a table: the active ones,
    each once, by display order and then by identifier. *)
Definition display_before {R} `{Catalog R} (a b : R) : Prop :=
  match row_display_order a, row_display_order b with
  | Some x, Some y => x < y \/ (x = y /\ row_id a <= row_id b)
  | Some _, None => True
  | None, Some _ => False
  | None, None => row_id a <= row_id b
  end.

Definition listing {R} `{Catalog R} (table rows : list R) : Prop :=
  Permutation rows (filter row_is_active table)
  /\ StronglySorted display_before rows
  /\ (forall r, In r rows <-> In r table /\ row_is_active r = true).

(** A table after a deletion: the same rows in the same places, each
    either as it was or with [is_active] switched off. *)
Definition keeps_rows {R} `{Catalog R} (before after : list R) : Prop :=
  map row_id after = map row_id before
  /\ Forall2 (fun r r' => r' = r \/ r' = deactivate r) before after.

(** Whatever rows the answer carries are a listing of the table. *)
Definition shows_packages (table : list Package.t) (resp : Response) : Prop :=
  forall c rows, resp = Json c (BPackages rows) -> c = 200 /\ listing table rows.

Definition shows_speakers (table : list Speaker.t) (resp : Response) : Prop :=
  forall c rows, resp = Json c (BSpeakers rows) -> c = 200 /\ listing table rows.

(** The new row [row] of a table that held [before].  It is active and
    has a display order: one more than the largest display order of the
    table, 1 when no row has one.  Among the active rows it comes after
    those that have a display order and before those that have none. *)
Definition placed {R} `{Catalog R} (before : list R) (row : R) : Prop :=
  row_is_active row = true
  /\ (exists n,
        row_display_order row = Some n
        /\ ((forall r, In r before -> row_display_order r = None) -> n = 1)
        /\ (forall r m, In r before -> row_display_order r = Some m -> m < n)
        /\ ((exists r, In r before /\ row_display_order r <> None) ->
            exists top, In top before /\ row_display_order top = Some (n - 1)))
  /\ (exists ordered nulls,
        select_active before = (ordered ++ nulls)%list
        /\ (forall r, In r ordered -> row_display_order r <> None)
        /\ (forall r, In r nulls -> row_display_order r = None)
        /\ select_active (before ++ [row]) = (ordered ++ row :: nulls)%list).

(** The preconditions of an order request in the words of the
    specification: name length 2-100, well-formed e-mail, phone pattern,
    one of the three tiers, price above zero. *)
Definition spec_order_preconditions (X : Externals) (r : OrderReq.t) : bool :=
  isLength 2 100 (OrderReq.name r)
  && isEmail X (OrderReq.email r)
  && phone_matches (OrderReq.phone r)
  && isIn packages_on_sale (OrderReq.package r)
  && match OrderReq.price r with
     | Some q => negb (Qle_bool q 0)
     | None => false
     end.

(** The preconditions as [validateOrder] checks them. *)
Definition order_preconditions (X : Externals) (r : OrderReq.t) : bool :=
  isLength 2 100 (trim (OrderReq.name r))
  && isEmail X (OrderReq.email r)
  && phone_matches (OrderReq.phone r)
  && isIn packages_on_sale (OrderReq.package r)
  && match OrderReq.price r with
     | Some q => Qle_bool (1 # 100) q
     | None => false
     end.

Definition status_code (resp : Response) : Z :=
  match resp with
  | Json c _ => c
  | Redirect c _ => c
  end.

(** The world with another content of [orders]. *)
Definition with_orders (l : list Order.t) (w : World) : World :=
  set_db (set_orders l (db w)) w.

(** ** Fixtures for the examples *)

Module Sample.

Definition contains_at (s : string) : bool :=
  existsb (Ascii.eqb "@"%char) (list_ascii_of_string s).

(** Decimal numerals in the range of [integer]. *)
Definition decimal_int4 (s : string) : option Z :=
  match NilZero.int_of_string s with
  | Some d =>
      let z := Z.of_int d in
      if (-2147483648 <=? z) && (z <=? 2147483647) then Some z else None
  | None => None
  end.

Definition two_digits (a b : ascii) (max : nat) : bool :=
  is_digit a && is_digit b
  && (10 * (code_of a - 48) + (code_of b - 48) <=? max)%nat.

(** Times written [HH:MM] or [HH:MM:SS]. *)
Definition clock_time (s : string) : option string :=
  match s with
  | String h1 (String h2 (String ":" (String m1 (String m2 rest)))) =>
      if two_digits h1 h2 23 && two_digits m1 m2 59 then
        match rest with
        | EmptyString => Some (s ++ ":00")
        | String ":" (String s1 (String s2 EmptyString)) =>
            if two_digits s1 s2 59 then Some s else None
        | _ => None
        end
      else None
  | _ => None
  end.

Definition externals : Externals :=
  {| hmac_sha256_hex := fun key message => ("mac(" ++ key ++ "," ++ message ++ ")")%string;
     int4in := decimal_int4;
     isEmail := contains_at;
     normalizeEmail := fun s => s;
     jwt_verify := fun secret token =>
       match secret with
       | Some s => String.eqb s token
       | None => false
       end;
     time_in := clock_time |}.

Definition live : Env :=
  {| pool := true; admin_pool := true;
     RAZORPAY_KEY_ID := Some "rzp_live_key";
     RAZORPAY_KEY_SECRET := Some "s3cret";
     FRONTEND_URL := Some "https://www.rtalks.in";
     APP_URL := None;
     JWT_SECRET := Some "jwt" |}.

(** No payment-provider credentials: test mode. *)
Definition test_mode : Env :=
  {| pool := true; admin_pool := true;
     RAZORPAY_KEY_ID := None;
     RAZORPAY_KEY_SECRET := None;
     FRONTEND_URL := Some "https://www.rtalks.in";
     APP_URL := None;
     JWT_SECRET := Some "jwt" |}.

Definition order (k : Z) (st : string) (pid : option string) (amt : Q)
    (at_ : Z) : Order.t :=
  {| Order.id := k; Order.customer_name := "Jane Doe";
     Order.customer_email := "jane@x.com";
     Order.customer_phone := "+919999999999";
     Order.package_name := "Professional"; Order.amount := amt;
     Order.status := st; Order.payment_id := pid; Order.created_at := at_ |}.

Definition package (k ord : Z) (active : bool) : Package.t :=
  {| Package.id := k; Package.name := "Professional";
     Package.category := None; Package.price := 299 # 1;
     Package.features := None; Package.package_type := "standard";
     Package.display_order := Some ord; Package.is_active := active;
     Package.created_at := 0; Package.updated_at := 0 |}.

Definition speaker (k ord : Z) (active : bool) : Speaker.t :=
  {| Speaker.id := k; Speaker.name := "Ada"; Speaker.title := None;
     Speaker.company := None; Speaker.bio := None; Speaker.image_url := None;
     Speaker.display_order := Some ord; Speaker.is_active := active;
     Speaker.created_at := 0; Speaker.updated_at := 0 |}.

Definition store : Db :=
  {| orders :=
       [ order 41 "completed" (Some "pay_old") (299 # 1) 86400;
         order 42 "pending" (Some "plink_42") (499 # 1) 86400 ];
     orders_id_seq := 43;
     event_packages := [ package 1 2 true; package 2 1 true; package 3 1 false ];
     event_packages_id_seq := 4;
     speakers := [ speaker 1 1 true; speaker 2 1 false ];
     speakers_id_seq := 3 |}.

Definition world : World := {| db := store; tx := None; script := [] |}.

Definition jane (p : option Q) : OrderReq.t :=
  {| OrderReq.name := "Jane Doe"; OrderReq.email := "jane@x.com";
     OrderReq.phone := "+919999999999"; OrderReq.package := "Professional";
     OrderReq.price := p |}.

End Sample.

(** The requests of the end-to-end scenarios. *)
Module Scenario.

Import Sample.

Definition signed (oid pid : Js.prim) : VerifyReq.t :=
  {| VerifyReq.orderId := oid; VerifyReq.paymentId := pid;
     VerifyReq.signature :=
       Js.Str (hmac_sha256_hex externals "s3cret" (signed_message oid pid)) |}.

(** [{event: "payment_link.paid", payload: {payment_link: {notes:
    {order_id: 42}}, payment: {id: "pay_abc"}}}] *)
Definition paid_event : Webhook.Body :=
  {| Webhook.event := Js.Str "payment_link.paid";
     Webhook.payload :=
       Some
         {| Webhook.payment_link :=
              Some {| Webhook.notes := Some {| Webhook.order_id := Js.Num 42 |} |};
            Webhook.payment := Some {| Webhook.id := Js.Str "pay_abc" |} |} |}.

(** [?razorpay_payment_link_status=<status>&order_id=42&razorpay_payment_id=pay_xyz] *)
Definition callback (link_status : string) : SuccessQuery.t :=
  {| SuccessQuery.order_id := Some "42";
     SuccessQuery.razorpay_payment_id := Some "pay_xyz";
     SuccessQuery.razorpay_payment_link_id := Some "plink_42";
     SuccessQuery.razorpay_payment_link_reference_id := None;
     SuccessQuery.razorpay_payment_link_status := Some link_status;
     SuccessQuery.razorpay_signature := None |}.

(** [{orderId: <orderId>, paymentId: "pay_abc", signature: <sig>}] *)
Definition verification (orderId : Js.prim) (sig : string) : VerifyReq.t :=
  {| VerifyReq.orderId := orderId; VerifyReq.paymentId := Js.Str "pay_abc";
     VerifyReq.signature := Js.Str sig |}.

(** [?razorpay_payment_link_status=paid&razorpay_payment_link_id=plink_42]
    with the [order_id] and the [razorpay_payment_id] given, if any *)
Definition paid_callback (order_id payment_id : option string)
    : SuccessQuery.t :=
  {| SuccessQuery.order_id := order_id;
     SuccessQuery.razorpay_payment_id := payment_id;
     SuccessQuery.razorpay_payment_link_id := Some "plink_42";
     SuccessQuery.razorpay_payment_link_reference_id := None;
     SuccessQuery.razorpay_payment_link_status := Some "paid";
     SuccessQuery.razorpay_signature := None |}.

(** The orders of [Sample.store] once order 42 is completed with [pid]. *)
Definition orders_paid (pid : string) : list Order.t :=
  [ order 41 "completed" (Some "pay_old") (299 # 1) 86400;
    order 42 "completed" (Some pid) (499 # 1) 86400 ].

Definition new_package : PackageReq.t :=
  {| PackageReq.name := "Leadership"; PackageReq.category := None;
     PackageReq.price := 999 # 1; PackageReq.features := None;
     PackageReq.package_type := "premium" |}.

Definition new_speaker : SpeakerReq.t :=
  {| SpeakerReq.name := "Grace"; SpeakerReq.title := None;
     SpeakerReq.company := None; SpeakerReq.bio := None;
     SpeakerReq.image_url := None |}.

End Scenario.

(** ** [GET /api/config] *)

Module Config.
Record t := {
  razorpayKeyId : string;
  testMode : bool;
  useHostedPage : bool
}.
End Config.

(** The object that the route answers with [res.json]. *)
Definition get_config (env : Env) : Config.t :=
  {| Config.razorpayKeyId :=
       if env_set (RAZORPAY_KEY_ID env)
          && negb (env_is (RAZORPAY_KEY_ID env) "your_key_id")
       then env_or (RAZORPAY_KEY_ID env) "rzp_test_demo_key"
       else "rzp_test_demo_key";
     Config.testMode :=
       negb (razorpay env) || env_is (RAZORPAY_KEY_ID env) "your_key_id";
     Config.useHostedPage := true |}.

(** ** Vocabulary of the further statements *)

(** A row as a completion channel may leave it: as it was, or completed. *)
Definition progress (o o' : Order.t) : Prop :=
  o' = o \/ (same_purchase o o' /\ Order.status o' = "completed").

(** What a handler may do to the store when all it runs is the
    completing [UPDATE]. *)
Definition only_completes (d d' : Db) : Prop :=
  Forall2 progress (orders d) (orders d')
  /\ orders_id_seq d' = orders_id_seq d
  /\ event_packages d' = event_packages d
  /\ event_packages_id_seq d' = event_packages_id_seq d
  /\ speakers d' = speakers d
  /\ speakers_id_seq d' = speakers_id_seq d.

(** [COUNT( * ) ... WHERE status = 'completed'] *)
Definition tickets_sold (d : Db) : nat :=
  List.length (filter is_completed (orders d)).

(** The string holds white space only. *)
Fixpoint blank (s : string) : bool :=
  match s with
  | EmptyString => true
  | String c r => is_space c && blank r
  end.

(** The phone number without the sign that may lead it. *)
Definition unsigned_phone (s : string) : string :=
  match s with
  | String "+"%char r => r
  | _ => s
  end.

(** ** The other admin routes on packages and speakers *)

(** [SET name = $1, category = $2, price = $3, features = $4,
    package_type = $5, updated_at = CURRENT_TIMESTAMP], [price] being the
    price as the column takes it *)
Definition with_package_fields (now : Z) (r : PackageReq.t) (price : Q)
    (p : Package.t) : Package.t :=
  {| Package.id := Package.id p; Package.name := PackageReq.name r;
     Package.category := PackageReq.category r;
     Package.price := price;
     Package.features := PackageReq.features r;
     Package.package_type := PackageReq.package_type r;
     Package.display_order := Package.display_order p;
     Package.is_active := Package.is_active p;
     Package.created_at := Package.created_at p;
     Package.updated_at := now |}.

(** [SET name = $1, title = $2, company = $3, bio = $4, image_url = $5,
    updated_at = CURRENT_TIMESTAMP] *)
Definition with_speaker_fields (now : Z) (r : SpeakerReq.t) (p : Speaker.t)
    : Speaker.t :=
  {| Speaker.id := Speaker.id p; Speaker.name := SpeakerReq.name r;
     Speaker.title := SpeakerReq.title r;
     Speaker.company := SpeakerReq.company r;
     Speaker.bio := SpeakerReq.bio r;
     Speaker.image_url := SpeakerReq.image_url r;
     Speaker.display_order := Speaker.display_order p;
     Speaker.is_active := Speaker.is_active p;
     Speaker.created_at := Speaker.created_at p;
     Speaker.updated_at := now |}.

(** [SET display_order = $1] *)
Definition with_package_order (ord : option Z) (p : Package.t) : Package.t :=
  {| Package.id := Package.id p; Package.name := Package.name p;
     Package.category := Package.category p;
     Package.price := Package.price p;
     Package.features := Package.features p;
     Package.package_type := Package.package_type p;
     Package.display_order := ord;
     Package.is_active := Package.is_active p;
     Package.created_at := Package.created_at p;
     Package.updated_at := Package.updated_at p |}.

Definition with_speaker_order (ord : option Z) (p : Speaker.t) : Speaker.t :=
  {| Speaker.id := Speaker.id p; Speaker.name := Speaker.name p;
     Speaker.title := Speaker.title p; Speaker.company := Speaker.company p;
     Speaker.bio := Speaker.bio p; Speaker.image_url := Speaker.image_url p;
     Speaker.display_order := ord;
     Speaker.is_active := Speaker.is_active p;
     Speaker.created_at := Speaker.created_at p;
     Speaker.updated_at := Speaker.updated_at p |}.

Section CatalogWrites.

Variable X : Externals.

(** [UPDATE t SET ... WHERE id = $n] with the [:id] of the path *)
Definition update_packages_where (id : string) (f : Package.t -> Package.t)
    : Stmt unit := fun d =>
  match key_of X (Js.Str id) with
  | KeyError => (Throw (DbError "22P02"), d)
  | KeyNull => (Ok tt, d)
  | KeyInt k =>
      (Ok tt,
       set_event_packages (map (where_id Package.id k f) (event_packages d)) d)
  end.

Definition update_speakers_where (id : string) (f : Speaker.t -> Speaker.t)
    : Stmt unit := fun d =>
  match key_of X (Js.Str id) with
  | KeyError => (Throw (DbError "22P02"), d)
  | KeyNull => (Ok tt, d)
  | KeyInt k =>
      (Ok tt, set_speakers (map (where_id Speaker.id k f) (speakers d)) d)
  end.

(** [UPDATE event_packages SET name = $1, category = $2, price = $3,
    features = $4, package_type = $5, updated_at = CURRENT_TIMESTAMP
    WHERE id = $6] *)
Definition update_package (now : Z) (id : string) (r : PackageReq.t)
    : Stmt unit := fun d =>
  match decimal_10_2 (PackageReq.price r) with
  | None => (Throw (DbError "22003"), d)
  | Some price => update_packages_where id (with_package_fields now r price) d
  end.

(** [PUT /api/admin/packages/:id] *)
Definition admin_update_package (env : Env) (now : Z)
    (adminToken : option string) (id : string) (r : PackageReq.t) : Handler :=
  admin_route X env adminToken
    (pool_query (admin_pool env) (update_package now id r) ;;
     ret (Json 200 BSuccess)).

(** [PUT /api/admin/speakers/:id] *)
Definition admin_update_speaker (env : Env) (now : Z)
    (adminToken : option string) (id : string) (r : SpeakerReq.t) : Handler :=
  admin_route X env adminToken
    (pool_query (admin_pool env)
       (update_speakers_where id (with_speaker_fields now r)) ;;
     ret (Json 200 BSuccess)).

(** [PUT /api/admin/packages/:id/order]; [display_order] is the field of
    the body as the column takes it: an integer, or NULL when the body
    has no such field or holds [null] there *)
Definition admin_update_package_order (env : Env) (adminToken : option string)
    (id : string) (display_order : option Z) : Handler :=
  admin_route X env adminToken
    (pool_query (admin_pool env)
       (update_packages_where id (with_package_order display_order)) ;;
     ret (Json 200 BSuccess)).

(** [PUT /api/admin/speakers/:id/order] *)
Definition admin_update_speaker_order (env : Env) (adminToken : option string)
    (id : string) (display_order : option Z) : Handler :=
  admin_route X env adminToken
    (pool_query (admin_pool env)
       (update_speakers_where id (with_speaker_order display_order)) ;;
     ret (Json 200 BSuccess)).

(** The requests of the admin router that the model covers. *)
Inductive AdminRequest :=
  | GetStats
  | GetPackages
  | PostPackage (r : PackageReq.t)
  | PutPackage (id : string) (r : PackageReq.t)
  | DeletePackage (id : string)
  | PutPackageOrder (id : string) (display_order : option Z)
  | GetSpeakers
  | PostSpeaker (r : SpeakerReq.t)
  | PutSpeaker (id : string) (r : SpeakerReq.t)
  | DeleteSpeaker (id : string)
  | PutSpeakerOrder (id : string) (display_order : option Z).

Definition admin_request (env : Env) (now : Z) (adminToken : option string)
    (a : AdminRequest) : Handler :=
  match a with
  | GetStats => admin_stats X env now adminToken
  | GetPackages => admin_get_packages X env adminToken
  | PostPackage r => admin_create_package X env now adminToken r
  | PutPackage id r => admin_update_package env now adminToken id r
  | DeletePackage id => admin_delete_package X env adminToken id
  | PutPackageOrder id ord => admin_update_package_order env adminToken id ord
  | GetSpeakers => admin_get_speakers X env adminToken
  | PostSpeaker r => admin_create_speaker X env now adminToken r
  | PutSpeaker id r => admin_update_speaker env now adminToken id r
  | DeleteSpeaker id => admin_delete_speaker X env adminToken id
  | PutSpeakerOrder id ord => admin_update_speaker_order env adminToken id ord
  end.

(** Admin requests one after the other, each with its clock and cookie. *)
Fixpoint admin_session (env : Env)
    (requests : list (Z * option string * AdminRequest)) (w : World) : World :=
  match requests with
  | [] => w
  | (now, adminToken, a) :: rest =>
      admin_session env rest (snd (admin_request env now adminToken a w))
  end.

End CatalogWrites.

(** A catalog row through the admin routes: it keeps its identifier and,
    once switched off, stays off. *)
Definition stays_deleted {R} `{Catalog R} (r r' : R) : Prop :=
  row_id r' = row_id r
  /\ (row_is_active r = false -> row_is_active r' = false).

(** [f] writes neither the identifier, nor the display order, nor the
    active flag. *)
Definition keeps_place {R} `{Catalog R} (f : R -> R) : Prop :=
  forall r,
    row_id (f r) = row_id r
    /\ row_display_order (f r) = row_display_order r
    /\ row_is_active (f r) = row_is_active r.

(** The table keeps its rows in their places and may have gained some. *)
Definition grows_from {R} `{Catalog R} (before after : list R) : Prop :=
  exists kept added,
    after = (kept ++ added)%list /\ Forall2 stays_deleted before kept.

(** What an admin request may do to the store. *)
Definition catalog_step (d d' : Db) : Prop :=
  grows_from (event_packages d) (event_packages d')
  /\ grows_from (speakers d) (speakers d')
  /\ orders d' = orders d
  /\ orders_id_seq d' = orders_id_seq d.

(** ** [GET /api/admin/orders] *)

Module OrderRow.
Record t := {
  id : Z;
  customer_name : string;
  customer_email : string;
  amount : Q;
  status : string;
  created_at : Z
}.
End OrderRow.

(** [SELECT id, customer_name, customer_email, amount, status, created_at] *)
Definition order_columns (o : Order.t) : OrderRow.t :=
  {| OrderRow.id := Order.id o;
     OrderRow.customer_name := Order.customer_name o;
     OrderRow.customer_email := Order.customer_email o;
     OrderRow.amount := Order.amount o;
     OrderRow.status := Order.status o;
     OrderRow.created_at := Order.created_at o |}.

(** [ORDER BY key DESC]; rows of one key come as the table has them. *)
Fixpoint insert_desc {R} (key : R -> Z) (a : R) (l : list R) : list R :=
  match l with
  | [] => [a]
  | b :: m => if key b <=? key a then a :: l else b :: insert_desc key a m
  end.

Definition order_desc {R} (key : R -> Z) (l : list R) : list R :=
  fold_right (insert_desc key) [] l.

(** [ORDER BY created_at DESC] *)
Definition order_by_created_desc (l : list Order.t) : list Order.t :=
  order_desc Order.created_at l.

(** [SELECT ... FROM orders ORDER BY created_at DESC LIMIT 50] *)
Definition select_recent_orders : Stmt (list OrderRow.t) := fun d =>
  (Ok (map order_columns (firstn 50 (order_by_created_desc (orders d)))), d).

(** The answer of a route that sends rows of type [B] with [res.json],
    or one of the error answers. *)
Inductive Answer (B : Type) :=
  | Sent (body : B)
  | Failed (resp : Response).
Arguments Sent {B} body.
Arguments Failed {B} resp.

(** [try { ... res.json(body) } catch (err) { res.status(...)... }] *)
Definition send {W B} (body : W -> Res B * W) (on_error : Exn -> Response)
    : W -> Answer B * W := fun w =>
  match body w with
  | (Ok b, w') => (Sent b, w')
  | (Throw e, w') => (Failed (on_error e), w')
  end.

Section AdminLists.

Variable X : Externals.

(** [verifyAdminToken, checkDbConnection, async (req, res) => { try { ...
    res.json(body) } catch (error) { res.status(500)... } }] over a world
    of any type *)
Definition admin_rows {W B} (env : Env) (adminToken : option string)
    (body : W -> Res B * W) : W -> Answer B * W := fun w =>
  match adminToken with
  | Some token =>
      if String.eqb token ""
      then (Failed (Json 401 (BError "No token provided")), w)
      else if jwt_verify X (JWT_SECRET env) token then
        if admin_pool env then send body internal_server_error w
        else (Failed (Json 503 (BError "Database connection not available")), w)
      else (Failed (Json 401 (BError "Invalid token")), w)
  | None => (Failed (Json 401 (BError "No token provided")), w)
  end.

(** [GET /api/admin/orders] *)
Definition admin_orders (env : Env) (adminToken : option string)
    : World -> Answer (list OrderRow.t) * World :=
  admin_rows env adminToken (pool_query (admin_pool env) select_recent_orders).

End AdminLists.

(** Largest key first. *)
Definition sorted_desc {R} (key : R -> Z) (l : list R) : Prop :=
  StronglySorted (fun a b => key b <= key a) l.

(** Newest first. *)
Definition newest_first (l : list Order.t) : Prop :=
  sorted_desc Order.created_at l.

(** ** [initializeDatabase]: the default packages and speakers *)

(** [JSON.stringify] of an array of strings that need no escaping *)
Definition JSON_stringify (l : list string) : string :=
  ("[" ++ String.concat ","
            (map (fun s => String "034"%char (s ++ String "034"%char "")) l)
       ++ "]")%string.

(** [defaultPackages], each with its [display_order] as the column
    takes it *)
Definition defaultPackages : list (PackageReq.t * option Z) :=
  [ ({| PackageReq.name := "Professional Pass";
        PackageReq.category := Some "Aspiring Professional";
        PackageReq.price := 299;
        PackageReq.features :=
          Some (JSON_stringify
                  ["Certificate of Participation";
                   "Internship & Placement Prospects";
                   "Career Guidance"]);
        PackageReq.package_type := "professional" |}, Some 1);
    ({| PackageReq.name := "Executive Pass";
        PackageReq.category := Some "Executive";
        PackageReq.price := 2999;
        PackageReq.features :=
          Some (JSON_stringify
                  ["AI & Digital Tools in HR";
                   "Industry Networking";
                   "Talent Acquisition Strategies"]);
        PackageReq.package_type := "executive" |}, Some 2);
    ({| PackageReq.name := "Leadership Pass";
        PackageReq.category := Some "Leadership";
        PackageReq.price := 4999;
        PackageReq.features :=
          Some (JSON_stringify
                  ["Institutional Growth Insights";
                   "Corporate Collaborations";
                   "Workforce Trend Analysis"]);
        PackageReq.package_type := "leadership" |}, Some 3) ].

(** [defaultSpeakers], each with its [display_order] as the column
    takes it *)
Definition defaultSpeakers : list (SpeakerReq.t * option Z) :=
  [ ({| SpeakerReq.name := "Dr. Sarah Johnson";
        SpeakerReq.title := Some "Chief People Officer";
        SpeakerReq.company := Some "TechCorp Global";
        SpeakerReq.bio :=
          Some "Leading expert in digital transformation and talent acquisition with 15+ years of experience.";
        SpeakerReq.image_url :=
          Some "https://randomuser.me/api/portraits/women/1.jpg" |}, Some 1);
    ({| SpeakerReq.name := "Michael Chen";
        SpeakerReq.title := Some "Director of Talent Strategy";
        SpeakerReq.company := Some "Innovation Labs";
        SpeakerReq.bio :=
          Some "Specialist in AI-driven recruitment and modern workplace culture development.";
        SpeakerReq.image_url :=
          Some "https://randomuser.me/api/portraits/men/1.jpg" |}, Some 2);
    ({| SpeakerReq.name := "Rachel Martinez";
        SpeakerReq.title := Some "VP of Human Resources";
        SpeakerReq.company := Some "Future Enterprises";
        SpeakerReq.bio :=
          Some "Pioneer in remote work strategies and inclusive hiring practices.";
        SpeakerReq.image_url :=
          Some "https://randomuser.me/api/portraits/women/2.jpg" |}, Some 3);
    ({| SpeakerReq.name := "David Kumar";
        SpeakerReq.title := Some "Head of Recruitment";
        SpeakerReq.company := Some "StartupHub";
        SpeakerReq.bio :=
          Some "Expert in scaling tech teams and building high-performance cultures.";
        SpeakerReq.image_url :=
          Some "https://randomuser.me/api/portraits/men/2.jpg" |}, Some 4) ].

(** [SELECT COUNT( * ) FROM event_packages] *)
Definition count_packages : Stmt Z := fun d =>
  (Ok (Z.of_nat (List.length (event_packages d))), d).

(** [SELECT COUNT( * ) FROM speakers] *)
Definition count_speakers : Stmt Z := fun d =>
  (Ok (Z.of_nat (List.length (speakers d))), d).

(** [for (const a of l) { await body(a) }], with the number of the
    iteration *)
Fixpoint for_of {A} (i : nat) (l : list A) (body : nat -> A -> M unit)
    : M unit :=
  match l with
  | [] => ret tt
  | a :: m => body i a ;; for_of (S i) m body
  end.

(** The two blocks of [initializeDatabase] on the catalog; its pool
    always exists, and [clock i] is the [CURRENT_TIMESTAMP] of the [i]-th
    insertion. *)
Definition insert_default_package (clock : nat -> Z) (i : nat)
    (pkg : PackageReq.t * option Z) : M unit :=
  pool_query true (insert_package (clock i) (fst pkg) (snd pkg)) ;; ret tt.

Definition insert_default_speaker (clock : nat -> Z) (i : nat)
    (speaker : SpeakerReq.t * option Z) : M unit :=
  pool_query true (insert_speaker (clock i) (fst speaker) (snd speaker)) ;;
  ret tt.

Definition seed_packages (clock : nat -> Z) : M unit :=
  packagesCount <- pool_query true count_packages ;;
  if packagesCount =? 0
  then for_of 0 defaultPackages (insert_default_package clock)
  else ret tt.

Definition seed_speakers (clock : nat -> Z) : M unit :=
  speakersCount <- pool_query true count_speakers ;;
  if speakersCount =? 0
  then for_of (List.length defaultPackages) defaultSpeakers
         (insert_default_speaker clock)
  else ret tt.

Definition seed_catalog (clock : nat -> Z) : M unit :=
  seed_packages clock ;; seed_speakers clock.

(** The columns of a row that an insertion gives. *)
Definition package_fields (p : Package.t) : PackageReq.t * option Z :=
  ({| PackageReq.name := Package.name p;
      PackageReq.category := Package.category p;
      PackageReq.price := Package.price p;
      PackageReq.features := Package.features p;
      PackageReq.package_type := Package.package_type p |},
   Package.display_order p).

Definition speaker_fields (p : Speaker.t) : SpeakerReq.t * option Z :=
  ({| SpeakerReq.name := Speaker.name p;
      SpeakerReq.title := Speaker.title p;
      SpeakerReq.company := Speaker.company p;
      SpeakerReq.bio := Speaker.bio p;
      SpeakerReq.image_url := Speaker.image_url p |},
   Speaker.display_order p).

(** The store has gained the new active rows [added_p] and [added_s] and
    is otherwise as it was. *)
Definition seeded (d d' : Db) (added_p : list Package.t)
    (added_s : list Speaker.t) : Prop :=
  event_packages d' = (event_packages d ++ added_p)%list
  /\ speakers d' = (speakers d ++ added_s)%list
  /\ Forall (fun p => Package.is_active p = true) added_p
  /\ Forall (fun p => Speaker.is_active p = true) added_s
  /\ orders d' = orders d
  /\ orders_id_seq d' = orders_id_seq d.

(** The price is one that the column stores as it is. *)
Definition exact_price (pkg : PackageReq.t * option Z) : Prop :=
  decimal_10_2 (PackageReq.price (fst pkg)) = Some (PackageReq.price (fst pkg)).

(** ** Routes on the tables outside [Db] *)

(** A store of type [S] with the outcomes of the coming statements, as
    [World] has them for [Db]. *)
Record Run (S : Type) := {
  store : S;
  outcomes : list Outcome
}.
Arguments store {S} r.
Arguments outcomes {S} r.
Arguments Build_Run {S} store outcomes.

Definition Task (S A : Type) : Type := Run S -> Res A * Run S.

Definition done {S A} (a : A) : Task S A := fun w => (Ok a, w).

Definition and_then {S A B} (m : Task S A) (k : A -> Task S B) : Task S B :=
  fun w =>
    match m w with
    | (Ok a, w') => k a w'
    | (Throw e, w') => (Throw e, w')
    end.

(** [await pool.query(...)] *)
Definition query {S A} (has_pool : bool) (s : S -> Res A * S) : Task S A :=
  fun w =>
    if has_pool then
      match outcomes w with
      | Fails c :: rest =>
          (Throw (DbError c), {| store := store w; outcomes := rest |})
      | _ =>
          match s (store w) with
          | (r, st) => (r, {| store := st; outcomes := tl (outcomes w) |})
          end
      end
    else (Throw TypeError, w).

(** The 503 of [checkDbConnection] in server.js *)
Definition service_unavailable : Response :=
  Json 503
    (BFailure "Database connection not available"
       "The service is temporarily unavailable. Please try again later."
       "DB_CONNECTION_ERROR" []).

(** [checkDbConnection] of server.js before a route of any answer *)
Definition when_connected {W B} (env : Env) (next : W -> Answer B * W)
    : W -> Answer B * W := fun w =>
  if pool env then next w else (Failed service_unavailable, w).

(** *** Contact forms *)

Module ContactForm.
Record t := {
  id : Z;
  name : string;
  phone : string;
  email : string;
  message : string;
  created_at : Z
}.
End ContactForm.

Module ContactReq.
Record t := {
  name : string;
  email : string;
  phone : string;
  message : string
}.
End ContactReq.

Record Inbox := {
  contact_forms : list ContactForm.t;
  contact_forms_id_seq : Z
}.

(** [INSERT INTO contact_forms (name, phone, email, message)
    VALUES ($1, $2, $3, $4) RETURNING id] *)
Definition insert_contact_form (now : Z) (name phone email message : string)
    (s : Inbox) : Res Z * Inbox :=
  let k := contact_forms_id_seq s in
  if existsb (fun f => ContactForm.id f =? k) (contact_forms s)
  then (Throw (DbError "23505"),
        {| contact_forms := contact_forms s; contact_forms_id_seq := k + 1 |})
  else
    (Ok k,
     {| contact_forms :=
          (contact_forms s ++
           [ {| ContactForm.id := k; ContactForm.name := name;
                ContactForm.phone := phone; ContactForm.email := email;
                ContactForm.message := message;
                ContactForm.created_at := now |} ])%list;
        contact_forms_id_seq := k + 1 |}).

(** [SELECT * FROM contact_forms ORDER BY created_at DESC] *)
Definition select_contact_forms (s : Inbox)
    : Res (list ContactForm.t) * Inbox :=
  (Ok (order_desc ContactForm.created_at (contact_forms s)), s).

Section ContactRoutes.

Variable X : Externals.

(** [validateContact] followed by [validationResult(req).array()] *)
Definition validateContact (r : ContactReq.t) : list FieldError :=
  (check (isLength 2 100 (trim (ContactReq.name r))) "name"
     "Name must be between 2 and 100 characters"
   ++ check (isEmail X (ContactReq.email r)) "email" "Invalid email format"
   ++ check (phone_matches (ContactReq.phone r)) "phone"
        "Invalid phone number format"
   ++ check (isLength 10 1000 (trim (ContactReq.message r))) "message"
        "Message must be between 10 and 1000 characters")%list.

(** [POST /api/contact]; the answer carries the [id] of the new row. *)
Definition post_contact (env : Env) (now : Z) (r : ContactReq.t)
    : Run Inbox -> Answer Z * Run Inbox :=
  when_connected env
    (fun w =>
       match validateContact r with
       | [] =>
           send
             (query (pool env)
                (insert_contact_form now (trim (ContactReq.name r))
                   (ContactReq.phone r)
                   (normalizeEmail X (ContactReq.email r))
                   (trim (ContactReq.message r))))
             (fun _ => Json 500 (BError "Failed to submit contact form")) w
       | errs => (Failed (validation_failed errs), w)
       end).

(** [DELETE FROM contact_forms WHERE id = $1] with the [:id] of the path *)
Definition delete_contact_form (id : string) (s : Inbox) : Res unit * Inbox :=
  match key_of X (Js.Str id) with
  | KeyError => (Throw (DbError "22P02"), s)
  | KeyNull => (Ok tt, s)
  | KeyInt k =>
      (Ok tt,
       {| contact_forms :=
            filter (fun f => negb (ContactForm.id f =? k)) (contact_forms s);
          contact_forms_id_seq := contact_forms_id_seq s |})
  end.

(** [GET /api/admin/contact-forms] *)
Definition admin_contact_forms (env : Env) (adminToken : option string)
    : Run Inbox -> Answer (list ContactForm.t) * Run Inbox :=
  admin_rows X env adminToken (query (admin_pool env) select_contact_forms).

(** [DELETE /api/admin/contact-forms/:id]; [Sent tt] is
    [{ success: true }]. *)
Definition admin_delete_contact_form (env : Env) (adminToken : option string)
    (id : string) : Run Inbox -> Answer unit * Run Inbox :=
  admin_rows X env adminToken (query (admin_pool env) (delete_contact_form id)).

End ContactRoutes.

(** The counter of [contact_forms] lies above every identifier in use. *)
Definition forms_fresh (s : Inbox) : Prop :=
  forall f, In f (contact_forms s) -> ContactForm.id f < contact_forms_id_seq s.

(** *** The event *)

Module Event.
Record t := {
  id : Z;
  title : string;
  description : option string;
  (** the day *)
  date : Z;
  time : string;
  location : option string;
  price : Q;
  created_at : Z
}.
End Event.

(** The body of [PUT /api/admin/event]: the day and the number in
    [price], and [time] as the text that is sent. *)
Module EventReq.
Record t := {
  title : string;
  description : option string;
  date : Z;
  time : string;
  location : option string;
  price : Q
}.
End EventReq.

Record Agenda := {
  events : list Event.t;
  events_id_seq : Z
}.

(** [SELECT ... FROM events ORDER BY date DESC LIMIT 1] *)
Definition select_latest_event (s : Agenda) : Res (option Event.t) * Agenda :=
  (Ok (hd_error (order_desc Event.date (events s))), s).

(** [SET title = $1, description = $2, date = $3, time = $4,
    location = $5, price = $6], [time] and [price] being what the columns
    make of the parameters *)
Definition with_event_fields (r : EventReq.t) (time : string) (price : Q)
    (e : Event.t) : Event.t :=
  {| Event.id := Event.id e; Event.title := EventReq.title r;
     Event.description := EventReq.description r;
     Event.date := EventReq.date r; Event.time := time;
     Event.location := EventReq.location r; Event.price := price;
     Event.created_at := Event.created_at e |}.

Section EventStatements.

Variable X : Externals.

(** What the columns [time TIME] and [price DECIMAL(10,2)] make of the
    parameters, or the error that refuses them. *)
Definition event_columns (r : EventReq.t) : Res (string * Q) :=
  match time_in X (EventReq.time r) with
  | None => Throw (DbError "22007")
  | Some time =>
      match decimal_10_2 (EventReq.price r) with
      | None => Throw (DbError "22003")
      | Some price => Ok (time, price)
      end
  end.

(** [INSERT INTO events (title, description, date, time, location, price)
    VALUES ($1..$6)] *)
Definition insert_event (now : Z) (r : EventReq.t) (s : Agenda)
    : Res unit * Agenda :=
  match event_columns r with
  | Throw e => (Throw e, s)
  | Ok (time, price) =>
      let k := events_id_seq s in
      if existsb (fun e => Event.id e =? k) (events s)
      then
        (Throw (DbError "23505"),
         {| events := events s; events_id_seq := k + 1 |})
      else
        (Ok tt,
         {| events :=
              (events s ++
               [ {| Event.id := k; Event.title := EventReq.title r;
                    Event.description := EventReq.description r;
                    Event.date := EventReq.date r; Event.time := time;
                    Event.location := EventReq.location r;
                    Event.price := price;
                    Event.created_at := now |} ])%list;
            events_id_seq := k + 1 |})
  end.

(** [UPDATE events SET ... WHERE id = $7], the key being the integer
    that the [SELECT] gave *)
Definition update_event (r : EventReq.t) (k : Z) (s : Agenda)
    : Res unit * Agenda :=
  match event_columns r with
  | Throw e => (Throw e, s)
  | Ok (time, price) =>
      (Ok tt,
       {| events :=
            map (where_id Event.id k (with_event_fields r time price))
              (events s);
          events_id_seq := events_id_seq s |})
  end.

End EventStatements.

(** What [GET /api/event] sends: the row, or the fixed object that stands
    in for it. *)
Inductive EventView :=
  | StoredEvent (e : Event.t)
  | DefaultEvent.

Definition event_fetch_error (_ : Exn) : Response :=
  Json 500
    (BFailure "Failed to fetch event details"
       "Unable to load event information. Please try again later."
       "EVENT_FETCH_ERROR" []).

(** [GET /api/event] *)
Definition get_event (env : Env) : Run Agenda -> Answer EventView * Run Agenda :=
  when_connected env
    (send
       (and_then (query (pool env) select_latest_event)
          (fun row =>
             match row with
             | Some e => done (StoredEvent e)
             | None => done DefaultEvent
             end))
       event_fetch_error).

Section EventRoutes.

Variable X : Externals.

(** [PUT /api/admin/event]; [Sent tt] is [{ success: true }]. *)
Definition admin_put_event (env : Env) (now : Z) (adminToken : option string)
    (r : EventReq.t) : Run Agenda -> Answer unit * Run Agenda :=
  admin_rows X env adminToken
    (and_then (query (admin_pool env) select_latest_event)
       (fun existingEvents =>
          match existingEvents with
          | None => query (admin_pool env) (insert_event X now r)
          | Some e => query (admin_pool env) (update_event X r (Event.id e))
          end)).

End EventRoutes.

(** *** Site content *)

Module Content.
Record t := {
  id : Z;
  section : string;
  title : option string;
  subtitle : option string;
  description : option string;
  content_data : option string;
  updated_at : Z
}.
End Content.

(** The body of [PUT /api/admin/content/:section]; a field that is
    missing is [None] and goes in as [NULL]. *)
Module ContentReq.
Record t := {
  title : option string;
  subtitle : option string;
  description : option string;
  (** [JSON.stringify(content_data)] *)
  content_data : option string
}.
End ContentReq.

(** [SELECT * FROM site_content WHERE section = $1 ORDER BY section]
    and then [result.rows[0] || null] *)
Definition select_content (section : string) (s : list Content.t)
    : Res (option Content.t) * list Content.t :=
  (Ok (find (fun c => String.eqb (Content.section c) section) s), s).

(** [SET title = $1, subtitle = $2, description = $3, content_data = $4,
    updated_at = CURRENT_TIMESTAMP] *)
Definition with_content_fields (now : Z) (r : ContentReq.t) (c : Content.t)
    : Content.t :=
  {| Content.id := Content.id c; Content.section := Content.section c;
     Content.title := ContentReq.title r;
     Content.subtitle := ContentReq.subtitle r;
     Content.description := ContentReq.description r;
     Content.content_data := ContentReq.content_data r;
     Content.updated_at := now |}.

(** [UPDATE site_content SET ... WHERE section = $5] *)
Definition update_content (now : Z) (section : string) (r : ContentReq.t)
    (s : list Content.t) : Res unit * list Content.t :=
  (Ok tt,
   map (fun c =>
          if String.eqb (Content.section c) section
          then with_content_fields now r c else c) s).

(** [GET /api/content/:section] with a section in the path; [Sent None]
    is the answer [null]. *)
Definition get_content (env : Env) (section : string)
    : Run (list Content.t) -> Answer (option Content.t) * Run (list Content.t) :=
  when_connected env
    (send (query (pool env) (select_content section)) internal_server_error).

Section ContentRoutes.

Variable X : Externals.

(** [PUT /api/admin/content/:section]; [Sent tt] is [{ success: true }]. *)
Definition admin_put_content (env : Env) (now : Z) (adminToken : option string)
    (section : string) (r : ContentReq.t)
    : Run (list Content.t) -> Answer unit * Run (list Content.t) :=
  admin_rows X env adminToken
    (query (admin_pool env) (update_content now section r)).

End ContentRoutes.

(** ** The public requests on orders, one after the other *)

Inductive PublicRequest :=
  | PlaceOrder (now : Z) (provider : ProviderReply) (r : OrderReq.t)
  | Confirm (c : Channel).

Definition public_request (X : Externals) (env : Env) (p : PublicRequest)
    : Handler :=
  match p with
  | PlaceOrder now provider r => post_orders X env now provider r
  | Confirm c => fire X env c
  end.

Fixpoint public_session (X : Externals) (env : Env)
    (requests : list PublicRequest) (w : World) : World :=
  match requests with
  | [] => w
  | p :: rest => public_session X env rest (snd (public_request X env p w))
  end.

(** The table of orders keeps its rows in their places, each as it was
    or completed, and may have gained some. *)
Definition ledger_grows (before after : list Order.t) : Prop :=
  exists kept added,
    after = (kept ++ added)%list /\ Forall2 progress before kept.

(** ** Fixtures for the further statements *)

Module Cases.

(** The Leadership pass at 4999.999 *)
Definition repriced : PackageReq.t :=
  {| PackageReq.name := "Leadership"; PackageReq.category := None;
     PackageReq.price := 4999999 # 1000; PackageReq.features := None;
     PackageReq.package_type := "premium" |}.

(** [?razorpay_payment_link_status=paid&order_id=<oid>&razorpay_payment_id=<pid>] *)
Definition paid_redirect (oid pid : string) : SuccessQuery.t :=
  {| SuccessQuery.order_id := Some oid;
     SuccessQuery.razorpay_payment_id := Some pid;
     SuccessQuery.razorpay_payment_link_id := None;
     SuccessQuery.razorpay_payment_link_reference_id := None;
     SuccessQuery.razorpay_payment_link_status := Some "paid";
     SuccessQuery.razorpay_signature := None |}.

(** No database behind either router. *)
Definition offline : Env :=
  {| pool := false; admin_pool := false;
     RAZORPAY_KEY_ID := None; RAZORPAY_KEY_SECRET := None;
     FRONTEND_URL := Some "https://www.rtalks.in"; APP_URL := None;
     JWT_SECRET := Some "jwt" |}.

(** The database right after its tables were created. *)
Definition new_database : World :=
  {| db :=
       {| orders := []; orders_id_seq := 1;
          event_packages := []; event_packages_id_seq := 1;
          speakers := []; speakers_id_seq := 1 |};
     tx := None; script := [] |}.

Definition form (k at_ : Z) : ContactForm.t :=
  {| ContactForm.id := k; ContactForm.name := "Jane Doe";
     ContactForm.phone := "+919999999999";
     ContactForm.email := "jane@x.com";
     ContactForm.message := "Do you offer group tickets?";
     ContactForm.created_at := at_ |}.

Definition inbox : Run Inbox :=
  {| store :=
       {| contact_forms := [ form 1 100; form 2 300; form 3 200 ];
          contact_forms_id_seq := 4 |};
     outcomes := [] |}.

Definition question : ContactReq.t :=
  {| ContactReq.name := "  Jane Doe ";
     ContactReq.email := "jane@x.com";
     ContactReq.phone := "+919999999999";
     ContactReq.message := "Do you offer group tickets?" |}.

Definition agenda : Run Agenda :=
  {| store :=
       {| events :=
            [ {| Event.id := 1; Event.title := "R-TALKS SUMMIT 2025";
                 Event.description := None; Event.date := 20162;
                 Event.time := "09:00:00";
                 Event.location := Some "Virtual Event";
                 Event.price := 2999 # 1; Event.created_at := 0 |} ];
          events_id_seq := 2 |};
     outcomes := [] |}.

(** The event moved to an earlier day and a hall, at ten and for
    1999.999. *)
Definition moved : EventReq.t :=
  {| EventReq.title := "R-TALKS SUMMIT 2025"; EventReq.description := None;
     EventReq.date := 20150; EventReq.time := "10:00";
     EventReq.location := Some "Rathinam Grand Hall";
     EventReq.price := 1999999 # 1000 |}.

Definition pages : Run (list Content.t) :=
  {| store :=
       [ {| Content.id := 1; Content.section := "hero";
            Content.title := Some "R-TALKS"; Content.subtitle := None;
            Content.description := None; Content.content_data := None;
            Content.updated_at := 0 |} ];
     outcomes := [] |}.

Definition headline : ContentReq.t :=
  {| ContentReq.title := Some "R-TALKS SUMMIT";
     ContentReq.subtitle := Some "2025"; ContentReq.description := None;
     ContentReq.content_data := None |}.

End Cases.

(** * Properties *)

(** ** The [DECIMAL(10,2)] columns *)



Section Properties.

Variable X : Externals.

(** ** Order creation *)

Lemma fresh_id_unused (d : Db) :
  orders_fresh d ->
  existsb (fun o => Order.id o =? orders_id_seq d) (orders d) = false.
Proof.
  intros Hfresh.
  destruct (existsb _ (orders d)) eqn:E; [|reflexivity].
  apply existsb_exists in E. destruct E as [o [Hin Heq]].
  apply Hfresh in Hin. lia.
Qed.

Lemma where_id_other {R} (rid : R -> Z) (k : Z) (f : R -> R) (l : list R) :
  (forall r, In r l -> rid r < k) -> map (where_id rid k f) l = l.
Proof.
  induction l as [|a l IH]; intros Hlt; [reflexivity|].
  simpl. unfold where_id at 1.
  destruct (Z.eqb_spec (rid a) k) as [E|_].
  - specialize (Hlt a (or_introl eq_refl)). lia.
  - f_equal. apply IH. intros r Hr. apply Hlt. now right.
Qed.

(** The counters apart, a snapshot of the present tables changes
    nothing. *)
Lemma rolled_back_same (d : Db) : rolled_back d d = d.
Proof. now destruct d. Qed.

(** The run of the handler when every statement succeeds. *)
Lemma post_orders_run (env : Env) (now : Z) (provider : ProviderReply)
    (r : OrderReq.t) (amount : Q) (d : Db) (t : option (Db * bool)) :
  pool env = true ->
  validateOrder X r = [] ->
  orders_fresh d ->
  decimal_10_2 (price_of r) = Some amount ->
  post_orders X env now provider r {| db := d; tx := t; script := [] |}
  = (Json 200
       (BOrder (orders_id_seq d) (fst (granted_link env provider))
          (snd (granted_link env provider)) (price_of r)
          (negb (razorpay env)) true),
     {| db :=
          set_orders
            (orders d
             ++ [stored_order X env now provider r amount (orders_id_seq d)])
            (bump_orders_id_seq d);
        tx := None; script := [] |}).
Proof.
  intros Hpool Hvalid Hfresh Hamt.
  unfold post_orders, checkDbConnection. rewrite Hpool, Hvalid.
  unfold respond, create_order, request_payment_link, bind, try_catch,
    pool_connect, client_begin, client_query, client_commit, run_stmt,
    next_outcome, insert_order, ret, stored_order, granted_link.
  cbn [script db tx pop set_tx set_db fst snd tl].
  rewrite Hamt, (fresh_id_unused d Hfresh).
  destruct (razorpay env); [destruct provider as [url lid|]|]; cbn;
    try reflexivity.
  rewrite map_app, (where_id_other Order.id _ _ (orders d) Hfresh).
  cbn. unfold where_id. now rewrite Z.eqb_refl.
Qed.

(** The run of the handler on a price that the column refuses: the
    [INSERT] throws, the transaction is rolled back, the answer is 500. *)
Lemma post_orders_overflow (env : Env) (now : Z) (provider : ProviderReply)
    (r : OrderReq.t) (d : Db) (t : option (Db * bool)) :
  pool env = true ->
  validateOrder X r = [] ->
  decimal_10_2 (price_of r) = None ->
  post_orders X env now provider r {| db := d; tx := t; script := [] |}
  = (Json 500
       (BFailure "Unable to process your request. Please try again."
          "Order creation failed. Please check your details and try again."
          "ORDER_CREATION_ERROR" []),
     {| db := d; tx := None; script := [] |}).
Proof.
  intros Hpool Hvalid Hamt.
  unfold post_orders, checkDbConnection. rewrite Hpool, Hvalid.
  unfold respond, create_order, bind, try_catch, throw,
    pool_connect, client_begin, client_query, client_rollback, run_stmt,
    next_outcome, insert_order, mark_failed.
  cbn [script db tx pop set_tx set_db fst snd tl].
  rewrite Hamt.
  cbn [script db tx pop set_tx set_db fst snd tl order_creation_error].
  now rewrite rolled_back_same.
Qed.

(** Creating an order keeps the counter above the identifiers. *)
Lemma post_orders_keeps_fresh (env : Env) (now : Z) (provider : ProviderReply)
    (r : OrderReq.t) (w : World) :
  pool env = true -> validateOrder X r = [] -> script w = [] ->
  orders_fresh (db w) ->
  orders_fresh (db (snd (post_orders X env now provider r w))).
Proof.
  intros Hpool Hvalid Hs Hfresh. destruct w as [d t s]. simpl in *. subst s.
  destruct (decimal_10_2 (price_of r)) as [amount|] eqn:Hamt.
  - rewrite (post_orders_run env now provider r amount) by assumption. simpl.
    intros o Hin. simpl in Hin. apply in_app_or in Hin.
    destruct Hin as [Hin|[<-|[]]]; simpl.
    + apply Hfresh in Hin. lia.
    + lia.
  - rewrite post_orders_overflow by assumption. exact Hfresh.
Qed.

(** C1. A valid order request against a reachable store, with a price
    that the [amount] column takes, inserts one row and commits it, and
    that row is [pending]: without a provider, when the provider creates
    the link, and when the provider call fails.  The row carries the
    sanitised fields of the request and the price rounded to the cent; the
    answer is 200 and repeats the price as sent.  In the failing case the
    row has no payment reference and the answer has a null [paymentLink].
    A valid request whose price the column refuses (10^8 and beyond)
    inserts no row and is answered 500. *)
Theorem order_created_pending (env : Env) (now : Z) (provider : ProviderReply)
    (r : OrderReq.t) (price : Q) (w : World) :
  pool env = true ->
  validateOrder X r = [] ->
  OrderReq.price r = Some price ->
  script w = [] ->
  orders_fresh (db w) ->
  let k := orders_id_seq (db w) in
  let out := post_orders X env now provider r w in
  (forall amount,
     decimal_10_2 price = Some amount ->
     exists payment_id paymentLink,
       orders (db (snd out)) =
         (orders (db w)
          ++ [ {| Order.id := k;
                  Order.customer_name := trim (OrderReq.name r);
                  Order.customer_email := normalizeEmail X (OrderReq.email r);
                  Order.customer_phone := OrderReq.phone r;
                  Order.package_name := OrderReq.package r;
                  Order.amount := amount;
                  Order.status := "pending";
                  Order.payment_id := payment_id;
                  Order.created_at := now |} ])%list
       /\ tx (snd out) = None
       /\ orders_id_seq (db (snd out)) = k + 1
       /\ fst out =
            Json 200
              (BOrder k paymentLink payment_id price (negb (razorpay env)) true)
       /\ (razorpay env = false \/ provider = LinkFailed ->
           payment_id = None /\ paymentLink = None)
       /\ (forall url lid,
             razorpay env = true -> provider = LinkCreated url lid ->
             payment_id = Some lid /\ paymentLink = Some url))
  /\ (decimal_10_2 price = None ->
      status_code (fst out) = 500
      /\ orders (db (snd out)) = orders (db w)
      /\ tx (snd out) = None).
Proof.
  intros Hpool Hvalid Hprice Hscript Hfresh k out. subst k out.
  destruct w as [d t s]. simpl in Hscript, Hfresh. subst s.
  assert (Hof : price_of r = price) by (unfold price_of; now rewrite Hprice).
  split.
  - intros amount Hamt.
    rewrite (post_orders_run env now provider r amount) by
      (try assumption; now rewrite Hof).
    exists (snd (granted_link env provider)).
    exists (fst (granted_link env provider)).
    assert (Hnone : razorpay env = false \/ provider = LinkFailed ->
              granted_link env provider = (None, None)).
    { unfold granted_link. intros [E| ->]; [now rewrite E|].
      now destruct (razorpay env). }
    assert (Hsome : forall url lid,
              razorpay env = true -> provider = LinkCreated url lid ->
              granted_link env provider = (Some url, Some lid)).
    { unfold granted_link. intros url lid E ->. now rewrite E. }
    rewrite Hof.
    cbn [fst snd db tx orders orders_id_seq set_orders bump_orders_id_seq].
    split; [reflexivity|]. split; [reflexivity|]. split; [reflexivity|].
    split; [reflexivity|]. split.
    + intros E. now rewrite (Hnone E).
    + intros url lid E1 E2. now rewrite (Hsome url lid E1 E2).
  - intros Hamt.
    rewrite post_orders_overflow by (try assumption; now rewrite Hof).
    repeat split.
Qed.

(** ** The completing [UPDATE] *)

Lemma str_eq_true (s : string) (v : Js.prim) :
  Js.str_eq s v = true <-> v = Js.Str s.
Proof.
  destruct v; simpl; try (split; [discriminate | intros E; discriminate]).
  rewrite String.eqb_eq. split; intros E; [now subst | now inversion E].
Qed.

Lemma str_eq_false (s : string) (v : Js.prim) :
  Js.str_eq s v = false <-> v <> Js.Str s.
Proof.
  rewrite <- str_eq_true. destruct (Js.str_eq s v); split; congruence.
Qed.

Lemma completes_with_status (k : Z) (pid : option string) (o : Order.t) :
  completes_order k pid o (where_id Order.id k (with_status "completed" pid) o).
Proof.
  unfold completes_order, where_id.
  destruct (Z.eqb_spec (Order.id o) k); split; intros; try contradiction;
    try reflexivity.
  unfold same_purchase; simpl; repeat split; reflexivity.
Qed.

Lemma completion_of_update (k : Z) (pid : option string) (l : list Order.t) :
  completion k pid l (map (where_id Order.id k (with_status "completed" pid)) l).
Proof.
  induction l as [|o l IH]; simpl; constructor; auto.
  apply completes_with_status.
Qed.

Lemma same_purchase_trans (a b c : Order.t) :
  same_purchase a b -> same_purchase b c -> same_purchase a c.
Proof. unfold same_purchase. intuition congruence. Qed.

(** A later completion of the same order overrides an earlier one. *)
Lemma completion_twice (k : Z) (p1 p2 : option string) (a b c : list Order.t) :
  completion k p1 a b -> completion k p2 b c -> completion k p2 a c.
Proof.
  intros Hab. revert c.
  induction Hab as [|x y a b Hxy Hab IH]; intros c Hbc; inversion Hbc; subst.
  - constructor.
  - constructor; [|now apply IH].
    destruct Hxy as [Hk Hn]. match goal with H : completes_order _ _ y _ |- _ =>
      destruct H as [Hk' Hn'] end.
    split.
    + intros E. destruct (Hk E) as [Sxy _].
      assert (Ey : Order.id y = k) by (destruct Sxy as [Ei _]; congruence).
      destruct (Hk' Ey) as [Syz [Hst Hpid]].
      repeat split; try assumption; eapply same_purchase_trans; eassumption.
    + intros N. rewrite (Hn N) in *. now apply Hn'.
Qed.

(** What a completion means for the rows of the order. *)
Lemma completion_row (k : Z) (pid : option string) (before after : list Order.t)
    (n : nat) (o : Order.t) :
  completion k pid before after ->
  nth_error before n = Some o -> Order.id o = k ->
  exists o', nth_error after n = Some o' /\ same_purchase o o'
             /\ Order.status o' = "completed" /\ Order.payment_id o' = pid.
Proof.
  intros Hc. revert n.
  induction Hc as [|x y a b Hxy Hab IH]; intros n Hn Hk.
  - destruct n; discriminate.
  - destruct n as [|n]; simpl in *.
    + inversion Hn; subst x. exists y. destruct Hxy as [H1 _].
      destruct (H1 Hk) as [? [? ?]]. auto.
    + now apply IH.
Qed.

Lemma update_order_status_int (st : string) (pid key : Js.prim) (k : Z) (d : Db) :
  key_of X key = KeyInt k ->
  update_order_status X st pid key d =
    (Ok tt,
     set_orders
       (map (where_id Order.id k (with_status st (pg_param pid))) (orders d)) d).
Proof. intros E. unfold update_order_status. now rewrite E. Qed.

(** A statement that is refused, or that the server fails, leaves the
    tables as they were. *)
Lemma update_order_status_throws (st : string) (pid key : Js.prim) (d : Db)
    (e : Exn) (d' : Db) :
  update_order_status X st pid key d = (Throw e, d') -> d' = d.
Proof.
  unfold update_order_status. destruct (key_of X key); intros E; inversion E.
  reflexivity.
Qed.

Lemma pool_query_throws {A} (has_pool : bool) (s : Stmt A) (w w' : World)
    (e : Exn) :
  (forall d e' d', s d = (Throw e', d') -> d' = d) ->
  pool_query has_pool s w = (Throw e, w') -> db w' = db w.
Proof.
  intros Hs. unfold pool_query, run_stmt.
  destruct has_pool; [|intros E; now inversion E].
  destruct (next_outcome w).
  - destruct (s (db w)) as [[a|e'] d'] eqn:Es; intros E; inversion E; subst.
    simpl. eapply Hs; eassumption.
  - intros E; inversion E; reflexivity.
Qed.

(** A completion determines the table. *)
Lemma completion_rows (k : Z) (pid : option string)
    (before after : list Order.t) :
  completion k pid before after ->
  after = map (where_id Order.id k (with_status "completed" pid)) before.
Proof.
  induction 1 as [|o o' l l' [Hk Hn] _ IH]; [reflexivity|].
  cbn [map]. rewrite <- IH. f_equal. unfold where_id.
  destruct (Z.eqb_spec (Order.id o) k) as [E|N]; [|exact (Hn N)].
  destruct (Hk E) as [[H1 [H2 [H3 [H4 [H5 [H6 H7]]]]]] [H8 H9]].
  destruct o, o'. cbn in *. now subst.
Qed.

(** The key that a text parameter makes. *)
Lemma key_of_text (v : Js.prim) (oid : string) :
  pg_param v = Some oid ->
  key_of X v =
    match int4in X oid with
    | Some k => KeyInt k
    | None => KeyError
    end.
Proof. intros E. unfold key_of. now rewrite E. Qed.

Lemma key_of_null (v : Js.prim) : pg_param v = None -> key_of X v = KeyNull.
Proof. intros E. unfold key_of. now rewrite E. Qed.

(** What a confirmation means to each handler. *)
Lemma confirms_manual (env : Env) (r : VerifyReq.t) (k : Z)
    (pid : option string) :
  confirms X env (ManualVerify r) k pid ->
  exists secret,
    RAZORPAY_KEY_SECRET env = Some secret
    /\ VerifyReq.signature r =
         Js.Str
           (hmac_sha256_hex X secret
              (signed_message (VerifyReq.orderId r) (VerifyReq.paymentId r)))
    /\ key_of X (VerifyReq.orderId r) = KeyInt k
    /\ pg_param (VerifyReq.paymentId r) = pid.
Proof.
  intros [secret [oid [Hsec [Hsig [Hoid [Hk Hpid]]]]]].
  exists secret. repeat split; try assumption.
  now rewrite (key_of_text _ oid Hoid), Hk.
Qed.

Lemma confirms_redirect (env : Env) (q : SuccessQuery.t) (k : Z)
    (pid : option string) :
  confirms X env (RedirectCallback q) k pid ->
  SuccessQuery.razorpay_payment_link_status q = Some "paid"
  /\ Js.truthy (Js.of_option (SuccessQuery.order_id q)) = true
  /\ key_of X (Js.of_option (SuccessQuery.order_id q)) = KeyInt k
  /\ pg_param (provider_payment_id q) = pid.
Proof.
  intros [Hpaid [oid [Hoid [Hne [Hk Hpid]]]]].
  split; [exact Hpaid|]. rewrite Hoid. cbn [Js.of_option Js.truthy].
  apply String.eqb_neq in Hne. rewrite Hne.
  split; [reflexivity|]. split.
  - now rewrite (key_of_text (Js.Str oid) oid eq_refl), Hk.
  - subst pid. unfold provider_payment_id, Js.or.
    destruct (SuccessQuery.razorpay_payment_id q) as [p|];
      cbn [Js.of_option Js.truthy].
    + destruct (String.eqb p ""); cbn [negb].
      * now destruct (SuccessQuery.razorpay_payment_link_id q).
      * reflexivity.
    + now destruct (SuccessQuery.razorpay_payment_link_id q).
Qed.

Lemma confirms_webhook (env : Env) (b : Webhook.Body) (k : Z)
    (pid : option string) :
  confirms X env (PaidWebhook b) k pid ->
  Webhook.event b = Js.Str "payment_link.paid"
  /\ exists payload link payment,
       Webhook.payload b = Some payload
       /\ Webhook.payment_link payload = Some link
       /\ Webhook.payment payload = Some payment
       /\ Js.truthy (notes_order_id link) = true
       /\ key_of X (notes_order_id link) = KeyInt k
       /\ pg_param (Webhook.id payment) = pid.
Proof.
  intros [Hev [payload [link [notes [payment [oid
    [Hpl [Hlink [Hnotes [Htruthy [Hoid [Hk [Hpay Hpid]]]]]]]]]]]]].
  split; [exact Hev|]. exists payload, link, payment.
  unfold notes_order_id. rewrite Hnotes.
  repeat split; try assumption.
  now rewrite (key_of_text _ oid Hoid), Hk.
Qed.

(** ** Manual verification *)

Lemma mutated_neq (s s' : string) : mutated s s' -> s <> s'.
Proof. induction 1; intros E; inversion E; contradiction. Qed.

Lemma mutated_prefix (s s' t : string) :
  mutated s s' -> (s ++ t)%string <> (s' ++ t)%string.
Proof. induction 1; simpl; intros E; inversion E; contradiction. Qed.

Lemma append_inj_l (t s s' : string) :
  (t ++ s)%string = (t ++ s')%string -> s = s'.
Proof. induction t; simpl; intros E; [assumption | inversion E; auto]. Qed.

Lemma mutated_suffix (s s' t : string) :
  mutated s s' -> (t ++ s)%string <> (t ++ s')%string.
Proof. intros Hm E. apply append_inj_l in E. now apply mutated_neq in Hm. Qed.

Lemma verify_payment_mismatch (env : Env) (secret : string) (r : VerifyReq.t)
    (w : World) :
  pool env = true ->
  RAZORPAY_KEY_SECRET env = Some secret ->
  VerifyReq.signature r <>
    Js.Str (hmac_sha256_hex X secret
              (signed_message (VerifyReq.orderId r) (VerifyReq.paymentId r))) ->
  verify_payment X env r w = (Json 400 (BError "Invalid signature"), w).
Proof.
  intros Hpool Hsec Hne.
  unfold verify_payment, checkDbConnection, respond, verify_payment_try,
    createHmac_sha256_hex, bind, ret.
  rewrite Hpool, Hsec. apply str_eq_false in Hne. now rewrite Hne.
Qed.

Lemma verify_payment_match (env : Env) (secret : string) (r : VerifyReq.t)
    (w : World) (k : Z) :
  pool env = true ->
  RAZORPAY_KEY_SECRET env = Some secret ->
  next_outcome w = Succeeds ->
  VerifyReq.signature r =
    Js.Str (hmac_sha256_hex X secret
              (signed_message (VerifyReq.orderId r) (VerifyReq.paymentId r))) ->
  key_of X (VerifyReq.orderId r) = KeyInt k ->
  verify_payment X env r w =
    (Json 200 BSuccess,
     set_db
       (set_orders
          (map (where_id Order.id k
                  (with_status "completed" (pg_param (VerifyReq.paymentId r))))
             (orders (db w))) (db w)) (pop w)).
Proof.
  intros Hpool Hsec Hnext Hsig Hkey.
  unfold verify_payment, checkDbConnection, respond, verify_payment_try,
    createHmac_sha256_hex, bind, ret, pool_query, run_stmt.
  rewrite Hpool, Hsec. apply str_eq_true in Hsig. rewrite Hsig, Hnext.
  now rewrite (update_order_status_int _ _ _ k _ Hkey).
Qed.

Lemma verify_payment_success_only_if (env : Env) (secret : string)
    (r : VerifyReq.t) (w : World) :
  RAZORPAY_KEY_SECRET env = Some secret ->
  fst (verify_payment X env r w) = Json 200 BSuccess ->
  VerifyReq.signature r =
    Js.Str (hmac_sha256_hex X secret
              (signed_message (VerifyReq.orderId r) (VerifyReq.paymentId r))).
Proof.
  intros Hsec. unfold verify_payment, checkDbConnection.
  destruct (pool env); [|discriminate].
  unfold respond, verify_payment_try, createHmac_sha256_hex, bind, ret.
  rewrite Hsec.
  destruct (Js.str_eq _ (VerifyReq.signature r)) eqn:E.
  - intros _. now apply str_eq_true.
  - discriminate.
Qed.

(** The run of the handler on a matching signature: the [UPDATE] is
    sent, and the answer is success unless it throws. *)
Lemma verify_payment_signed (env : Env) (secret : string) (r : VerifyReq.t)
    (w : World) :
  pool env = true ->
  RAZORPAY_KEY_SECRET env = Some secret ->
  VerifyReq.signature r =
    Js.Str (hmac_sha256_hex X secret
              (signed_message (VerifyReq.orderId r) (VerifyReq.paymentId r))) ->
  verify_payment X env r w =
    match
      run_stmt
        (update_order_status X "completed" (VerifyReq.paymentId r)
           (VerifyReq.orderId r)) w
    with
    | (Ok _, w') => (Json 200 BSuccess, w')
    | (Throw _, w') => (Json 500 (BError "Internal server error"), w')
    end.
Proof.
  intros Hpool Hsec Hsig.
  unfold verify_payment, checkDbConnection, respond, verify_payment_try,
    createHmac_sha256_hex, bind, ret, pool_query.
  rewrite Hpool, Hsec. apply str_eq_true in Hsig. rewrite Hsig.
  now destruct (run_stmt _ w) as [[u|e] w'].
Qed.

(** C2. With the shared secret configured and the store reachable, for
    every request: a signature other than the HMAC-SHA256 of
    [orderId|paymentId], a mutated one included, gets 400 and nothing
    changes.  On a matching signature the [UPDATE] is sent: when the
    order identifier is a text that the database reads as an integer and
    the statement goes through, the answer is [{success: true}] and the
    order of that identifier, if there is one, is completed with
    [paymentId]; a null or missing [orderId] is answered success without
    a change; an order identifier that is no integer, or a statement that
    the server fails, is answered 500 without a change.  So the answer is
    success exactly when the signature matches and the [UPDATE] does not
    throw.  A request whose orderId or paymentId was mutated under a
    signature made for the original is accepted only if the HMAC of the
    two different messages coincides. *)
Theorem verify_payment_accepts_iff_signature (env : Env) (secret : string)
    (r : VerifyReq.t) (w : World) :
  pool env = true ->
  RAZORPAY_KEY_SECRET env = Some secret ->
  let message oid pid := (Js.to_string oid ++ "|" ++ Js.to_string pid)%string in
  let mac oid pid := hmac_sha256_hex X secret (message oid pid) in
  let expected := mac (VerifyReq.orderId r) (VerifyReq.paymentId r) in
  let out := verify_payment X env r w in
  let failed := Json 500 (BError "Internal server error") in
  (VerifyReq.signature r <> Js.Str expected ->
   fst out = Json 400 (BError "Invalid signature") /\ snd out = w)
  /\ (forall sig, VerifyReq.signature r = Js.Str sig -> mutated expected sig ->
      fst out = Json 400 (BError "Invalid signature") /\ snd out = w)
  /\ (VerifyReq.signature r = Js.Str expected ->
      (forall code, next_outcome w = Fails code ->
         fst out = failed /\ db (snd out) = db w)
      /\ (forall oid,
            next_outcome w = Succeeds ->
            pg_param (VerifyReq.orderId r) = Some oid ->
            int4in X oid = None ->
            fst out = failed /\ db (snd out) = db w)
      /\ (forall oid k,
            next_outcome w = Succeeds ->
            pg_param (VerifyReq.orderId r) = Some oid ->
            int4in X oid = Some k ->
            fst out = Json 200 BSuccess
            /\ completion k (pg_param (VerifyReq.paymentId r))
                 (orders (db w)) (orders (db (snd out))))
      /\ (next_outcome w = Succeeds ->
          pg_param (VerifyReq.orderId r) = None ->
          fst out = Json 200 BSuccess /\ db (snd out) = db w))
  /\ (fst out = Json 200 BSuccess <->
      VerifyReq.signature r = Js.Str expected
      /\ next_outcome w = Succeeds
      /\ (forall oid,
            pg_param (VerifyReq.orderId r) = Some oid -> int4in X oid <> None))
  /\ (forall o o', VerifyReq.orderId r = Js.Str o' -> mutated o o' ->
      VerifyReq.signature r = Js.Str (mac (Js.Str o) (VerifyReq.paymentId r)) ->
      fst out = Json 200 BSuccess ->
      message (Js.Str o) (VerifyReq.paymentId r)
        <> message (Js.Str o') (VerifyReq.paymentId r)
      /\ mac (Js.Str o) (VerifyReq.paymentId r)
         = mac (Js.Str o') (VerifyReq.paymentId r))
  /\ (forall p p', VerifyReq.paymentId r = Js.Str p' -> mutated p p' ->
      VerifyReq.signature r = Js.Str (mac (VerifyReq.orderId r) (Js.Str p)) ->
      fst out = Json 200 BSuccess ->
      message (VerifyReq.orderId r) (Js.Str p)
        <> message (VerifyReq.orderId r) (Js.Str p')
      /\ mac (VerifyReq.orderId r) (Js.Str p)
         = mac (VerifyReq.orderId r) (Js.Str p')).
Proof.
  intros Hpool Hsec message mac expected out failed.
  assert (Hfails : VerifyReq.signature r = Js.Str expected ->
            forall code, next_outcome w = Fails code ->
            fst out = failed /\ db (snd out) = db w).
  { intros Hsig code Hs. subst out.
    rewrite (verify_payment_signed env secret r w Hpool Hsec Hsig).
    unfold run_stmt. rewrite Hs. split; reflexivity. }
  assert (Hbad : VerifyReq.signature r = Js.Str expected ->
            forall oid, next_outcome w = Succeeds ->
            pg_param (VerifyReq.orderId r) = Some oid ->
            int4in X oid = None ->
            fst out = failed /\ db (snd out) = db w).
  { intros Hsig oid Hs Hoid Hk. subst out.
    rewrite (verify_payment_signed env secret r w Hpool Hsec Hsig).
    unfold run_stmt, update_order_status.
    rewrite Hs, (key_of_text _ oid Hoid), Hk. split; reflexivity. }
  assert (Hint : VerifyReq.signature r = Js.Str expected ->
            forall oid k, next_outcome w = Succeeds ->
            pg_param (VerifyReq.orderId r) = Some oid ->
            int4in X oid = Some k ->
            fst out = Json 200 BSuccess
            /\ completion k (pg_param (VerifyReq.paymentId r))
                 (orders (db w)) (orders (db (snd out)))).
  { intros Hsig oid k Hs Hoid Hk. subst out.
    rewrite (verify_payment_match env secret r w k); auto.
    - split; [reflexivity|]. apply completion_of_update.
    - now rewrite (key_of_text _ oid Hoid), Hk. }
  assert (Hnull : VerifyReq.signature r = Js.Str expected ->
            next_outcome w = Succeeds ->
            pg_param (VerifyReq.orderId r) = None ->
            fst out = Json 200 BSuccess /\ db (snd out) = db w).
  { intros Hsig Hs Hoid. subst out.
    rewrite (verify_payment_signed env secret r w Hpool Hsec Hsig).
    unfold run_stmt, update_order_status.
    rewrite Hs, (key_of_null _ Hoid). split; reflexivity. }
  assert (Honly : fst out = Json 200 BSuccess ->
            VerifyReq.signature r = Js.Str expected).
  { apply verify_payment_success_only_if; assumption. }
  assert (Hmis : VerifyReq.signature r <> Js.Str expected ->
            fst out = Json 400 (BError "Invalid signature") /\ snd out = w).
  { intros Hne. subst out.
    now rewrite (verify_payment_mismatch env secret r w Hpool Hsec Hne). }
  split; [assumption|].
  split.
  { intros sig Hsig Hmut. apply Hmis. rewrite Hsig. intros E. inversion E.
    eapply mutated_neq; eauto. }
  split.
  { intros Hsig.
    split; [exact (Hfails Hsig)|]. split; [exact (Hbad Hsig)|].
    split; [exact (Hint Hsig) | exact (Hnull Hsig)]. }
  split.
  { split.
    - intros Hok. pose proof (Honly Hok) as Hsig.
      split; [exact Hsig|].
      destruct (next_outcome w) as [|code] eqn:Hs.
      + split; [reflexivity|]. intros oid Hoid Hk.
        destruct (Hbad Hsig oid eq_refl Hoid Hk) as [E _].
        rewrite E in Hok. discriminate.
      + destruct (Hfails Hsig code eq_refl) as [E _].
        rewrite E in Hok. discriminate.
    - intros [Hsig [Hs Hkey]].
      destruct (pg_param (VerifyReq.orderId r)) as [oid|] eqn:Hoid.
      + destruct (int4in X oid) as [k|] eqn:Hk.
        * now destruct (Hint Hsig oid k Hs eq_refl Hk).
        * now destruct (Hkey oid eq_refl).
      + now destruct (Hnull Hsig Hs eq_refl). }
  split.
  - intros o o' Ho Hmut Hsig Hok. split.
    + unfold message. simpl. now apply mutated_prefix.
    + apply Honly in Hok. rewrite Hsig in Hok. injection Hok as E.
      unfold expected in E. rewrite Ho in E. exact E.
  - intros p p' Hp Hmut Hsig Hok. split.
    + unfold message. simpl. apply mutated_suffix.
      now apply mutated_later.
    + apply Honly in Hok. rewrite Hsig in Hok. injection Hok as E.
      unfold expected in E. rewrite Hp in E. exact E.
Qed.

(** C9. Without [RAZORPAY_KEY_SECRET] the HMAC cannot be built: whatever
    the request, the handler answers 500 once the request reaches it,
    never 400 "Invalid signature" and never success, and the store is left
    exactly as it was. *)
Theorem verify_payment_without_secret (env : Env) (r : VerifyReq.t)
    (w : World) :
  RAZORPAY_KEY_SECRET env = None ->
  let out := verify_payment X env r w in
  verify_payment_try X env r w = (Throw TypeError, w)
  /\ (pool env = true -> fst out = Json 500 (BError "Internal server error"))
  /\ fst out <> Json 400 (BError "Invalid signature")
  /\ fst out <> Json 200 BSuccess
  /\ snd out = w.
Proof.
  intros Hsec out. subst out.
  unfold verify_payment, checkDbConnection, respond, verify_payment_try,
    createHmac_sha256_hex, bind, throw.
  rewrite Hsec.
  destruct (pool env); simpl; repeat split; try reflexivity;
    try discriminate; intros; discriminate.
Qed.

(** ** Redirect callback *)

Lemma paid_status (q : SuccessQuery.t) :
  Js.str_eq "paid" (Js.of_option (SuccessQuery.razorpay_payment_link_status q))
    = true
  <-> SuccessQuery.razorpay_payment_link_status q = Some "paid".
Proof.
  rewrite str_eq_true.
  destruct (SuccessQuery.razorpay_payment_link_status q); simpl;
    split; intros E; inversion E; reflexivity.
Qed.

Lemma payment_success_paid (env : Env) (q : SuccessQuery.t) (w : World) (k : Z) :
  pool env = true ->
  next_outcome w = Succeeds ->
  SuccessQuery.razorpay_payment_link_status q = Some "paid" ->
  Js.truthy (Js.of_option (SuccessQuery.order_id q)) = true ->
  key_of X (Js.of_option (SuccessQuery.order_id q)) = KeyInt k ->
  payment_success X env q w =
    (redirect_to env "success" (Js.of_option (SuccessQuery.order_id q)),
     set_db
       (set_orders
          (map (where_id Order.id k
                  (with_status "completed" (pg_param (provider_payment_id q))))
             (orders (db w))) (db w)) (pop w)).
Proof.
  intros Hpool Hnext Hpaid Hoid Hkey.
  unfold payment_success, respond, payment_success_try.
  apply paid_status in Hpaid. rewrite Hpaid, Hoid. simpl.
  unfold bind, pool_query, run_stmt, ret. rewrite Hpool, Hnext.
  now rewrite (update_order_status_int _ _ _ k _ Hkey).
Qed.

Lemma payment_success_try_throws (env : Env) (q : SuccessQuery.t)
    (w w' : World) (e : Exn) :
  payment_success_try X env q w = (Throw e, w') -> db w' = db w.
Proof.
  unfold payment_success_try.
  destruct (_ && _).
  - unfold bind.
    destruct (pool_query _ _ w) as [[u|e'] w1] eqn:Eq; [discriminate|].
    intros E; inversion E; subst.
    eapply pool_query_throws; [|exact Eq].
    apply update_order_status_throws.
  - discriminate.
Qed.

(** C4. [GET /api/payment-success] always redirects to
    [<frontendUrl>/?payment=<flag>&order=<order_id>].  With link status
    [paid] and a non-empty [order_id] the [UPDATE] is sent: when the
    identifier is a text that the database reads as an integer and the
    statement goes through, the flag is [success] and the order is
    completed with [razorpay_payment_id] or, when that is missing or
    empty, with [razorpay_payment_link_id]; when the identifier is no
    integer, the server fails the statement or there is no pool, the
    flag is [error] and no row has changed.  Any other link status, and a
    missing or empty [order_id], give [failed] and change nothing.
    Whenever the [try] block throws, the flag is [error] and no row has
    changed. *)
Theorem payment_success_redirect (env : Env) (q : SuccessQuery.t) (w : World) :
  let order_id :=
    match SuccessQuery.order_id q with
    | Some id => id
    | None => "undefined"
    end in
  let target flag :=
    Redirect 302
      (frontendUrl env ++ "/?payment=" ++ flag ++ "&order=" ++ order_id)%string in
  let out := payment_success X env q w in
  (forall id,
     SuccessQuery.razorpay_payment_link_status q = Some "paid" ->
     SuccessQuery.order_id q = Some id ->
     id <> "" ->
     (forall k,
        pool env = true -> next_outcome w = Succeeds ->
        int4in X id = Some k ->
        fst out = target "success"
        /\ (forall p,
              SuccessQuery.razorpay_payment_id q = Some p -> p <> "" ->
              completion k (Some p) (orders (db w)) (orders (db (snd out))))
        /\ (SuccessQuery.razorpay_payment_id q = None
            \/ SuccessQuery.razorpay_payment_id q = Some "" ->
            completion k (SuccessQuery.razorpay_payment_link_id q)
              (orders (db w)) (orders (db (snd out)))))
     /\ (pool env = true -> next_outcome w = Succeeds ->
         int4in X id = None ->
         fst out = target "error" /\ db (snd out) = db w)
     /\ (pool env = false \/ (exists code, next_outcome w = Fails code) ->
         fst out = target "error" /\ db (snd out) = db w)
     /\ (fst out = target "success" \/ fst out = target "error"))
  /\ (SuccessQuery.razorpay_payment_link_status q <> Some "paid" ->
      fst out = target "failed" /\ snd out = w)
  /\ (SuccessQuery.order_id q = None \/ SuccessQuery.order_id q = Some "" ->
      fst out = target "failed" /\ snd out = w)
  /\ (forall e w', payment_success_try X env q w = (Throw e, w') ->
      fst out = target "error" /\ snd out = w' /\ db w' = db w)
  /\ (exists flag,
        fst out = target flag /\ In flag ["success"; "failed"; "error"]).
Proof.
  intros order_id target out.
  assert (Htarget : forall flag,
            redirect_to env flag (Js.of_option (SuccessQuery.order_id q))
            = target flag).
  { intros flag. unfold redirect_to, target, order_id.
    now destruct (SuccessQuery.order_id q). }
  assert (Hnot : Js.str_eq "paid"
                   (Js.of_option (SuccessQuery.razorpay_payment_link_status q))
                 && Js.truthy (Js.of_option (SuccessQuery.order_id q)) = false ->
                 out = (target "failed", w)).
  { intros E. subst out. unfold payment_success, respond, payment_success_try.
    rewrite E. cbn [ret]. now rewrite Htarget. }
  assert (Hthrow : forall e w',
            payment_success_try X env q w = (Throw e, w') ->
            fst out = target "error" /\ snd out = w' /\ db w' = db w).
  { intros e w' E. subst out. unfold payment_success, respond. rewrite E.
    rewrite Htarget. repeat split.
    eapply payment_success_try_throws; eassumption. }
  assert (Hflag : exists flag,
            fst out = target flag /\ In flag ["success"; "failed"; "error"]).
  { subst out. unfold payment_success, respond, payment_success_try.
    destruct (_ && _).
    - unfold bind. destruct (pool_query _ _ w) as [[u|e'] w1].
      + exists "success"%string. cbn [ret fst]. rewrite Htarget.
        split; [reflexivity | now left].
      + exists "error"%string. cbn [fst]. rewrite Htarget.
        split; [reflexivity | right; right; now left].
    - exists "failed"%string. cbn [ret fst]. rewrite Htarget.
      split; [reflexivity | right; now left]. }
  split; [|split; [|split; [|split]]]; try assumption.
  - intros id Hpaid Hid Hne.
    assert (Htruthy : Js.truthy (Js.of_option (SuccessQuery.order_id q)) = true).
    { rewrite Hid. cbn [Js.of_option Js.truthy].
      apply String.eqb_neq in Hne. now rewrite Hne. }
    assert (Hrun : out =
              match
                pool_query (pool env)
                  (update_order_status X "completed" (provider_payment_id q)
                     (Js.Str id)) w
              with
              | (Ok _, w') => (target "success", w')
              | (Throw _, w') => (target "error", w')
              end).
    { subst out. unfold payment_success, respond, payment_success_try.
      apply paid_status in Hpaid. rewrite Hpaid, Htruthy. cbn [andb].
      unfold bind, ret. rewrite !Htarget, Hid. cbn [Js.of_option].
      now destruct (pool_query _ _ w) as [[u|e] w']. }
    split; [|split; [|split]].
    + intros k Hpool Hnext Hk.
      assert (C : forall pid,
                pid =
                  match SuccessQuery.razorpay_payment_id q with
                  | Some p =>
                      if String.eqb p ""
                      then SuccessQuery.razorpay_payment_link_id q
                      else Some p
                  | None => SuccessQuery.razorpay_payment_link_id q
                  end ->
                fst out = target "success"
                /\ completion k pid (orders (db w)) (orders (db (snd out)))).
      { intros pid Hpid.
        assert (Hc : confirms X env (RedirectCallback q) k pid).
        { split; [exact Hpaid|]. exists id. repeat split; assumption. }
        apply confirms_redirect in Hc. destruct Hc as [_ [_ [Hkey Hp]]].
        subst out.
        rewrite (payment_success_paid env q w k); auto.
        rewrite Htarget. split; [reflexivity|].
        rewrite Hp. apply completion_of_update. }
      split; [|split].
      * destruct (C _ eq_refl) as [E _]. exact E.
      * intros p Hp Hpne. apply (C (Some p)). rewrite Hp.
        apply String.eqb_neq in Hpne. now rewrite Hpne.
      * intros [Hp|Hp]; apply C; now rewrite Hp.
    + intros Hpool Hnext Hk. rewrite Hrun.
      unfold pool_query, run_stmt, update_order_status.
      rewrite Hpool, Hnext, (key_of_text (Js.Str id) id eq_refl), Hk.
      split; reflexivity.
    + intros [Hpool|[code Hnext]]; rewrite Hrun; unfold pool_query, run_stmt.
      * rewrite Hpool. split; reflexivity.
      * destruct (pool env); [rewrite Hnext|]; split; reflexivity.
    + rewrite Hrun. destruct (pool_query _ _ w) as [[u|e] w']; auto.
  - intros Hne. rewrite Hnot; [auto|].
    apply andb_false_iff. left.
    destruct (Js.str_eq _ _) eqn:E; [|reflexivity].
    apply paid_status in E. contradiction.
  - intros Hno. rewrite Hnot; [auto|].
    apply andb_false_iff. right. destruct Hno as [-> | ->]; reflexivity.
Qed.

(** ** Webhook *)

Lemma webhook_body_throws (env : Env) (b : Webhook.Body) (w w' : World)
    (e : Exn) :
  webhook_body X env b w = (Throw e, w') -> db w' = db w.
Proof.
  unfold webhook_body, property_of, bind, throw, ret.
  destruct (Js.str_eq _ _); [|discriminate].
  destruct (Webhook.payload b) as [payload|]; [|intros E; now inversion E].
  destruct (Webhook.payment_link payload) as [link|];
    [|intros E; now inversion E].
  destruct (Js.truthy _); [|discriminate].
  destruct (Webhook.payment payload) as [payment|];
    [|intros E; now inversion E].
  intros E. eapply pool_query_throws; [|exact E].
  apply update_order_status_throws.
Qed.

Lemma webhook_paid (env : Env) (b : Webhook.Body) (w : World)
    (payload : Webhook.Payload) (link : Webhook.PaymentLink)
    (payment : Webhook.Payment) (k : Z) :
  pool env = true ->
  next_outcome w = Succeeds ->
  Webhook.event b = Js.Str "payment_link.paid" ->
  Webhook.payload b = Some payload ->
  Webhook.payment_link payload = Some link ->
  Webhook.payment payload = Some payment ->
  Js.truthy (notes_order_id link) = true ->
  key_of X (notes_order_id link) = KeyInt k ->
  razorpay_webhook X env b w =
    (Json 200 BStatusOk,
     set_db
       (set_orders
          (map (where_id Order.id k
                  (with_status "completed" (pg_param (Webhook.id payment))))
             (orders (db w))) (db w)) (pop w)).
Proof.
  intros Hpool Hnext Hev Hpl Hlink Hpay Hoid Hkey.
  unfold razorpay_webhook, respond, webhook_body, property_of, bind, ret.
  rewrite Hev, Hpl. simpl. rewrite Hlink, Hoid, Hpay.
  unfold pool_query, run_stmt. rewrite Hpool, Hnext.
  now rewrite (update_order_status_int _ _ _ k _ Hkey).
Qed.

(** C5. [POST /api/razorpay-webhook] acts on [payment_link.paid] only.
    On that event, an order identifier in the notes of the payment link
    makes the matching order [completed] with the identifier of the
    payment.  Whenever the processing does not throw the answer is 200
    [{status: 'ok'}], whether or not a row matched; when it throws the
    answer is 500 and no row has changed. *)
Theorem razorpay_webhook_behaviour (env : Env) (b : Webhook.Body) (w : World) :
  let out := razorpay_webhook X env b w in
  (Webhook.event b <> Js.Str "payment_link.paid" ->
   fst out = Json 200 BStatusOk /\ snd out = w)
  /\ (forall payload link payment k,
        Webhook.event b = Js.Str "payment_link.paid" ->
        Webhook.payload b = Some payload ->
        Webhook.payment_link payload = Some link ->
        Webhook.payment payload = Some payment ->
        Js.truthy (notes_order_id link) = true ->
        key_of X (notes_order_id link) = KeyInt k ->
        pool env = true -> next_outcome w = Succeeds ->
        fst out = Json 200 BStatusOk
        /\ completion k (pg_param (Webhook.id payment))
             (orders (db w)) (orders (db (snd out))))
  /\ (forall payload link,
        Webhook.payload b = Some payload ->
        Webhook.payment_link payload = Some link ->
        Js.truthy (notes_order_id link) = false ->
        fst out = Json 200 BStatusOk /\ snd out = w)
  /\ (forall w', webhook_body X env b w = (Ok tt, w') ->
        fst out = Json 200 BStatusOk /\ snd out = w')
  /\ (forall e w', webhook_body X env b w = (Throw e, w') ->
        fst out = Json 500 (BError "Webhook processing failed")
        /\ snd out = w' /\ db w' = db w)
  /\ (fst out = Json 200 BStatusOk
      \/ fst out = Json 500 (BError "Webhook processing failed")).
Proof.
  intros out. subst out.
  split; [|split; [|split; [|split; [|split]]]].
  - intros Hne. apply str_eq_false in Hne.
    unfold razorpay_webhook, respond, webhook_body, bind, ret.
    now rewrite Hne.
  - intros payload link payment k Hev Hpl Hlink Hpay Hoid Hkey Hpool Hnext.
    rewrite (webhook_paid env b w payload link payment k); auto.
    split; [reflexivity | apply completion_of_update].
  - intros payload link Hpl Hlink Hoid.
    unfold razorpay_webhook, respond, webhook_body, property_of, bind, ret.
    destruct (Js.str_eq _ _); [|auto].
    rewrite Hpl. simpl. rewrite Hlink, Hoid. auto.
  - intros w' E. unfold razorpay_webhook, respond, bind. rewrite E. auto.
  - intros e w' E. unfold razorpay_webhook, respond, bind. rewrite E.
    repeat split. eapply webhook_body_throws; eassumption.
  - unfold razorpay_webhook, respond, bind.
    destruct (webhook_body X env b w) as [[[]|e] w']; auto.
Qed.

(** ** The three channels side by side *)

Lemma fire_confirmed (env : Env) (c : Channel) (k : Z) (pid : option string)
    (w : World) :
  pool env = true ->
  next_outcome w = Succeeds ->
  confirms X env c k pid ->
  let out := fire X env c w in
  reports_completion env c (fst out)
  /\ completion k pid (orders (db w)) (orders (db (snd out)))
  /\ script (snd out) = tl (script w).
Proof.
  intros Hpool Hnext Hc. destruct c as [r|q|b].
  - apply confirms_manual in Hc.
    destruct Hc as [secret [Hsec [Hsig [Hkey Hpid]]]]. cbn [fire].
    rewrite (verify_payment_match env secret r w k); auto.
    simpl. subst pid. repeat split. apply completion_of_update.
  - apply confirms_redirect in Hc.
    destruct Hc as [Hpaid [Hoid [Hkey Hpid]]]. cbn [fire].
    rewrite (payment_success_paid env q w k); auto.
    simpl. subst pid. repeat split. apply completion_of_update.
  - apply confirms_webhook in Hc.
    destruct Hc as [Hev [payload [link [payment
      [Hpl [Hlink [Hpay [Hoid [Hkey Hpid]]]]]]]]]. cbn [fire].
    rewrite (webhook_paid env b w payload link payment k); auto.
    simpl. subst pid. repeat split. apply completion_of_update.
Qed.

Lemma update_order_status_ids (st : string) (pid key : Js.prim) (d : Db) :
  map Order.id (orders (snd (update_order_status X st pid key d)))
  = map Order.id (orders d).
Proof.
  unfold update_order_status. destruct (key_of X key); try reflexivity.
  simpl. rewrite map_map. apply map_ext. intros o. unfold where_id.
  now destruct (Order.id o =? k).
Qed.

Lemma pool_query_update_ids (has_pool : bool) (st : string) (pid key : Js.prim)
    (w : World) :
  map Order.id
    (orders (db (snd (pool_query has_pool (update_order_status X st pid key) w))))
  = map Order.id (orders (db w)).
Proof.
  unfold pool_query, run_stmt. destruct has_pool; [|reflexivity].
  destruct (next_outcome w); [|reflexivity].
  pose proof (update_order_status_ids st pid key (db w)) as E.
  destruct (update_order_status X st pid key (db w)) as [res d']. exact E.
Qed.

(** No channel adds or removes an order, whatever it answers: the
    identifiers in [orders] stay as they are. *)
Lemma fire_keeps_orders (env : Env) (c : Channel) (w : World) :
  map Order.id (orders (db (snd (fire X env c w)))) = map Order.id (orders (db w)).
Proof.
  destruct c as [r|q|b]; simpl.
  - unfold verify_payment, checkDbConnection, respond, verify_payment_try,
      createHmac_sha256_hex, bind, throw, ret.
    destruct (pool env) eqn:Hp; [|reflexivity].
    destruct (RAZORPAY_KEY_SECRET env); [|reflexivity].
    destruct (Js.str_eq _ _); [|reflexivity].
    pose proof (pool_query_update_ids true "completed" (VerifyReq.paymentId r)
                  (VerifyReq.orderId r) w) as E.
    destruct (pool_query _ _ w) as [[u|e] w']; exact E.
  - unfold payment_success, respond, payment_success_try, bind, ret.
    destruct (_ && _); [|reflexivity].
    pose proof (pool_query_update_ids (pool env) "completed"
                  (provider_payment_id q)
                  (Js.of_option (SuccessQuery.order_id q)) w) as E.
    destruct (pool_query _ _ w) as [[u|e] w']; exact E.
  - unfold razorpay_webhook, respond, webhook_body, property_of, bind, throw,
      ret.
    destruct (Js.str_eq _ _); [|reflexivity].
    destruct (Webhook.payload b) as [payload|]; [|reflexivity].
    destruct (Webhook.payment_link payload) as [link|]; [|reflexivity].
    destruct (Js.truthy _); [|reflexivity].
    destruct (Webhook.payment payload) as [payment|]; [|reflexivity].
    pose proof (pool_query_update_ids (pool env) "completed"
                  (Webhook.id payment) (notes_order_id link) w) as E.
    destruct (pool_query _ _ w) as [[u|e] w']; exact E.
Qed.

(** C3. Each of the three channels completes its order whatever the
    status of the row: a request that carries a confirmation of order
    [k] (a matching signature, a link status [paid], a
    [payment_link.paid] event) leaves the row of [k] [completed] with the
    payment identifier of that request and every other row as it was.
    When two channels fire for the same order one after the other, both
    report success and the row carries the identifier written last. *)
Theorem completion_channels_overwrite (env : Env) (c1 c2 : Channel) (k : Z)
    (p1 p2 : option string) (w : World) :
  pool env = true ->
  script w = [] ->
  confirms X env c1 k p1 ->
  confirms X env c2 k p2 ->
  let out1 := fire X env c1 w in
  let out2 := fire X env c2 (snd out1) in
  reports_completion env c1 (fst out1)
  /\ reports_completion env c2 (fst out2)
  /\ completion k p1 (orders (db w)) (orders (db (snd out1)))
  /\ completion k p2 (orders (db w)) (orders (db (snd out2)))
  /\ forall n o,
       nth_error (orders (db w)) n = Some o -> Order.id o = k ->
       (exists o1,
          nth_error (orders (db (snd out1))) n = Some o1
          /\ same_purchase o o1
          /\ Order.status o1 = "completed" /\ Order.payment_id o1 = p1)
       /\ (exists o2,
             nth_error (orders (db (snd out2))) n = Some o2
             /\ same_purchase o o2
             /\ Order.status o2 = "completed" /\ Order.payment_id o2 = p2).
Proof.
  intros Hpool Hs Hc1 Hc2 out1 out2.
  assert (Hn1 : next_outcome w = Succeeds)
    by (unfold next_outcome; now rewrite Hs).
  destruct (fire_confirmed env c1 k p1 w Hpool Hn1 Hc1) as [R1 [C1 S1]].
  fold out1 in R1, C1, S1.
  assert (Hn2 : next_outcome (snd out1) = Succeeds).
  { unfold next_outcome. rewrite S1, Hs. reflexivity. }
  destruct (fire_confirmed env c2 k p2 (snd out1) Hpool Hn2 Hc2)
    as [R2 [C2 _]].
  fold out2 in R2, C2.
  assert (C12 : completion k p2 (orders (db w)) (orders (db (snd out2))))
    by (eapply completion_twice; eassumption).
  split; [exact R1|]. split; [exact R2|].
  split; [exact C1|]. split; [exact C12|].
  intros n o Hn Hk. split; eapply completion_row; eassumption.
Qed.

End Properties.

(** ** Catalog queries *)

Local Open Scope list_scope.

Section CatalogFacts.

Context {R : Type} `{CatalogLaws R}.

Lemma display_le_before (a b : R) : display_le a b = true <-> display_before a b.
Proof.
  unfold display_le, display_before.
  destruct (row_display_order a) as [x|], (row_display_order b) as [y|].
  - rewrite orb_true_iff, andb_true_iff, Z.ltb_lt, Z.eqb_eq, Z.leb_le. tauto.
  - tauto.
  - split; [discriminate | contradiction].
  - apply Z.leb_le.
Qed.

Lemma display_le_flip (a b : R) : display_le a b = false -> display_before b a.
Proof.
  unfold display_le, display_before.
  destruct (row_display_order a) as [x|], (row_display_order b) as [y|].
  - rewrite orb_false_iff, andb_false_iff, Z.ltb_ge, Z.eqb_neq, Z.leb_gt. lia.
  - discriminate.
  - trivial.
  - rewrite Z.leb_gt. lia.
Qed.

Lemma display_before_trans (a b c : R) :
  display_before a b -> display_before b c -> display_before a c.
Proof.
  unfold display_before.
  destruct (row_display_order a), (row_display_order b),
    (row_display_order c); try tauto; lia.
Qed.

Lemma insert_row_perm (a : R) (l : list R) : Permutation (insert_row a l) (a :: l).
Proof.
  induction l as [|b l IH]; simpl; [reflexivity|].
  destruct (display_le a b); [reflexivity|].
  rewrite IH. apply perm_swap.
Qed.

Lemma order_by_display_perm (l : list R) : Permutation (order_by_display l) l.
Proof.
  induction l as [|a l IH]; simpl; [reflexivity|].
  rewrite insert_row_perm. now constructor.
Qed.

Lemma insert_row_sorted (a : R) (l : list R) :
  StronglySorted display_before l -> StronglySorted display_before (insert_row a l).
Proof.
  induction 1 as [|b l Hs IH Hall]; simpl.
  - repeat constructor.
  - destruct (display_le a b) eqn:E.
    + apply display_le_before in E.
      constructor; [now constructor|].
      constructor; [assumption|].
      eapply Forall_impl; [|exact Hall].
      intros c Hc. eapply display_before_trans; eassumption.
    + apply display_le_flip in E.
      constructor; [assumption|].
      rewrite (Forall_forall (display_before b)). intros c Hc.
      apply (Permutation_in _ (insert_row_perm a l)) in Hc.
      destruct Hc as [<-|Hc]; [assumption|].
      rewrite Forall_forall in Hall. now apply Hall.
Qed.

Lemma order_by_display_sorted (l : list R) :
  StronglySorted display_before (order_by_display l).
Proof.
  induction l as [|a l IH]; simpl; [constructor | now apply insert_row_sorted].
Qed.

(** The query of the list endpoints answers a listing of the table. *)
Lemma select_active_listing (table : list R) : listing table (select_active table).
Proof.
  unfold listing, select_active. split; [apply order_by_display_perm|].
  split; [apply order_by_display_sorted|].
  intros r. rewrite <- filter_In. split; intros Hr.
  - eapply Permutation_in; [apply order_by_display_perm | exact Hr].
  - eapply Permutation_in; [symmetry; apply order_by_display_perm | exact Hr].
Qed.

Lemma insert_row_last (a x : R) (l : list R) :
  display_le a x = true -> insert_row a (l ++ [x]) = insert_row a l ++ [x].
Proof.
  intros Hax. induction l as [|b l IH]; simpl.
  - now rewrite Hax.
  - destruct (display_le a b); [reflexivity | now rewrite IH].
Qed.

(** A row that sorts after all the others is listed last. *)
Lemma order_by_display_last (x : R) (l : list R) :
  (forall r, In r l -> display_le r x = true) ->
  order_by_display (l ++ [x]) = order_by_display l ++ [x].
Proof.
  induction l as [|a l IH]; intros Hx; simpl; [reflexivity|].
  rewrite IH by (intros r Hr; apply Hx; now right).
  apply insert_row_last. apply Hx. now left.
Qed.

Lemma max_display_order_bound (l : list R) (r : R) (m : Z) :
  In r l -> row_display_order r = Some m ->
  exists top, max_display_order l = Some top /\ m <= top.
Proof.
  induction l as [|a l IH]; simpl; [contradiction|].
  intros [<-|Hr] Hm.
  - rewrite Hm.
    destruct (max_display_order l); eexists; split; try reflexivity; lia.
  - destruct (IH Hr Hm) as [top [-> Htop]].
    destruct (row_display_order a); eexists; split; try reflexivity; lia.
Qed.

Lemma max_display_order_attained (l : list R) (m : Z) :
  max_display_order l = Some m ->
  exists r, In r l /\ row_display_order r = Some m.
Proof.
  revert m. induction l as [|a l IH]; simpl; [discriminate|].
  intros m.
  destruct (row_display_order a) as [x|] eqn:Ea.
  - destruct (max_display_order l) as [m'|] eqn:E; intros Em;
      inversion Em; subst.
    + destruct (Z.max_spec x m') as [[_ E']|[_ E']]; rewrite E'.
      * destruct (IH m' eq_refl) as [r [Hr Hm]]. exists r. auto.
      * exists a. auto.
    + exists a. auto.
  - intros Em. destruct (IH m Em) as [r [Hr Hm]]. exists r. auto.
Qed.

Lemma max_display_order_none (l : list R) :
  (forall r, In r l -> row_display_order r = None) ->
  max_display_order l = None.
Proof.
  induction l as [|a l IH]; intros Hnone; simpl; [reflexivity|].
  rewrite (Hnone a (or_introl eq_refl)).
  apply IH. intros r Hr. apply Hnone. now right.
Qed.

Lemma next_order_above (l : list R) (r : R) (m : Z) :
  In r l -> row_display_order r = Some m -> m < next_order l.
Proof.
  intros Hr Hm. unfold next_order.
  destruct (max_display_order_bound l r m Hr Hm) as [top [-> Htop]]. lia.
Qed.

(** [next_order] is the largest display order plus one, and 1 when no
    row has one. *)
Lemma next_order_is_max_plus_one (l : list R) :
  ((forall r, In r l -> row_display_order r = None) -> next_order l = 1)
  /\ ((exists r, In r l /\ row_display_order r <> None) ->
      exists top,
        In top l /\ row_display_order top = Some (next_order l - 1)).
Proof.
  split.
  - intros Hnone. unfold next_order.
    now rewrite (max_display_order_none l Hnone).
  - intros [r [Hr Hsome]].
    destruct (row_display_order r) as [m|] eqn:Em; [|contradiction].
    destruct (max_display_order_bound l r m Hr Em) as [top [Etop _]].
    destruct (max_display_order_attained _ _ Etop) as [t [Ht Hm]].
    exists t. unfold next_order. rewrite Etop.
    split; [exact Ht|]. rewrite Hm. f_equal. lia.
Qed.

Lemma insert_row_in (a r : R) (l : list R) :
  In r (insert_row a l) <-> r = a \/ In r l.
Proof.
  split; intros Hr.
  - apply (Permutation_in _ (insert_row_perm a l)) in Hr.
    destruct Hr as [<-|Hr]; auto.
  - apply (Permutation_in _ (Permutation_sym (insert_row_perm a l))).
    destruct Hr as [->|Hr]; [now left | now right].
Qed.

Lemma insert_row_before (a b : R) (l1 l2 : list R) :
  display_le a b = true ->
  insert_row a (l1 ++ b :: l2) = insert_row a l1 ++ b :: l2.
Proof.
  intros Hab. induction l1 as [|c l1 IH]; simpl.
  - now rewrite Hab.
  - destruct (display_le a c); [reflexivity | now rewrite IH].
Qed.

Lemma insert_row_after (a : R) (l1 l2 : list R) :
  (forall b, In b l1 -> display_le a b = false) ->
  insert_row a (l1 ++ l2) = l1 ++ insert_row a l2.
Proof.
  induction l1 as [|c l1 IH]; intros Hl; simpl; [reflexivity|].
  rewrite (Hl c (or_introl eq_refl)).
  now rewrite IH by (intros b Hb; apply Hl; now right).
Qed.

(** A new row whose display order is above all the others is listed
    after the rows that have a display order and before those that have
    none. *)
Lemma order_by_display_new (l : list R) (x : R) (n : Z) :
  row_display_order x = Some n ->
  (forall r m, In r l -> row_display_order r = Some m -> m < n) ->
  exists ordered nulls,
    order_by_display l = ordered ++ nulls
    /\ (forall r, In r ordered -> row_display_order r <> None)
    /\ (forall r, In r nulls -> row_display_order r = None)
    /\ order_by_display (l ++ [x]) = ordered ++ x :: nulls.
Proof.
  intros Hx. induction l as [|a l IH]; intros Hl.
  - exists [], []. repeat split; intros r [].
  - destruct IH as [ordered [nulls [E1 [Ho [Hn E2]]]]].
    { intros r m Hr. apply Hl. now right. }
    cbn [app order_by_display fold_right].
    change (fold_right insert_row [] (l ++ [x]))
      with (order_by_display (l ++ [x])).
    change (fold_right insert_row [] l) with (order_by_display l).
    rewrite E1, E2.
    destruct (row_display_order a) as [m|] eqn:Ea.
    + assert (Hax : display_le a x = true).
      { unfold display_le. rewrite Ea, Hx.
        pose proof (Hl a m (or_introl eq_refl) Ea) as Hlt.
        apply Z.ltb_lt in Hlt. now rewrite Hlt. }
      exists (insert_row a ordered), nulls.
      split.
      { destruct nulls as [|b nulls]; [now rewrite !app_nil_r|].
        apply insert_row_before. unfold display_le.
        now rewrite Ea, (Hn b (or_introl eq_refl)). }
      split.
      { intros r Hr. apply insert_row_in in Hr.
        destruct Hr as [->|Hr]; [now rewrite Ea | now apply Ho]. }
      split; [exact Hn|].
      now apply insert_row_before.
    + assert (Hord : forall b, In b ordered -> display_le a b = false).
      { intros b Hb. unfold display_le. rewrite Ea.
        pose proof (Ho b Hb) as Hsome.
        destruct (row_display_order b); [reflexivity | contradiction]. }
      exists ordered, (insert_row a nulls).
      split; [now apply insert_row_after|].
      split; [exact Ho|].
      split.
      { intros r Hr. apply insert_row_in in Hr.
        destruct Hr as [->|Hr]; [exact Ea | now apply Hn]. }
      rewrite (insert_row_after a ordered (x :: nulls) Hord).
      cbn [insert_row]. unfold display_le at 1. now rewrite Ea, Hx.
Qed.

Lemma soft_delete_ids (k : Z) (l : list R) :
  map row_id (soft_delete k l) = map row_id l.
Proof.
  unfold soft_delete. rewrite map_map. apply map_ext.
  intros r. unfold where_id. destruct (row_id r =? k); [apply deactivate_id|reflexivity].
Qed.

Lemma soft_delete_rows (k : Z) (l : list R) :
  Forall2 (fun r r' => r' = r \/ (row_id r = k /\ r' = deactivate r))
    l (soft_delete k l).
Proof.
  induction l as [|a l IH]; simpl; constructor; auto.
  unfold where_id. destruct (Z.eqb_spec (row_id a) k); auto.
Qed.

Lemma soft_delete_inactive (k : Z) (l : list R) (r : R) :
  In r (soft_delete k l) -> row_id r = k -> row_is_active r = false.
Proof.
  unfold soft_delete. rewrite in_map_iff. intros [a [<- _]].
  unfold where_id. destruct (Z.eqb_spec (row_id a) k).
  - intros _. apply deactivate_is_active.
  - intros E. contradiction.
Qed.

Lemma rows_kept_refl (l : list R) :
  Forall2 (fun r r' => r' = r \/ r' = deactivate r) l l.
Proof. induction l; constructor; auto. Qed.

Lemma rows_kept_soft_delete (k : Z) (l : list R) :
  Forall2 (fun r r' => r' = r \/ r' = deactivate r) l (soft_delete k l).
Proof.
  eapply Forall2_impl; [|apply soft_delete_rows]. simpl. intuition.
Qed.

(** No listing shows a row that a soft delete has switched off. *)
Lemma listing_after_soft_delete (k : Z) (table rows : list R) (r : R) :
  listing (soft_delete k table) rows -> In r rows -> row_id r <> k.
Proof.
  intros [_ [_ Hin]] Hr E. apply Hin in Hr. destruct Hr as [Hr Hact].
  rewrite (soft_delete_inactive k table r Hr E) in Hact. discriminate.
Qed.

End CatalogFacts.

Section CatalogEndpoints.

Variable X : Externals.

Lemma unused_key {R} (rid : R -> Z) (k : Z) (l : list R) :
  (forall r, In r l -> rid r < k) -> existsb (fun r => rid r =? k) l = false.
Proof.
  intros Hlt. destruct (existsb _ l) eqn:E; [|reflexivity].
  apply existsb_exists in E. destruct E as [r [Hin Heq]].
  apply Hlt in Hin. lia.
Qed.

Lemma admin_route_authorized (env : Env) (adminToken : option string)
    (body : M Response) (w : World) :
  authorized X env adminToken -> admin_pool env = true ->
  admin_route X env adminToken body w = respond body internal_server_error w.
Proof.
  intros [token [-> [Hne Hjwt]]] Hpool.
  unfold admin_route, verifyAdminToken, admin_checkDbConnection.
  apply String.eqb_neq in Hne. now rewrite Hne, Hjwt, Hpool.
Qed.

(** Either the route stops at one of its two checks, or the body runs. *)
Lemma admin_route_cases (env : Env) (adminToken : option string)
    (body : M Response) (w : World) :
  (exists c msg, admin_route X env adminToken body w = (Json c (BError msg), w))
  \/ (admin_pool env = true
      /\ admin_route X env adminToken body w
         = respond body internal_server_error w).
Proof.
  unfold admin_route, verifyAdminToken, admin_checkDbConnection.
  destruct adminToken as [token|]; [|left; eauto].
  destruct (String.eqb token ""); [left; eauto|].
  destruct (jwt_verify X (JWT_SECRET env) token); [|left; eauto].
  destruct (admin_pool env); [right; auto | left; eauto].
Qed.

Lemma placed_next_order {R} `{CatalogLaws R} (before : list R) (row : R) :
  row_is_active row = true ->
  row_display_order row = Some (next_order before) ->
  placed before row.
Proof.
  intros Hact Hord. unfold placed.
  destruct (next_order_is_max_plus_one before) as [Hnone Hmax].
  assert (Hlt : forall r m,
            In r before -> row_display_order r = Some m ->
            m < next_order before).
  { intros r m. apply next_order_above. }
  split; [assumption|]. split.
  { exists (next_order before). repeat split; assumption. }
  unfold select_active. rewrite filter_app. cbn [filter]. rewrite Hact.
  apply (order_by_display_new _ row (next_order before) Hord).
  intros r m Hr. apply filter_In in Hr. destruct Hr as [Hr _].
  now apply Hlt.
Qed.

(** Without a NULL among the active rows the new row is the last one. *)
Lemma placed_last {R} `{CatalogLaws R} (before : list R) (row : R) :
  placed before row ->
  (forall r, In r before -> row_is_active r = true ->
     row_display_order r <> None) ->
  select_active (before ++ [row]) = select_active before ++ [row].
Proof.
  intros [_ [_ [ordered [nulls [E1 [_ [Hn E2]]]]]]] Hsome.
  destruct nulls as [|b nulls]; [now rewrite E1, E2, app_nil_r|].
  exfalso.
  assert (Hb : In b (select_active before)).
  { rewrite E1. apply in_or_app. right. now left. }
  destruct (select_active_listing before) as [_ [_ Hin]].
  apply Hin in Hb. destruct Hb as [Hb Hact].
  apply (Hsome b Hb Hact). apply Hn. now left.
Qed.

(** *** Deleting *)

Lemma delete_package_outcome (env : Env) (adminToken : option string)
    (id : string) (w : World) :
  let out := admin_delete_package X env adminToken id w in
  event_packages (db (snd out)) = event_packages (db w)
  \/ exists k, event_packages (db (snd out)) = soft_delete k (event_packages (db w)).
Proof.
  unfold admin_delete_package.
  destruct (admin_route_cases env adminToken
              (pool_query (admin_pool env) (soft_delete_package X id) ;;
               ret (Json 200 BSuccess)) w) as [[c [m E]]|[Hp E]];
    simpl; rewrite E; [now left|].
  unfold respond, bind, pool_query, run_stmt, soft_delete_package, ret.
  rewrite Hp. destruct (next_outcome w); [|now left].
  destruct (key_of X (Js.Str id)); simpl; eauto.
Qed.

Lemma delete_speaker_outcome (env : Env) (adminToken : option string)
    (id : string) (w : World) :
  let out := admin_delete_speaker X env adminToken id w in
  speakers (db (snd out)) = speakers (db w)
  \/ exists k, speakers (db (snd out)) = soft_delete k (speakers (db w)).
Proof.
  unfold admin_delete_speaker.
  destruct (admin_route_cases env adminToken
              (pool_query (admin_pool env) (soft_delete_speaker X id) ;;
               ret (Json 200 BSuccess)) w) as [[c [m E]]|[Hp E]];
    simpl; rewrite E; [now left|].
  unfold respond, bind, pool_query, run_stmt, soft_delete_speaker, ret.
  rewrite Hp. destruct (next_outcome w); [|now left].
  destruct (key_of X (Js.Str id)); simpl; eauto.
Qed.

Lemma keeps_rows_outcome {R} `{CatalogLaws R} (before after : list R) :
  after = before \/ (exists k, after = soft_delete k before) ->
  keeps_rows before after.
Proof.
  intros [->|[k ->]]; split.
  - reflexivity.
  - apply rows_kept_refl.
  - apply soft_delete_ids.
  - apply rows_kept_soft_delete.
Qed.

Lemma delete_package_done (env : Env) (adminToken : option string)
    (id : string) (w : World) (k : Z) :
  authorized X env adminToken -> admin_pool env = true ->
  next_outcome w = Succeeds -> key_of X (Js.Str id) = KeyInt k ->
  admin_delete_package X env adminToken id w =
    (Json 200 BSuccess,
     set_db (set_event_packages (soft_delete k (event_packages (db w))) (db w))
       (pop w)).
Proof.
  intros Ha Hp Hn Hk. unfold admin_delete_package.
  rewrite admin_route_authorized by assumption.
  unfold respond, bind, pool_query, run_stmt, soft_delete_package, ret.
  now rewrite Hp, Hn, Hk.
Qed.

Lemma delete_speaker_done (env : Env) (adminToken : option string)
    (id : string) (w : World) (k : Z) :
  authorized X env adminToken -> admin_pool env = true ->
  next_outcome w = Succeeds -> key_of X (Js.Str id) = KeyInt k ->
  admin_delete_speaker X env adminToken id w =
    (Json 200 BSuccess,
     set_db (set_speakers (soft_delete k (speakers (db w))) (db w)) (pop w)).
Proof.
  intros Ha Hp Hn Hk. unfold admin_delete_speaker.
  rewrite admin_route_authorized by assumption.
  unfold respond, bind, pool_query, run_stmt, soft_delete_speaker, ret.
  now rewrite Hp, Hn, Hk.
Qed.

(** *** Listing *)

Lemma get_packages_shows (env : Env) (w : World) :
  shows_packages (event_packages (db w)) (fst (get_packages env w)).
Proof.
  unfold shows_packages, get_packages, checkDbConnection, respond, bind,
    pool_query, run_stmt, select_active_packages, ret.
  intros c rows. destruct (pool env); [|discriminate].
  destruct (next_outcome w); simpl; intros E; inversion E; subst.
  split; [reflexivity | apply select_active_listing].
Qed.

Lemma get_speakers_shows (env : Env) (w : World) :
  shows_speakers (speakers (db w)) (fst (get_speakers env w)).
Proof.
  unfold shows_speakers, get_speakers, checkDbConnection, respond, bind,
    pool_query, run_stmt, select_active_speakers, ret.
  intros c rows. destruct (pool env); [|discriminate].
  destruct (next_outcome w); simpl; intros E; inversion E; subst.
  split; [reflexivity | apply select_active_listing].
Qed.

Lemma admin_get_packages_shows (env : Env) (adminToken : option string)
    (w : World) :
  shows_packages (event_packages (db w))
    (fst (admin_get_packages X env adminToken w)).
Proof.
  unfold shows_packages, admin_get_packages. intros c rows.
  destruct (admin_route_cases env adminToken
              (rows <- pool_query (admin_pool env) select_active_packages ;;
               ret (Json 200 (BPackages rows))) w) as [[c' [m E]]|[Hp E]];
    rewrite E; [discriminate|].
  unfold respond, bind, pool_query, run_stmt, select_active_packages, ret.
  rewrite Hp. destruct (next_outcome w); simpl; intros E'; inversion E'; subst.
  split; [reflexivity | apply select_active_listing].
Qed.

Lemma admin_get_speakers_shows (env : Env) (adminToken : option string)
    (w : World) :
  shows_speakers (speakers (db w)) (fst (admin_get_speakers X env adminToken w)).
Proof.
  unfold shows_speakers, admin_get_speakers. intros c rows.
  destruct (admin_route_cases env adminToken
              (rows <- pool_query (admin_pool env) select_active_speakers ;;
               ret (Json 200 (BSpeakers rows))) w) as [[c' [m E]]|[Hp E]];
    rewrite E; [discriminate|].
  unfold respond, bind, pool_query, run_stmt, select_active_speakers, ret.
  rewrite Hp. destruct (next_outcome w); simpl; intros E'; inversion E'; subst.
  split; [reflexivity | apply select_active_listing].
Qed.

Lemma get_packages_answers (env : Env) (w : World) :
  pool env = true -> next_outcome w = Succeeds ->
  fst (get_packages env w)
  = Json 200 (BPackages (select_active (event_packages (db w)))).
Proof.
  intros Hp Hn.
  unfold get_packages, checkDbConnection, respond, bind, pool_query, run_stmt.
  now rewrite Hp, Hn.
Qed.

Lemma get_speakers_answers (env : Env) (w : World) :
  pool env = true -> next_outcome w = Succeeds ->
  fst (get_speakers env w) = Json 200 (BSpeakers (select_active (speakers (db w)))).
Proof.
  intros Hp Hn.
  unfold get_speakers, checkDbConnection, respond, bind, pool_query, run_stmt.
  now rewrite Hp, Hn.
Qed.

Lemma admin_get_packages_answers (env : Env) (adminToken : option string)
    (w : World) :
  authorized X env adminToken -> admin_pool env = true ->
  next_outcome w = Succeeds ->
  fst (admin_get_packages X env adminToken w)
  = Json 200 (BPackages (select_active (event_packages (db w)))).
Proof.
  intros Ha Hp Hn. unfold admin_get_packages.
  rewrite admin_route_authorized by assumption.
  unfold respond, bind, pool_query, run_stmt. now rewrite Hp, Hn.
Qed.

Lemma admin_get_speakers_answers (env : Env) (adminToken : option string)
    (w : World) :
  authorized X env adminToken -> admin_pool env = true ->
  next_outcome w = Succeeds ->
  fst (admin_get_speakers X env adminToken w)
  = Json 200 (BSpeakers (select_active (speakers (db w)))).
Proof.
  intros Ha Hp Hn. unfold admin_get_speakers.
  rewrite admin_route_authorized by assumption.
  unfold respond, bind, pool_query, run_stmt. now rewrite Hp, Hn.
Qed.

(** C6. Deleting a package or a speaker removes no row: the table keeps
    its rows, and the deleted one only has [is_active] switched off.  The
    public and the admin list of packages and of speakers answer exactly
    the active rows, by display order and then by identifier, so a row
    that is not active, a deleted one in particular, is in none of them. *)
Theorem soft_delete_and_listings (env : Env) (adminToken : option string)
    (id : string) (w : World) :
  let deleted_package := admin_delete_package X env adminToken id w in
  let deleted_speaker := admin_delete_speaker X env adminToken id w in
  keeps_rows (event_packages (db w)) (event_packages (db (snd deleted_package)))
  /\ keeps_rows (speakers (db w)) (speakers (db (snd deleted_speaker)))
  /\ (authorized X env adminToken -> admin_pool env = true ->
      next_outcome w = Succeeds ->
      forall k, key_of X (Js.Str id) = KeyInt k ->
      (fst deleted_package = Json 200 BSuccess
       /\ (forall p, In p (event_packages (db (snd deleted_package))) ->
             Package.id p = k -> Package.is_active p = false)
       /\ (forall token c rows p,
             fst (get_packages env (snd deleted_package)) = Json c (BPackages rows)
             \/ fst (admin_get_packages X env token (snd deleted_package))
                = Json c (BPackages rows) ->
             In p rows -> Package.id p <> k))
      /\ (fst deleted_speaker = Json 200 BSuccess
          /\ (forall p, In p (speakers (db (snd deleted_speaker))) ->
                Speaker.id p = k -> Speaker.is_active p = false)
          /\ (forall token c rows p,
                fst (get_speakers env (snd deleted_speaker)) = Json c (BSpeakers rows)
                \/ fst (admin_get_speakers X env token (snd deleted_speaker))
                   = Json c (BSpeakers rows) ->
                In p rows -> Speaker.id p <> k)))
  /\ (forall token,
        shows_packages (event_packages (db w)) (fst (get_packages env w))
        /\ shows_packages (event_packages (db w))
             (fst (admin_get_packages X env token w))
        /\ shows_speakers (speakers (db w)) (fst (get_speakers env w))
        /\ shows_speakers (speakers (db w))
             (fst (admin_get_speakers X env token w)))
  /\ (next_outcome w = Succeeds ->
      (pool env = true ->
       fst (get_packages env w)
       = Json 200 (BPackages (select_active (event_packages (db w))))
       /\ fst (get_speakers env w)
          = Json 200 (BSpeakers (select_active (speakers (db w)))))
      /\ (forall token, authorized X env token -> admin_pool env = true ->
          fst (admin_get_packages X env token w)
          = Json 200 (BPackages (select_active (event_packages (db w))))
          /\ fst (admin_get_speakers X env token w)
             = Json 200 (BSpeakers (select_active (speakers (db w)))))).
Proof.
  intros deleted_package deleted_speaker.
  split; [apply keeps_rows_outcome, delete_package_outcome|].
  split; [apply keeps_rows_outcome, delete_speaker_outcome|].
  split.
  { intros Ha Hp Hn k Hk. subst deleted_package deleted_speaker.
    rewrite (delete_package_done env adminToken id w k) by assumption.
    rewrite (delete_speaker_done env adminToken id w k) by assumption.
    simpl. split; (split; [reflexivity|]); split.
    - intros p Hin E. now apply (soft_delete_inactive k _ p Hin).
    - intros token c rows p [E|E] Hin.
      + destruct (get_packages_shows env _ c rows E) as [_ L].
        simpl in L. exact (listing_after_soft_delete k _ rows p L Hin).
      + destruct (admin_get_packages_shows env token _ c rows E) as [_ L].
        simpl in L. exact (listing_after_soft_delete k _ rows p L Hin).
    - intros p Hin E. now apply (soft_delete_inactive k _ p Hin).
    - intros token c rows p [E|E] Hin.
      + destruct (get_speakers_shows env _ c rows E) as [_ L].
        simpl in L. exact (listing_after_soft_delete k _ rows p L Hin).
      + destruct (admin_get_speakers_shows env token _ c rows E) as [_ L].
        simpl in L. exact (listing_after_soft_delete k _ rows p L Hin). }
  split.
  { intros token. split; [apply get_packages_shows|].
    split; [apply admin_get_packages_shows|].
    split; [apply get_speakers_shows | apply admin_get_speakers_shows]. }
  intros Hn. split.
  - intros Hp. split; [now apply get_packages_answers | now apply get_speakers_answers].
  - intros token Ha Hp.
    split; [now apply admin_get_packages_answers | now apply admin_get_speakers_answers].
Qed.

(** *** Creating *)

(** The statement that reads the next display order: it goes through
    when every display order is below 2147483647. *)
Lemma select_next_order_fits {R} `{CatalogLaws R} (l : list R) :
  (forall r m, In r l -> row_display_order r = Some m -> m < 2147483647) ->
  select_next_order l = Ok (next_order l).
Proof.
  intros Hl. unfold select_next_order.
  assert (Hle : next_order l <= 2147483647).
  { unfold next_order.
    destruct (max_display_order l) as [m|] eqn:Em; [|lia].
    destruct (max_display_order_attained _ _ Em) as [r [Hr Hm]].
    pose proof (Hl r m Hr Hm). lia. }
  apply Z.leb_le in Hle. now rewrite Hle.
Qed.

Lemma select_next_order_overflow {R} `{CatalogLaws R} (l : list R) (r : R)
    (m : Z) :
  In r l -> row_display_order r = Some m -> 2147483647 <= m ->
  select_next_order l = Throw (DbError "22003").
Proof.
  intros Hr Hm Hbig. unfold select_next_order.
  pose proof (next_order_above l r m Hr Hm) as Hlt.
  destruct (Z.leb_spec (next_order l) 2147483647); [lia | reflexivity].
Qed.

Lemma create_package_appends (env : Env) (now : Z) (adminToken : option string)
    (r : PackageReq.t) (price : Q) (w : World) :
  authorized X env adminToken -> admin_pool env = true -> script w = [] ->
  packages_fresh (db w) ->
  decimal_10_2 (PackageReq.price r) = Some price ->
  (forall p m, In p (event_packages (db w)) ->
     Package.display_order p = Some m -> m < 2147483647) ->
  admin_create_package X env now adminToken r w
  = (let row :=
       {| Package.id := event_packages_id_seq (db w);
          Package.name := PackageReq.name r;
          Package.category := PackageReq.category r;
          Package.price := price;
          Package.features := PackageReq.features r;
          Package.package_type := PackageReq.package_type r;
          Package.display_order := Some (next_order (event_packages (db w)));
          Package.is_active := true;
          Package.created_at := now; Package.updated_at := now |} in
     (Json 200 (BPackage row),
      {| db := set_event_packages (event_packages (db w) ++ [row])
                 (bump_event_packages_id_seq (db w));
         tx := tx w; script := [] |})).
Proof.
  intros Ha Hp Hs Hfresh Hprice Hfits. unfold admin_create_package.
  rewrite admin_route_authorized by assumption.
  destruct w as [d t s]. simpl in Hs, Hfresh, Hfits. subst s.
  unfold respond, bind, pool_query, run_stmt, next_outcome,
    select_next_package_order, insert_package, ret.
  rewrite Hp. cbn [script db tx pop set_db fst snd tl].
  rewrite (select_next_order_fits (R:=Package.t) (event_packages d)) by exact Hfits.
  cbn [script db tx pop set_db fst snd tl].
  now rewrite Hprice, (unused_key Package.id _ _ Hfresh).
Qed.

Lemma create_speaker_appends (env : Env) (now : Z) (adminToken : option string)
    (r : SpeakerReq.t) (w : World) :
  authorized X env adminToken -> admin_pool env = true -> script w = [] ->
  speakers_fresh (db w) ->
  (forall p m, In p (speakers (db w)) ->
     Speaker.display_order p = Some m -> m < 2147483647) ->
  admin_create_speaker X env now adminToken r w
  = (let row :=
       {| Speaker.id := speakers_id_seq (db w);
          Speaker.name := SpeakerReq.name r;
          Speaker.title := SpeakerReq.title r;
          Speaker.company := SpeakerReq.company r;
          Speaker.bio := SpeakerReq.bio r;
          Speaker.image_url := SpeakerReq.image_url r;
          Speaker.display_order := Some (next_order (speakers (db w)));
          Speaker.is_active := true;
          Speaker.created_at := now; Speaker.updated_at := now |} in
     (Json 200 (BSpeaker row),
      {| db := set_speakers (speakers (db w) ++ [row])
                 (bump_speakers_id_seq (db w));
         tx := tx w; script := [] |})).
Proof.
  intros Ha Hp Hs Hfresh Hfits. unfold admin_create_speaker.
  rewrite admin_route_authorized by assumption.
  destruct w as [d t s]. simpl in Hs, Hfresh, Hfits. subst s.
  unfold respond, bind, pool_query, run_stmt, next_outcome,
    select_next_speaker_order, insert_speaker, ret.
  rewrite Hp. cbn [script db tx pop set_db fst snd tl].
  rewrite (select_next_order_fits (R:=Speaker.t) (speakers d)) by exact Hfits.
  cbn [script db tx pop set_db fst snd tl].
  now rewrite (unused_key Speaker.id _ _ Hfresh).
Qed.

(** A display order of 2147483647 in the table: the first statement of a
    creation fails, and the answer is 500. *)
Lemma create_package_overflow (env : Env) (now : Z)
    (adminToken : option string) (r : PackageReq.t) (w : World)
    (p : Package.t) (m : Z) :
  authorized X env adminToken -> admin_pool env = true -> script w = [] ->
  In p (event_packages (db w)) -> Package.display_order p = Some m ->
  2147483647 <= m ->
  fst (admin_create_package X env now adminToken r w)
  = Json 500 (BError "Internal server error")
  /\ db (snd (admin_create_package X env now adminToken r w)) = db w.
Proof.
  intros Ha Hp Hs Hin Hm Hbig. unfold admin_create_package.
  rewrite admin_route_authorized by assumption.
  destruct w as [d t s]. simpl in Hs, Hin. subst s.
  unfold respond, bind, pool_query, run_stmt, next_outcome,
    select_next_package_order.
  rewrite Hp. cbn [script db tx pop set_db fst snd tl].
  rewrite (select_next_order_overflow (R:=Package.t) (event_packages d) p m)
    by assumption.
  split; reflexivity.
Qed.

Lemma create_speaker_overflow (env : Env) (now : Z)
    (adminToken : option string) (r : SpeakerReq.t) (w : World)
    (p : Speaker.t) (m : Z) :
  authorized X env adminToken -> admin_pool env = true -> script w = [] ->
  In p (speakers (db w)) -> Speaker.display_order p = Some m ->
  2147483647 <= m ->
  fst (admin_create_speaker X env now adminToken r w)
  = Json 500 (BError "Internal server error")
  /\ db (snd (admin_create_speaker X env now adminToken r w)) = db w.
Proof.
  intros Ha Hp Hs Hin Hm Hbig. unfold admin_create_speaker.
  rewrite admin_route_authorized by assumption.
  destruct w as [d t s]. simpl in Hs, Hin. subst s.
  unfold respond, bind, pool_query, run_stmt, next_outcome,
    select_next_speaker_order.
  rewrite Hp. cbn [script db tx pop set_db fst snd tl].
  rewrite (select_next_order_overflow (R:=Speaker.t) (speakers d) p m)
    by assumption.
  split; reflexivity.
Qed.

(** C7. Creating a package or a speaker through the admin route, in a
    table whose display orders are below 2147483647, adds one active row
    whose [display_order] is the largest display order of the table plus
    one, and 1 when no row has a display order, an empty table included.
    Among the active rows the new row is listed after those that have a
    display order and before those whose display order is NULL; it is
    the last one when no active row has a NULL there.  With a display
    order of 2147483647 in the table the creation fails with 500 and
    adds nothing. *)
Theorem create_takes_next_display_order (env : Env) (now : Z)
    (adminToken : option string) (rp : PackageReq.t) (rs : SpeakerReq.t)
    (w : World) :
  authorized X env adminToken ->
  admin_pool env = true ->
  script w = [] ->
  (packages_fresh (db w) ->
   forall price, decimal_10_2 (PackageReq.price rp) = Some price ->
   let before := event_packages (db w) in
   let out := admin_create_package X env now adminToken rp w in
   ((forall p m, In p before -> Package.display_order p = Some m ->
       m < 2147483647) ->
    exists row,
      fst out = Json 200 (BPackage row)
      /\ event_packages (db (snd out)) = before ++ [row]
      /\ Package.id row = event_packages_id_seq (db w)
      /\ Package.name row = PackageReq.name rp
      /\ Package.price row = price
      /\ placed before row
      /\ ((forall p, In p before -> Package.is_active p = true ->
             Package.display_order p <> None) ->
          select_active (before ++ [row]) = select_active before ++ [row]))
   /\ (forall p m, In p before -> Package.display_order p = Some m ->
         2147483647 <= m ->
         fst out = Json 500 (BError "Internal server error")
         /\ event_packages (db (snd out)) = before))
  /\ (speakers_fresh (db w) ->
      let before := speakers (db w) in
      let out := admin_create_speaker X env now adminToken rs w in
      ((forall p m, In p before -> Speaker.display_order p = Some m ->
          m < 2147483647) ->
       exists row,
         fst out = Json 200 (BSpeaker row)
         /\ speakers (db (snd out)) = before ++ [row]
         /\ Speaker.id row = speakers_id_seq (db w)
         /\ Speaker.name row = SpeakerReq.name rs
         /\ placed before row
         /\ ((forall p, In p before -> Speaker.is_active p = true ->
                Speaker.display_order p <> None) ->
             select_active (before ++ [row]) = select_active before ++ [row]))
      /\ (forall p m, In p before -> Speaker.display_order p = Some m ->
            2147483647 <= m ->
            fst out = Json 500 (BError "Internal server error")
            /\ speakers (db (snd out)) = before)).
Proof.
  intros Ha Hp Hs. split.
  - intros Hfresh price Hprice before out. split.
    + intros Hfits. subst out.
      rewrite (create_package_appends env now adminToken rp price w)
        by assumption.
      cbv zeta. eexists. split; [reflexivity|].
      cbn [fst snd db event_packages set_event_packages Package.id
           Package.name Package.price].
      do 4 (split; [reflexivity|]).
      assert (Hplaced : placed before
                {| Package.id := event_packages_id_seq (db w);
                   Package.name := PackageReq.name rp;
                   Package.category := PackageReq.category rp;
                   Package.price := price;
                   Package.features := PackageReq.features rp;
                   Package.package_type := PackageReq.package_type rp;
                   Package.display_order := Some (next_order before);
                   Package.is_active := true;
                   Package.created_at := now; Package.updated_at := now |})
        by (apply placed_next_order; reflexivity).
      split; [exact Hplaced|].
      intros Hsome. exact (placed_last before _ Hplaced Hsome).
    + intros p m Hin Hm Hbig. subst out.
      destruct (create_package_overflow env now adminToken rp w p m Ha Hp Hs
                  Hin Hm Hbig) as [E1 E2].
      split; [exact E1 | now rewrite E2].
  - intros Hfresh before out. split.
    + intros Hfits. subst out.
      rewrite (create_speaker_appends env now adminToken rs w) by assumption.
      cbv zeta. eexists. split; [reflexivity|].
      cbn [fst snd db speakers set_speakers Speaker.id Speaker.name].
      do 3 (split; [reflexivity|]).
      assert (Hplaced : placed before
                {| Speaker.id := speakers_id_seq (db w);
                   Speaker.name := SpeakerReq.name rs;
                   Speaker.title := SpeakerReq.title rs;
                   Speaker.company := SpeakerReq.company rs;
                   Speaker.bio := SpeakerReq.bio rs;
                   Speaker.image_url := SpeakerReq.image_url rs;
                   Speaker.display_order := Some (next_order before);
                   Speaker.is_active := true;
                   Speaker.created_at := now; Speaker.updated_at := now |})
        by (apply placed_next_order; reflexivity).
      split; [exact Hplaced|].
      intros Hsome. exact (placed_last before _ Hplaced Hsome).
    + intros p m Hin Hm Hbig. subst out.
      destruct (create_speaker_overflow env now adminToken rs w p m Ha Hp Hs
                  Hin Hm Hbig) as [E1 E2].
      split; [exact E1 | now rewrite E2].
Qed.

End CatalogEndpoints.

(** ** Validation of order requests *)

Section OrderValidation.

Variable X : Externals.

Lemma check_nil (ok : bool) (field message : string) :
  check ok field message = [] <-> ok = true.
Proof. destruct ok; simpl; split; congruence. Qed.

Lemma validateOrder_nil (r : OrderReq.t) :
  validateOrder X r = [] <-> order_preconditions X r = true.
Proof.
  unfold validateOrder, order_preconditions, isFloat_min_cent.
  destruct (isLength 2 100 (trim (OrderReq.name r)));
    destruct (isEmail X (OrderReq.email r));
    destruct (phone_matches (OrderReq.phone r));
    destruct (isIn packages_on_sale (OrderReq.package r));
    destruct (OrderReq.price r) as [q|]; try destruct (Qle_bool (1 # 100) q);
    simpl; split; congruence.
Qed.

Lemma in_check (ok : bool) (field message : string) (e : FieldError) :
  In e (check ok field message)
  <-> ok = false /\ e = {| path := field; msg := message |}.
Proof.
  destruct ok; simpl; split.
  - contradiction.
  - intros [E _]; discriminate.
  - intros [<-|[]]. auto.
  - intros [_ ->]. auto.
Qed.

Lemma validateOrder_field (r : OrderReq.t) (e : FieldError) :
  In e (validateOrder X r) <->
  (isLength 2 100 (trim (OrderReq.name r)) = false
   /\ e = {| path := "name";
             msg := "Name must be between 2 and 100 characters" |})
  \/ (isEmail X (OrderReq.email r) = false
      /\ e = {| path := "email"; msg := "Invalid email format" |})
  \/ (phone_matches (OrderReq.phone r) = false
      /\ e = {| path := "phone"; msg := "Invalid phone number format" |})
  \/ (isIn packages_on_sale (OrderReq.package r) = false
      /\ e = {| path := "package"; msg := "Invalid package selection" |})
  \/ (isFloat_min_cent (OrderReq.price r) = false
      /\ e = {| path := "price"; msg := "Invalid price" |}).
Proof.
  unfold validateOrder. rewrite !in_app_iff, !in_check. tauto.
Qed.

(** Past validation the answer is an order, a conflict or a failure. *)
Lemma create_order_status (env : Env) (now : Z) (provider : ProviderReply)
    (r : OrderReq.t) (amt : Q) (w : World) :
  status_code
    (fst (respond (create_order X env now provider r amt) order_creation_error w))
  <> 400.
Proof.
  unfold respond.
  destruct (create_order X env now provider r amt w) as [[resp|e] w'] eqn:E.
  - revert E. unfold create_order, bind, try_catch, throw, ret.
    destruct (pool_connect w) as [[[]|e0] w0]; [|discriminate].
    destruct (client_begin w0) as [[[]|e1] w1].
    + destruct (client_query _ w1) as [[k|e2] w2].
      * destruct (request_payment_link env provider k w2) as [[l|e3] w3].
        -- destruct (client_commit w3) as [[[]|e4] w4].
           ++ intros E; inversion E; subst. simpl. discriminate.
           ++ destruct (client_rollback w4) as [[[]|e5] w5]; discriminate.
        -- destruct (client_rollback w3) as [[[]|e5] w5]; discriminate.
      * destruct (client_rollback w2) as [[[]|e5] w5]; discriminate.
    + destruct (client_rollback w1) as [[[]|e5] w5]; discriminate.
  - simpl. unfold order_creation_error.
    destruct e as [|c]; [simpl; discriminate|].
    destruct (string_dec c "23505") as [->|N]; [simpl; discriminate|].
    repeat (destruct c as [|[[] [] [] [] [] [] [] []] c];
            try (simpl; discriminate)).
Qed.

(** C8 (amended). With the store reachable, [POST /api/orders] answers the
    structured 400 exactly when a precondition of [validateOrder] fails:
    the trimmed name is not 2 to 100 characters long, the e-mail is
    malformed, the phone does not match the pattern, the package is not
    one of the three tiers, or the price is no number or below 0.01.  The
    details hold one message for each failing field, and nothing is
    inserted. *)
Theorem order_validation (env : Env) (now : Z) (provider : ProviderReply)
    (r : OrderReq.t) (w : World) :
  pool env = true ->
  let out := post_orders X env now provider r w in
  (status_code (fst out) = 400 <-> order_preconditions X r = false)
  /\ (order_preconditions X r = false ->
      fst out = validation_failed (validateOrder X r)
      /\ validateOrder X r <> []
      /\ snd out = w)
  /\ (forall e, In e (validateOrder X r) <->
        (isLength 2 100 (trim (OrderReq.name r)) = false
         /\ e = {| path := "name";
                   msg := "Name must be between 2 and 100 characters" |})
        \/ (isEmail X (OrderReq.email r) = false
            /\ e = {| path := "email"; msg := "Invalid email format" |})
        \/ (phone_matches (OrderReq.phone r) = false
            /\ e = {| path := "phone"; msg := "Invalid phone number format" |})
        \/ (isIn packages_on_sale (OrderReq.package r) = false
            /\ e = {| path := "package"; msg := "Invalid package selection" |})
        \/ (isFloat_min_cent (OrderReq.price r) = false
            /\ e = {| path := "price"; msg := "Invalid price" |})).
Proof.
  intros Hpool out.
  assert (Hfail : order_preconditions X r = false ->
            fst out = validation_failed (validateOrder X r)
            /\ validateOrder X r <> [] /\ snd out = w).
  { intros Hpre. subst out. unfold post_orders, checkDbConnection.
    rewrite Hpool.
    destruct (validateOrder X r) as [|e errs] eqn:E.
    - apply validateOrder_nil in E. congruence.
    - repeat split. discriminate. }
  split; [|split; [exact Hfail | apply validateOrder_field]].
  split.
  - intros Hcode. destruct (order_preconditions X r) eqn:Hpre; [|reflexivity].
    exfalso. apply validateOrder_nil in Hpre. subst out.
    unfold post_orders, checkDbConnection in Hcode.
    rewrite Hpool, Hpre in Hcode.
    now apply create_order_status in Hcode.
  - intros Hpre. destruct (Hfail Hpre) as [-> _]. reflexivity.
Qed.

End OrderValidation.

(** ** Dashboard figures *)

Section Dashboard.

Variable X : Externals.

Lemma filter_and {A} (p q : A -> bool) (l : list A) :
  filter (fun a => p a && q a) l = filter q (filter p l).
Proof.
  induction l as [|a l IH]; simpl; [reflexivity|].
  destruct (p a); simpl; [destruct (q a)|]; now rewrite IH.
Qed.

Lemma filter_without {A} (p : A -> bool) (l1 l2 : list A) (a : A) :
  p a = false -> filter p (l1 ++ a :: l2) = filter p (l1 ++ l2).
Proof. intros E. rewrite !filter_app. simpl. now rewrite E. Qed.

Lemma filter_idem {A} (p : A -> bool) (l : list A) :
  filter p (filter p l) = filter p l.
Proof.
  induction l as [|a l IH]; simpl; [reflexivity|].
  destruct (p a) eqn:E; simpl; [rewrite E|]; now rewrite IH.
Qed.

Lemma not_completed (o : Order.t) :
  Order.status o <> "completed" -> is_completed o = false.
Proof. intros N. unfold is_completed. now apply String.eqb_neq. Qed.

(** The answer depends on the orders through the completed ones only. *)
Lemma admin_stats_completed (env : Env) (now : Z) (adminToken : option string)
    (w : World) (l : list Order.t) :
  filter is_completed l = filter is_completed (orders (db w)) ->
  fst (admin_stats X env now adminToken (with_orders l w))
  = fst (admin_stats X env now adminToken w).
Proof.
  intros E. unfold admin_stats, admin_route, verifyAdminToken,
    admin_checkDbConnection.
  destruct adminToken as [token|]; [|reflexivity].
  destruct (String.eqb token ""); [reflexivity|].
  destruct (jwt_verify X (JWT_SECRET env) token); [|reflexivity].
  destruct (admin_pool env); [|reflexivity].
  destruct w as [d t s].
  unfold respond, bind, pool_query, run_stmt, next_outcome, with_orders,
    select_total_stats, select_today_sales, ret.
  simpl in E.
  destruct s as [|[|c1] [|[|c2] s]]; simpl; rewrite ?filter_and, ?E;
    reflexivity.
Qed.

(** C10. The three figures of the dashboard come from the completed
    orders alone: an order in any other status, [pending] in particular,
    changes none of them, wherever it sits in the table. *)
Theorem stats_count_completed_only (env : Env) (now : Z)
    (adminToken : option string) (w : World) :
  let sold := filter is_completed (orders (db w)) in
  (forall l1 l2 o,
     orders (db w) = l1 ++ l2 -> Order.status o <> "completed" ->
     fst (admin_stats X env now adminToken (with_orders (l1 ++ o :: l2) w))
     = fst (admin_stats X env now adminToken w))
  /\ fst (admin_stats X env now adminToken (with_orders sold w))
     = fst (admin_stats X env now adminToken w)
  /\ (authorized X env adminToken -> admin_pool env = true -> script w = [] ->
      fst (admin_stats X env now adminToken w)
      = Json 200
          (BStats (Z.of_nat (List.length sold))
             (parseFloat_or_0 (sum_amount sold))
             (Z.of_nat
                (List.length
                   (filter
                      (fun o => date_of (Order.created_at o) =? date_of now)
                      sold))))).
Proof.
  intros sold. split; [|split].
  - intros l1 l2 o Hw Hst. apply admin_stats_completed.
    rewrite Hw. apply filter_without. now apply not_completed.
  - apply admin_stats_completed. apply filter_idem.
  - intros Ha Hp Hs. unfold admin_stats.
    rewrite admin_route_authorized by assumption.
    destruct w as [d t s]. simpl in Hs. subst s.
    unfold respond, bind, pool_query, run_stmt, next_outcome,
      select_total_stats, select_today_sales, ret.
    rewrite Hp. simpl. now rewrite filter_and.
Qed.

End Dashboard.

(** * The statements at work on the fixtures *)

Lemma sample_authorized : authorized Sample.externals Sample.live (Some "jwt").
Proof. exists "jwt"%string. repeat split. discriminate. Defined.

Lemma sample_orders_fresh : orders_fresh Sample.store.
Proof.
  intros o [<-|[<-|[]]]; reflexivity.
Defined.

Lemma sample_packages_fresh : packages_fresh Sample.store.
Proof.
  intros o [<-|[<-|[<-|[]]]]; reflexivity.
Defined.

Lemma sample_speakers_fresh : speakers_fresh Sample.store.
Proof.
  intros o [<-|[<-|[]]]; reflexivity.
Defined.

(** The provider call fails on a price of 299.999: order 43 is there and
    committed, pending, without a link, with 300 as its amount, and the
    answer repeats 299.999.  A price of 10^8 is valid and answered 500,
    without a row. *)
Lemma order_created_pending_witness :
  (validateOrder Sample.externals (Sample.jane (Some (299999 # 1000))) = []
   /\ orders (db (snd (post_orders Sample.externals Sample.live 100 LinkFailed
                         (Sample.jane (Some (299999 # 1000))) Sample.world)))
      = orders Sample.store
        ++ [Sample.order 43 "pending" None (300 # 1) 100]
   /\ tx (snd (post_orders Sample.externals Sample.live 100 LinkFailed
                 (Sample.jane (Some (299999 # 1000))) Sample.world))
      = None
   /\ fst (post_orders Sample.externals Sample.live 100 LinkFailed
             (Sample.jane (Some (299999 # 1000))) Sample.world)
      = Json 200 (BOrder 43 None None (299999 # 1000) false true))
  /\ (validateOrder Sample.externals (Sample.jane (Some (100000000 # 1))) = []
      /\ status_code
           (fst (post_orders Sample.externals Sample.live 100 LinkFailed
                   (Sample.jane (Some (100000000 # 1))) Sample.world))
         = 500
      /\ orders (db (snd (post_orders Sample.externals Sample.live 100
                            LinkFailed (Sample.jane (Some (100000000 # 1)))
                            Sample.world)))
         = orders Sample.store).
Proof.
  split.
  - split; [reflexivity|].
    destruct (order_created_pending Sample.externals Sample.live 100 LinkFailed
                (Sample.jane (Some (299999 # 1000))) (299999 # 1000)
                Sample.world eq_refl eq_refl eq_refl eq_refl
                sample_orders_fresh) as [Hrow _].
    destruct (Hrow (300 # 1) eq_refl)
      as [pid [link [Hrows [Htx [_ [Hresp [Hfail _]]]]]]].
    destruct (Hfail (or_intror eq_refl)) as [Hpid Hlink].
    rewrite Hrows, Htx, Hresp, Hpid, Hlink. repeat split.
  - split; [reflexivity|].
    destruct (order_created_pending Sample.externals Sample.live 100 LinkFailed
                (Sample.jane (Some (100000000 # 1))) (100000000 # 1)
                Sample.world eq_refl eq_refl eq_refl eq_refl
                sample_orders_fresh) as [_ Hbig].
    destruct (Hbig eq_refl) as [Hcode [Hrows _]].
    split; assumption.
Defined.

(** A signature over [42|pay_abc] is accepted and completes order 42
    with [pay_abc]; with its last character changed it gets 400 and
    nothing changes. *)
Lemma verify_payment_accepts_iff_signature_witness :
  (fst (verify_payment Sample.externals Sample.live
          (Scenario.verification (Js.Num 42) "mac(s3cret,42|pay_abc)")
          Sample.world)
   = Json 200 BSuccess
   /\ orders (db (snd (verify_payment Sample.externals Sample.live
                         (Scenario.verification (Js.Num 42)
                            "mac(s3cret,42|pay_abc)")
                         Sample.world)))
      = Scenario.orders_paid "pay_abc")
  /\ verify_payment Sample.externals Sample.live
       (Scenario.verification (Js.Num 42) "mac(s3cret,42|pay_abc(") Sample.world
     = (Json 400 (BError "Invalid signature"), Sample.world).
Proof.
  split.
  - destruct (verify_payment_accepts_iff_signature Sample.externals
                Sample.live "s3cret"
                (Scenario.verification (Js.Num 42) "mac(s3cret,42|pay_abc)")
                Sample.world eq_refl eq_refl)
      as [_ [_ [Hmatch _]]].
    destruct (Hmatch eq_refl) as [_ [_ [Hint _]]].
    destruct (Hint "42"%string 42 eq_refl eq_refl eq_refl) as [Hresp Hrows].
    split; [exact Hresp|].
    rewrite (completion_rows _ _ _ _ Hrows). reflexivity.
  - destruct (verify_payment_accepts_iff_signature Sample.externals
                Sample.live "s3cret"
                (Scenario.verification (Js.Num 42) "mac(s3cret,42|pay_abc(")
                Sample.world eq_refl eq_refl)
      as [Hmis _].
    assert (N : VerifyReq.signature
                  (Scenario.verification (Js.Num 42) "mac(s3cret,42|pay_abc(")
                <> Js.Str "mac(s3cret,42|pay_abc)") by discriminate.
    destruct (Hmis N) as [Hresp Hsame].
    apply injective_projections; assumption.
Defined.

(** C2 as the specification words it, refuted.  The signature of the
    first request is the HMAC of [abc|pay_abc], yet the request is not
    accepted: the [UPDATE] throws on the key [abc] and the answer is 500.
    The signature of the second one is the HMAC of [7|pay_abc] and the
    answer is success, yet no order is set to [completed]: there is no
    order 7. *)
Lemma verify_payment_accepts_iff_signature_counterexample :
  (VerifyReq.signature
     (Scenario.verification (Js.Str "abc") "mac(s3cret,abc|pay_abc)")
   = Js.Str (hmac_sha256_hex Sample.externals "s3cret" "abc|pay_abc")
   /\ verify_payment Sample.externals Sample.live
        (Scenario.verification (Js.Str "abc") "mac(s3cret,abc|pay_abc)")
        Sample.world
      = (Json 500 (BError "Internal server error"), Sample.world))
  /\ (VerifyReq.signature
        (Scenario.verification (Js.Num 7) "mac(s3cret,7|pay_abc)")
      = Js.Str (hmac_sha256_hex Sample.externals "s3cret" "7|pay_abc")
      /\ verify_payment Sample.externals Sample.live
           (Scenario.verification (Js.Num 7) "mac(s3cret,7|pay_abc)")
           Sample.world
         = (Json 200 BSuccess, Sample.world)).
Proof. repeat split. Qed.

(** The webhook for order 42 records [pay_abc]; the redirect that
    follows records [pay_xyz], which stays. *)
Lemma completion_channels_overwrite_witness :
  orders (db (snd (fire Sample.externals Sample.live
                     (PaidWebhook Scenario.paid_event) Sample.world)))
  = Scenario.orders_paid "pay_abc"
  /\ orders
       (db (snd (fire Sample.externals Sample.live
                   (RedirectCallback
                      (Scenario.paid_callback (Some "42") (Some "pay_xyz")))
                   (snd (fire Sample.externals Sample.live
                           (PaidWebhook Scenario.paid_event) Sample.world)))))
     = Scenario.orders_paid "pay_xyz".
Proof.
  assert (C1 : confirms Sample.externals Sample.live
                 (PaidWebhook Scenario.paid_event) 42 (Some "pay_abc"%string)).
  { split; [reflexivity|]. do 4 eexists. exists "42"%string. repeat split. }
  assert (C2 : confirms Sample.externals Sample.live
                 (RedirectCallback
                    (Scenario.paid_callback (Some "42") (Some "pay_xyz")))
                 42 (Some "pay_xyz"%string)).
  { split; [reflexivity|]. exists "42"%string.
    split; [reflexivity|]. split; [discriminate|]. split; reflexivity. }
  destruct (completion_channels_overwrite Sample.externals Sample.live _ _ 42 _ _
              Sample.world eq_refl eq_refl C1 C2) as [_ [_ [H1 [H2 _]]]].
  rewrite (completion_rows _ _ _ _ H1), (completion_rows _ _ _ _ H2).
  split; reflexivity.
Defined.

(** [razorpay_payment_link_status=paid&order_id=42]: order 42 is
    completed with [pay_xyz], or with the identifier of the link when
    there is no [razorpay_payment_id]; with [order_id=abc] the target
    carries [error], with the status [cancelled] it carries [failed], and
    nothing changes. *)
Lemma payment_success_redirect_witness :
  (payment_success Sample.externals Sample.live
     (Scenario.paid_callback (Some "42") (Some "pay_xyz")) Sample.world
   = (Redirect 302 "https://www.rtalks.in/?payment=success&order=42",
      with_orders (Scenario.orders_paid "pay_xyz") Sample.world)
   /\ orders
        (db (snd (payment_success Sample.externals Sample.live
                    (Scenario.paid_callback (Some "42") None) Sample.world)))
      = Scenario.orders_paid "plink_42")
  /\ (fst (payment_success Sample.externals Sample.live
             (Scenario.paid_callback (Some "abc") (Some "pay_xyz"))
             Sample.world)
      = Redirect 302 "https://www.rtalks.in/?payment=error&order=abc"
      /\ db (snd (payment_success Sample.externals Sample.live
                    (Scenario.paid_callback (Some "abc") (Some "pay_xyz"))
                    Sample.world))
         = Sample.store)
  /\ payment_success Sample.externals Sample.live
       (Scenario.callback "cancelled") Sample.world
     = (Redirect 302 "https://www.rtalks.in/?payment=failed&order=42",
        Sample.world).
Proof.
  split; [split|split].
  - destruct (payment_success_redirect Sample.externals Sample.live
                (Scenario.paid_callback (Some "42") (Some "pay_xyz"))
                Sample.world) as [Hpaid _].
    destruct (Hpaid "42"%string eq_refl eq_refl) as [Hdone _]; [discriminate|].
    destruct (Hdone 42 eq_refl eq_refl eq_refl) as [Hresp [Hpid _]].
    assert (N : "pay_xyz"%string <> ""%string) by discriminate.
    pose proof (completion_rows _ _ _ _ (Hpid "pay_xyz"%string eq_refl N))
      as Hrows.
    apply injective_projections; [exact Hresp | reflexivity].
  - destruct (payment_success_redirect Sample.externals Sample.live
                (Scenario.paid_callback (Some "42") None) Sample.world)
      as [Hpaid _].
    destruct (Hpaid "42"%string eq_refl eq_refl) as [Hdone _]; [discriminate|].
    destruct (Hdone 42 eq_refl eq_refl eq_refl) as [_ [_ Hlink]].
    rewrite (completion_rows _ _ _ _ (Hlink (or_introl eq_refl))).
    reflexivity.
  - destruct (payment_success_redirect Sample.externals Sample.live
                (Scenario.paid_callback (Some "abc") (Some "pay_xyz"))
                Sample.world) as [Hpaid _].
    destruct (Hpaid "abc"%string eq_refl eq_refl) as [_ [Hbad _]];
      [discriminate|].
    exact (Hbad eq_refl eq_refl eq_refl).
  - destruct (payment_success_redirect Sample.externals Sample.live
                (Scenario.callback "cancelled") Sample.world)
      as [_ [Hother _]].
    assert (N : SuccessQuery.razorpay_payment_link_status
                  (Scenario.callback "cancelled") <> Some "paid"%string)
      by discriminate.
    destruct (Hother N) as [Hfailed Hsame].
    apply injective_projections; assumption.
Defined.

(** The paid event for the pending order 42. *)
Lemma razorpay_webhook_behaviour_witness :
  fst (razorpay_webhook Sample.externals Sample.live Scenario.paid_event
         Sample.world)
  = Json 200 BStatusOk
  /\ completion 42 (Some "pay_abc"%string) (orders Sample.store)
       (orders (db (snd (razorpay_webhook Sample.externals Sample.live
                           Scenario.paid_event Sample.world)))).
Proof.
  destruct (razorpay_webhook_behaviour Sample.externals Sample.live
              Scenario.paid_event Sample.world) as [_ [Hpaid _]].
  exact (Hpaid _ _ _ 42 eq_refl eq_refl eq_refl eq_refl eq_refl eq_refl
           eq_refl eq_refl).
Defined.

(** Package 1 is deleted: three rows remain, and the list shows only
    package 2. *)
Lemma soft_delete_and_listings_witness :
  map Package.id
    (event_packages
       (db (snd (admin_delete_package Sample.externals Sample.live (Some "jwt")
                   "1" Sample.world))))
  = [1; 2; 3]
  /\ forall c rows p,
       fst (get_packages Sample.live
              (snd (admin_delete_package Sample.externals Sample.live
                      (Some "jwt") "1" Sample.world)))
       = Json c (BPackages rows) ->
       In p rows -> Package.id p <> 1.
Proof.
  destruct (soft_delete_and_listings Sample.externals Sample.live (Some "jwt")
              "1" Sample.world) as [[Hids _] [_ [Hdone _]]].
  split; [exact Hids|].
  destruct (Hdone sample_authorized eq_refl eq_refl 1 eq_refl)
    as [[_ [_ Hlist]] _].
  intros c rows p E. apply (Hlist None c rows p). now left.
Defined.

(** The new package is row 4, takes display order 3 after 2, 1 and 1,
    and is listed last. *)
Lemma create_takes_next_display_order_witness :
  exists row,
    fst (admin_create_package Sample.externals Sample.live 100 (Some "jwt")
           Scenario.new_package Sample.world)
    = Json 200 (BPackage row)
    /\ Package.id row = 4
    /\ Package.display_order row = Some 3
    /\ map Package.id
         (select_active
            (event_packages
               (db (snd (admin_create_package Sample.externals Sample.live 100
                           (Some "jwt") Scenario.new_package Sample.world)))))
       = [2; 1; 4].
Proof.
  destruct (create_takes_next_display_order Sample.externals Sample.live 100
              (Some "jwt") Scenario.new_package Scenario.new_speaker
              Sample.world sample_authorized eq_refl eq_refl) as [Hp _].
  destruct (Hp sample_packages_fresh (999 # 1) eq_refl) as [Hfits _].
  destruct Hfits as [row [Hresp [Hrows [Hid [_ [_ [Hplaced Hlast]]]]]]].
  { intros p m [<-|[<-|[<-|[]]]] [= <-]; reflexivity. }
  exists row. split; [exact Hresp|]. split; [exact Hid|]. split.
  - destruct Hplaced as [_ [[n [Hn [_ [Hlt Htop]]]] _]].
    change (Package.display_order row = Some n) in Hn.
    rewrite Hn. f_equal.
    destruct Htop as [top [Hin Htopn]].
    { exists (Sample.package 1 2 true). split; [now left | discriminate]. }
    pose proof (Hlt (Sample.package 1 2 true) 2 (or_introl eq_refl) eq_refl).
    destruct Hin as [<-|[<-|[<-|[]]]]; cbn in Htopn; injection Htopn; lia.
  - rewrite Hrows, Hlast.
    + rewrite map_app. cbn [map]. rewrite Hid. reflexivity.
    + intros p [<-|[<-|[<-|[]]]] _; discriminate.
Defined.

(** C7 as the specification words it, refuted.  After
    [PUT /api/admin/packages/1/order] with a body that has no
    [display_order], package 1 holds NULL there; the package created next
    takes display order 2 and is listed before package 1, not after all
    the rows.  And once package 1 holds 2147483647 the creation fails
    with 500 and adds nothing. *)
Lemma create_takes_next_display_order_counterexample :
  (let w :=
     snd (admin_update_package_order Sample.externals Sample.live (Some "jwt")
            "1" None Sample.world) in
   let out :=
     admin_create_package Sample.externals Sample.live 100 (Some "jwt")
       Scenario.new_package w in
   map Package.display_order (event_packages (db w)) = [None; Some 1; Some 1]
   /\ (exists row,
         fst out = Json 200 (BPackage row)
         /\ Package.id row = 4 /\ Package.display_order row = Some 2)
   /\ map Package.id (select_active (event_packages (db (snd out))))
      = [2; 4; 1])
  /\ (let w :=
        snd (admin_update_package_order Sample.externals Sample.live
               (Some "jwt") "1" (Some 2147483647) Sample.world) in
      let out :=
        admin_create_package Sample.externals Sample.live 100 (Some "jwt")
          Scenario.new_package w in
      fst out = Json 500 (BError "Internal server error")
      /\ event_packages (db (snd out)) = event_packages (db w)).
Proof.
  split; [split; [reflexivity | split; [|reflexivity]] | split; reflexivity].
  eexists. split; [reflexivity|]. split; reflexivity.
Qed.

(** A price of 0.005 alone fails the validation. *)
Lemma order_validation_witness :
  order_preconditions Sample.externals (Sample.jane (Some (5 # 1000))) = false
  /\ status_code
       (fst (post_orders Sample.externals Sample.live 100 LinkFailed
               (Sample.jane (Some (5 # 1000))) Sample.world))
     = 400
  /\ snd (post_orders Sample.externals Sample.live 100 LinkFailed
            (Sample.jane (Some (5 # 1000))) Sample.world)
     = Sample.world.
Proof.
  destruct (order_validation Sample.externals Sample.live 100 LinkFailed
              (Sample.jane (Some (5 # 1000))) Sample.world eq_refl)
    as [Hiff [Hfail _]].
  split; [reflexivity|]. split.
  - apply Hiff. reflexivity.
  - destruct (Hfail eq_refl) as [_ [_ Hsame]]. exact Hsame.
Defined.

(** C8 as the specification words it, refuted: a price of 0.005 is above
    zero and a name of one letter between two blanks has three
    characters, yet either request gets the 400. *)
Lemma order_validation_counterexample :
  (spec_order_preconditions Sample.externals (Sample.jane (Some (5 # 1000)))
   = true
   /\ fst (post_orders Sample.externals Sample.live 100 LinkFailed
             (Sample.jane (Some (5 # 1000))) Sample.world)
      = validation_failed [ {| path := "price"; msg := "Invalid price" |} ])
  /\ (let r :=
        {| OrderReq.name := " a "; OrderReq.email := "jane@x.com";
           OrderReq.phone := "+919999999999";
           OrderReq.package := "Professional";
           OrderReq.price := Some (299 # 1) |} in
      spec_order_preconditions Sample.externals r = true
      /\ fst (post_orders Sample.externals Sample.live 100 LinkFailed r
                Sample.world)
         = validation_failed
             [ {| path := "name";
                  msg := "Name must be between 2 and 100 characters" |} ]).
Proof. repeat split. Qed.

(** In test mode a correctly signed request is answered 500. *)
Lemma verify_payment_without_secret_witness :
  RAZORPAY_KEY_SECRET Sample.test_mode = None
  /\ fst (verify_payment Sample.externals Sample.test_mode
            (Scenario.signed (Js.Num 42) (Js.Str "pay_abc")) Sample.world)
     = Json 500 (BError "Internal server error")
  /\ snd (verify_payment Sample.externals Sample.test_mode
            (Scenario.signed (Js.Num 42) (Js.Str "pay_abc")) Sample.world)
     = Sample.world.
Proof.
  destruct (verify_payment_without_secret Sample.externals Sample.test_mode
              (Scenario.signed (Js.Num 42) (Js.Str "pay_abc")) Sample.world
              eq_refl) as [_ [H500 [_ [_ Hsame]]]].
  split; [reflexivity|]. split; [exact (H500 eq_refl) | exact Hsame].
Defined.

(** One completed order of 299 and one pending: a ticket, 299, and no
    sale on day 2. *)
Lemma stats_count_completed_only_witness :
  fst (admin_stats Sample.externals Sample.live 172800 (Some "jwt") Sample.world)
  = Json 200 (BStats 1 (0 + (299 # 1)) 0).
Proof.
  destruct (stats_count_completed_only Sample.externals Sample.live 172800
              (Some "jwt") Sample.world) as [_ [_ Hfig]].
  exact (Hfig sample_authorized eq_refl eq_refl).
Defined.

(** Numbers as JavaScript writes them: integers up to 2^53 in full,
    larger ones by their shortest decimal, with an exponent from 10^21
    on. *)
Example numbers_as_text :
  Js.to_string (Js.Num 42) = "42"
  /\ Js.to_string (Js.Num (-7)) = "-7"
  /\ Js.to_string (Js.Num 9007199254740993) = "9007199254740992"
  /\ Js.to_string (Js.Num 1152921504606846976) = "1152921504606847000"
  /\ Js.to_string (Js.Num 123456789012345678901) = "123456789012345680000"
  /\ Js.to_string (Js.Num (10 ^ 21)) = "1e+21"
  /\ Js.to_string (Js.Num (-(10 ^ 21) - 1)) = "-1e+21"
  /\ Js.to_string (Js.Num 1234567890123456789012345) = "1.2345678901234568e+24"
  /\ Js.to_string (Js.Num (10 ^ 400)) = "Infinity".
Proof. vm_compute. repeat split. Qed.

(** An order identifier of 10^21 in the webhook reaches the database as
    [1e+21], which is no integer. *)
Example webhook_with_a_large_key :
  pg_param (Js.Num (10 ^ 21)) = Some "1e+21"
  /\ key_of Sample.externals (Js.Num (10 ^ 21)) = KeyError.
Proof. vm_compute. split; reflexivity. Qed.

(** What a [DECIMAL(10,2)] column makes of a number. *)
Example rounding_to_the_cent :
  decimal_10_2 (299999 # 1000) = Some (300 # 1)
  /\ decimal_10_2 (5 # 1000) = Some (1 # 100)
  /\ decimal_10_2 (4 # 1000) = Some (0 # 1)
  /\ decimal_10_2 (-(5 # 1000)) = Some (-1 # 100)
  /\ decimal_10_2 (2999 # 1) = Some (2999 # 1)
  /\ decimal_10_2 (1250 # 100) = Some (25 # 2)
  /\ decimal_10_2 (99999999994 # 1000) = Some (9999999999 # 100)
  /\ decimal_10_2 (99999999995 # 1000) = None
  /\ decimal_10_2 (100000000 # 1) = None.
Proof. vm_compute. repeat split. Qed.

(** A reordering without a [display_order] sends the row behind the
    others. *)
Example reorder_to_null :
  map Package.id
    (select_active
       (event_packages
          (db (snd (admin_update_package_order Sample.externals Sample.live
                      (Some "jwt") "2" None Sample.world)))))
  = [1; 2].
Proof. reflexivity. Qed.

(** Without provider credentials the order is created in test mode. *)
Example order_in_test_mode :
  fst (post_orders Sample.externals Sample.test_mode 100 LinkFailed
         (Sample.jane (Some (299 # 1))) Sample.world)
  = Json 200 (BOrder 43 None None (299 # 1) true true)
  /\ map Order.status
       (orders (db (snd (post_orders Sample.externals Sample.test_mode 100
                           LinkFailed (Sample.jane (Some (299 # 1)))
                           Sample.world))))
     = ["completed"; "pending"; "pending"]%string.
Proof. split; reflexivity. Qed.

(** Test mode that comes from a placeholder secret still has a key: the
    HMAC is built and a request signed with the placeholder is accepted. *)
Example placeholder_secret_verifies :
  let env :=
    {| pool := true; admin_pool := true;
       RAZORPAY_KEY_ID := Some "your_key_id";
       RAZORPAY_KEY_SECRET := Some "your_key_secret";
       FRONTEND_URL := None; APP_URL := None; JWT_SECRET := None |} in
  let r :=
    {| VerifyReq.orderId := Js.Num 42; VerifyReq.paymentId := Js.Str "pay_abc";
       VerifyReq.signature :=
         Js.Str
           (hmac_sha256_hex Sample.externals "your_key_secret"
              (signed_message (Js.Num 42) (Js.Str "pay_abc"))) |} in
  razorpay env = false
  /\ fst (verify_payment Sample.externals env r Sample.world) = Json 200 BSuccess.
Proof. split; reflexivity. Qed.

(** An order identifier that is no integer makes the [UPDATE] throw. *)
Example callback_with_a_bad_key :
  let q :=
    {| SuccessQuery.order_id := Some "abc";
       SuccessQuery.razorpay_payment_id := Some "pay_xyz";
       SuccessQuery.razorpay_payment_link_id := None;
       SuccessQuery.razorpay_payment_link_reference_id := None;
       SuccessQuery.razorpay_payment_link_status := Some "paid";
       SuccessQuery.razorpay_signature := None |} in
  payment_success Sample.externals Sample.live q Sample.world
  = (Redirect 302 "https://www.rtalks.in/?payment=error&order=abc",
     Sample.world).
Proof. reflexivity. Qed.

(** * Further properties of the handlers *)

Section OrderCreationFailures.

Variable X : Externals.

Lemma where_id_unused {R} (rid : R -> Z) (k : Z) (f : R -> R) (l : list R) :
  existsb (fun r => rid r =? k) l = false -> map (where_id rid k f) l = l.
Proof.
  induction l as [|a l IH]; simpl; [reflexivity|].
  intros E. apply orb_false_iff in E. destruct E as [Ea El].
  unfold where_id at 1. rewrite Ea. now rewrite IH.
Qed.

(** The next entry of the script, when the goal branches on it. *)
Ltac next_script :=
  match goal with
  | |- context [match ?s with [] => _ | _ :: _ => _ end] =>
      is_var s; destruct s as [|[|?] ?]
  end.

Ltac next_branch :=
  match goal with
  | |- context [if existsb ?f ?l then _ else _] => destruct (existsb f l) eqn:?
  | |- context [if razorpay ?e then _ else _] => destruct (razorpay e)
  | |- context [match ?p with LinkCreated _ _ => _ | LinkFailed => _ end] =>
      is_var p; destruct p
  end.

Lemma order_creation_error_code (e : Exn) :
  (status_code (order_creation_error e) = 409 <-> e = DbError "23505")
  /\ (status_code (order_creation_error e) = 409
      \/ status_code (order_creation_error e) = 500).
Proof.
  destruct e as [|c]; simpl.
  - split; [split; discriminate | now right].
  - destruct (string_dec c "23505") as [->|N].
    + simpl. split; [split; reflexivity | now left].
    + assert (E : status_code (order_creation_error (DbError c)) = 500).
      { unfold order_creation_error.
        repeat (destruct c as [|[[] [] [] [] [] [] [] []] c];
                try reflexivity).
        contradiction. }
      unfold order_creation_error in E |- *. rewrite E.
      split; [split; [discriminate | intros H; inversion H; contradiction]
             | now right].
Qed.

(** Whatever the server answers to the statements of the transaction:
    the client is left without an open transaction, an answer other than
    200 means the table is as before, and the table never gains more than
    the one row, which is pending. *)
Lemma create_order_rows (env : Env) (now : Z) (provider : ProviderReply)
    (r : OrderReq.t) (amt : Q) (d : Db) (s : list Outcome) :
  let out :=
    respond (create_order X env now provider r amt) order_creation_error
      {| db := d; tx := None; script := s |} in
  tx (snd out) = None
  /\ (status_code (fst out) <> 200 -> orders (db (snd out)) = orders d)
  /\ (orders (db (snd out)) = orders d
      \/ exists pid amount,
           decimal_10_2 amt = Some amount
           /\ orders (db (snd out))
              = orders d ++
                [ {| Order.id := orders_id_seq d;
                     Order.customer_name := sanitized_name r;
                     Order.customer_email := sanitized_email X r;
                     Order.customer_phone := OrderReq.phone r;
                     Order.package_name := OrderReq.package r;
                     Order.amount := amount; Order.status := "pending";
                     Order.payment_id := pid; Order.created_at := now |} ])
  /\ (forall k link lid a tm hosted,
        fst out = Json 200 (BOrder k link lid a tm hosted) ->
        k = orders_id_seq d /\ a = amt /\ tm = negb (razorpay env)
        /\ hosted = true)
  /\ event_packages (db (snd out)) = event_packages d
  /\ speakers (db (snd out)) = speakers d.
Proof.
  unfold respond, create_order, request_payment_link, bind, try_catch, throw,
    pool_connect, client_begin, client_query, client_commit, client_rollback,
    run_stmt, next_outcome, insert_order, update_order_payment, ret,
    mark_failed.
  destruct (decimal_10_2 amt) as [amount|].
  all: repeat (first
    [ next_script
    | next_branch
    | progress cbn [script db tx pop set_tx set_db fst snd tl rolled_back
                    set_orders orders bump_orders_id_seq orders_id_seq
                    event_packages speakers] ]).
  all: cbn [negb].
  all: try match goal with
       | H : existsb _ _ = false |- _ =>
           rewrite ?map_app, ?(where_id_unused _ _ _ _ H)
       end.
  all: cbn [map]; unfold where_id; cbn [Order.id]; rewrite ?Z.eqb_refl.
  all: split; [reflexivity|]; split;
    [ intros Hc; first [reflexivity | exfalso; apply Hc; reflexivity] |].
  all: split;
    [first [left; reflexivity | right; do 2 eexists; split; reflexivity]|].
  all: split; [|split; reflexivity].
  all: intros k link lid a tm hosted E; try discriminate.
  all: try (inversion E; repeat split; reflexivity).
  all: exfalso; apply (f_equal status_code) in E;
    match type of E with
    | status_code (order_creation_error ?e) = _ =>
        destruct (order_creation_error_code e) as [_ [H|H]];
        rewrite H in E; discriminate
    end.
Qed.

End OrderCreationFailures.

(** ** What passes the validation *)

Section ValidatedFields.

Lemma digit_1_9_is_digit (c : ascii) : is_digit_1_9 c = true -> is_digit c = true.
Proof.
  unfold is_digit_1_9, is_digit. rewrite !andb_true_iff, !Nat.leb_le. lia.
Qed.

Lemma unsigned_phone_length (s : string) :
  (String.length s <= S (String.length (unsigned_phone s)))%nat.
Proof.
  destruct s as [|c r]; simpl; [lia|].
  destruct c as [[] [] [] [] [] [] [] []]; simpl; lia.
Qed.

Lemma phone_matches_unsigned (s : string) :
  phone_matches s =
  match unsigned_phone s with
  | String c r => is_digit_1_9 c && all_digits r && (String.length r <=? 15)%nat
  | EmptyString => false
  end.
Proof. reflexivity. Qed.


(** X1. The pattern [/^[\+]?[1-9][\d]{0,15}$/] lets through 1 to 17
    characters: an optional [+], then up to 16 decimal digits of which the
    first is not 0.  Such a number fits [customer_phone VARCHAR(20)]. *)
Theorem phone_matches_shape (s : string) :
  phone_matches s = true ->
  (1 <= String.length s <= 17)%nat
  /\ (unsigned_phone s = s \/ s = String "+"%char (unsigned_phone s))
  /\ all_digits (unsigned_phone s) = true
  /\ (1 <= String.length (unsigned_phone s) <= 16)%nat
  /\ exists c rest,
       unsigned_phone s = String c rest /\ is_digit_1_9 c = true.
Proof.
  rewrite phone_matches_unsigned.
  pose proof (unsigned_phone_length s) as Hlen.
  assert (Hsign : unsigned_phone s = s \/ s = String "+"%char (unsigned_phone s)).
  { destruct s as [|c r]; [now left|].
    destruct c as [[] [] [] [] [] [] [] []]; simpl; auto. }
  destruct (unsigned_phone s) as [|c r] eqn:E; [discriminate|].
  rewrite !andb_true_iff, Nat.leb_le. intros [[Hc Hr] Hn].
  simpl in Hlen |- *.
  assert (1 <= String.length s)%nat.
  { destruct s; [discriminate | simpl; lia]. }
  repeat split; try lia; try assumption.
  - now rewrite (digit_1_9_is_digit c Hc), Hr.
  - exists c, r. auto.
Qed.

Lemma ltrim_blank (s : string) : blank s = true -> ltrim s = "".
Proof.
  induction s as [|c r IH]; simpl; [reflexivity|].
  rewrite andb_true_iff. intros [Hc Hr]. rewrite Hc. auto.
Qed.

Lemma rtrim_blank (s : string) : blank s = true -> rtrim s = "".
Proof.
  induction s as [|c r IH]; simpl; [reflexivity|].
  rewrite andb_true_iff. intros [Hc Hr]. now rewrite (IH Hr), Hc.
Qed.

Lemma blank_app (a b : string) :
  blank (a ++ b) = blank a && blank b.
Proof.
  induction a as [|c r IH]; simpl; [reflexivity|].
  now rewrite IH, andb_assoc.
Qed.

Lemma ltrim_blank_app (a s : string) :
  blank a = true -> ltrim (a ++ s) = ltrim s.
Proof.
  induction a as [|c r IH]; simpl; [reflexivity|].
  rewrite andb_true_iff. intros [Hc Hr]. rewrite Hc. auto.
Qed.

Lemma rtrim_app_blank (s b : string) :
  blank b = true -> rtrim (s ++ b) = rtrim s.
Proof.
  intros Hb. induction s as [|c r IH]; simpl.
  - now apply rtrim_blank.
  - now rewrite IH.
Qed.

Lemma ltrim_app_not_blank (s b : string) :
  blank s = false -> ltrim (s ++ b) = (ltrim s ++ b)%string.
Proof.
  induction s as [|c r IH]; simpl; [discriminate|].
  destruct (is_space c); simpl; [exact IH | reflexivity].
Qed.

Lemma trim_padded (a s b : string) :
  blank a = true -> blank b = true -> trim (a ++ s ++ b) = trim s.
Proof.
  intros Ha Hb. unfold trim. rewrite (ltrim_blank_app a _ Ha).
  destruct (blank s) eqn:Hs.
  - rewrite (ltrim_blank s Hs).
    rewrite ltrim_blank; [reflexivity|]. now rewrite blank_app, Hs, Hb.
  - rewrite (ltrim_app_not_blank s b Hs). now apply rtrim_app_blank.
Qed.

Lemma rtrim_idempotent (s : string) : rtrim (rtrim s) = rtrim s.
Proof.
  induction s as [|c r IH]; simpl; [reflexivity|].
  destruct (rtrim r) as [|c' r'] eqn:E.
  - destruct (is_space c) eqn:Hc; simpl; [reflexivity | now rewrite Hc].
  - simpl in IH |- *. now rewrite IH.
Qed.

Lemma ltrim_head (s : string) :
  ltrim s = "" \/ exists c r, ltrim s = String c r /\ is_space c = false.
Proof.
  induction s as [|c r IH]; simpl; [now left|].
  destruct (is_space c) eqn:Hc; [exact IH | right; eauto].
Qed.

Lemma trim_idempotent (s : string) : trim (trim s) = trim s.
Proof.
  unfold trim. destruct (ltrim_head s) as [->|[c [r [-> Hc]]]]; [reflexivity|].
  assert (H : exists r', rtrim (String c r) = String c r').
  { simpl. destruct (rtrim r); [rewrite Hc|]; eauto. }
  destruct H as [r' E]. rewrite E. simpl ltrim. rewrite Hc.
  rewrite <- E. apply rtrim_idempotent.
Qed.

End ValidatedFields.

Section OrderRows.

Variable X : Externals.

Lemma create_order_code (env : Env) (now : Z) (provider : ProviderReply)
    (r : OrderReq.t) (amt : Q) (w : World) :
  In (status_code
        (fst (respond (create_order X env now provider r amt)
                order_creation_error w)))
     [200; 409; 500].
Proof.
  unfold respond.
  destruct (create_order X env now provider r amt w) as [[resp|e] w'] eqn:E.
  - left. revert E. unfold create_order, bind, try_catch, throw, ret.
    destruct (pool_connect w) as [[[]|e0] w0]; [|discriminate].
    destruct (client_begin w0) as [[[]|e1] w1].
    + destruct (client_query _ w1) as [[k|e2] w2].
      * destruct (request_payment_link env provider k w2) as [[l|e3] w3].
        -- destruct (client_commit w3) as [[[]|e4] w4].
           ++ intros E; inversion E; subst. reflexivity.
           ++ destruct (client_rollback w4) as [[[]|e5] w5]; discriminate.
        -- destruct (client_rollback w3) as [[[]|e5] w5]; discriminate.
      * destruct (client_rollback w2) as [[[]|e5] w5]; discriminate.
    + destruct (client_rollback w1) as [[[]|e5] w5]; discriminate.
  - simpl fst. destruct (order_creation_error_code e) as [_ [H|H]];
      rewrite H; simpl; auto.
Qed.

Lemma post_orders_flags (env : Env) (now : Z) (provider : ProviderReply)
    (r : OrderReq.t) (w : World) :
  tx w = None ->
  forall k link lid a tm hosted,
    fst (post_orders X env now provider r w)
    = Json 200 (BOrder k link lid a tm hosted) ->
    k = orders_id_seq (db w) /\ tm = negb (razorpay env) /\ hosted = true.
Proof.
  intros Htx k link lid a tm hosted. unfold post_orders, checkDbConnection.
  destruct (pool env); [|discriminate].
  destruct (validateOrder X r) as [|e errs]; [|discriminate].
  destruct w as [d t s]. simpl in Htx. subst t.
  destruct (create_order_rows X env now provider r (price_of r) d s)
    as [_ [_ [_ [Hok _]]]].
  intros E. destruct (Hok k link lid a tm hosted E) as [? [? [? ?]]]. auto.
Qed.

(** X2. [POST /api/orders] is all or nothing whatever the server does
    with its statements: the answer is 200, 400, 409, 500 or 503; unless
    it is 200 the table of orders is as it was; no transaction is left
    open; and the other tables are never touched. *)
Theorem post_orders_all_or_nothing (env : Env) (now : Z)
    (provider : ProviderReply) (r : OrderReq.t) (w : World) :
  tx w = None ->
  let out := post_orders X env now provider r w in
  In (status_code (fst out)) [200; 400; 409; 500; 503]
  /\ (status_code (fst out) <> 200 -> orders (db (snd out)) = orders (db w))
  /\ tx (snd out) = None
  /\ event_packages (db (snd out)) = event_packages (db w)
  /\ speakers (db (snd out)) = speakers (db w)
  /\ (forall k link lid a tm hosted,
        fst out = Json 200 (BOrder k link lid a tm hosted) ->
        k = orders_id_seq (db w) /\ tm = negb (razorpay env) /\ hosted = true).
Proof.
  intros Htx out. subst out. unfold post_orders, checkDbConnection.
  destruct (pool env).
  2:{ simpl. repeat split; auto; try discriminate; intuition congruence. }
  destruct (validateOrder X r) as [|e errs] eqn:Ev.
  2:{ simpl. repeat split; auto; try discriminate; intuition congruence. }
  destruct w as [d t s]. simpl in Htx. subst t.
  pose proof (create_order_code env now provider r (price_of r)
                {| db := d; tx := None; script := s |}) as Hcode.
  destruct (create_order_rows X env now provider r (price_of r) d s)
    as [Htx [Hsame [_ [Hok [Hp Hs]]]]].
  cbn [db orders_id_seq] in *.
  repeat split; try assumption.
  - simpl in Hcode |- *. intuition.
  - destruct (Hok k link lid a tm hosted H) as [? [? [? ?]]]. assumption.
  - destruct (Hok k link lid a tm hosted H) as [? [? [? ?]]]. assumption.
  - destruct (Hok k link lid a tm hosted H) as [? [? [? ?]]]. assumption.
Qed.


(** X4. Blanks around the name change nothing: the request is judged the
    same and the name is stored the same; trimming a trimmed name gives
    it back. *)
Theorem validateOrder_ignores_padding (r : OrderReq.t) (a b : string) :
  blank a = true ->
  blank b = true ->
  let padded :=
    {| OrderReq.name := a ++ OrderReq.name r ++ b;
       OrderReq.email := OrderReq.email r; OrderReq.phone := OrderReq.phone r;
       OrderReq.package := OrderReq.package r;
       OrderReq.price := OrderReq.price r |} in
  validateOrder X padded = validateOrder X r
  /\ sanitized_name padded = sanitized_name r
  /\ trim (sanitized_name r) = sanitized_name r.
Proof.
  intros Ha Hb padded. subst padded.
  unfold validateOrder, sanitized_name. cbn [OrderReq.name OrderReq.email
    OrderReq.phone OrderReq.package OrderReq.price].
  rewrite (trim_padded a (OrderReq.name r) b Ha Hb).
  repeat split. apply trim_idempotent.
Qed.

End OrderRows.

(** ** The channels and the table of orders *)

Section ChannelEffects.

Variable X : Externals.

Lemma progress_with_status (k : Z) (pid : option string) (o : Order.t) :
  progress o (where_id Order.id k (with_status "completed" pid) o).
Proof.
  unfold progress, where_id. destruct (Order.id o =? k); [right|now left].
  unfold same_purchase. simpl. repeat split.
Qed.

Lemma only_completes_refl (d : Db) : only_completes d d.
Proof.
  unfold only_completes. repeat split.
  induction (orders d); constructor; auto. now left.
Qed.

Lemma update_order_status_progress (pid key : Js.prim) (d : Db) :
  only_completes d (snd (update_order_status X "completed" pid key d)).
Proof.
  unfold update_order_status.
  destruct (key_of X key); try apply only_completes_refl.
  unfold only_completes. simpl. repeat split.
  induction (orders d); simpl; constructor; auto.
  apply progress_with_status.
Qed.

Lemma pool_query_update_progress (has_pool : bool) (pid key : Js.prim)
    (w : World) :
  only_completes (db w)
    (db (snd (pool_query has_pool (update_order_status X "completed" pid key) w))).
Proof.
  unfold pool_query, run_stmt.
  destruct has_pool; [|apply only_completes_refl].
  destruct (next_outcome w); [|apply only_completes_refl].
  pose proof (update_order_status_progress pid key (db w)) as E.
  destruct (update_order_status X "completed" pid key (db w)) as [res d'].
  exact E.
Qed.

Lemma fire_only_completes (env : Env) (c : Channel) (w : World) :
  only_completes (db w) (db (snd (fire X env c w))).
Proof.
  destruct c as [r|q|b]; simpl.
  - unfold verify_payment, checkDbConnection, respond, verify_payment_try,
      createHmac_sha256_hex, bind, throw, ret.
    destruct (pool env) eqn:Hp; [|apply only_completes_refl].
    destruct (RAZORPAY_KEY_SECRET env); [|apply only_completes_refl].
    destruct (Js.str_eq _ _); [|apply only_completes_refl].
    pose proof (pool_query_update_progress true (VerifyReq.paymentId r)
                  (VerifyReq.orderId r) w) as E.
    destruct (pool_query _ _ w) as [[u|e] w']; exact E.
  - unfold payment_success, respond, payment_success_try, bind, ret.
    destruct (_ && _); [|apply only_completes_refl].
    pose proof (pool_query_update_progress (pool env) (provider_payment_id q)
                  (Js.of_option (SuccessQuery.order_id q)) w) as E.
    destruct (pool_query _ _ w) as [[u|e] w']; exact E.
  - unfold razorpay_webhook, respond, webhook_body, property_of, bind, throw,
      ret.
    destruct (Js.str_eq _ _); [|apply only_completes_refl].
    destruct (Webhook.payload b) as [payload|]; [|apply only_completes_refl].
    destruct (Webhook.payment_link payload) as [link|];
      [|apply only_completes_refl].
    destruct (Js.truthy _); [|apply only_completes_refl].
    destruct (Webhook.payment payload) as [payment|];
      [|apply only_completes_refl].
    pose proof (pool_query_update_progress (pool env) (Webhook.id payment)
                  (notes_order_id link) w) as E.
    destruct (pool_query _ _ w) as [[u|e] w']; exact E.
Qed.

Lemma progress_completed (o o' : Order.t) :
  progress o o' -> is_completed o = true -> is_completed o' = true.
Proof.
  intros [->|[_ Hst]] Hc; [assumption|].
  unfold is_completed. now rewrite Hst.
Qed.

Lemma progress_sold (l l' : list Order.t) :
  Forall2 progress l l' ->
  (List.length (filter is_completed l) <= List.length (filter is_completed l'))%nat.
Proof.
  induction 1 as [|o o' l l' Ho Hl IH]; simpl; [lia|].
  destruct (is_completed o) eqn:E.
  - rewrite (progress_completed o o' Ho E). simpl. lia.
  - destruct (is_completed o'); simpl; lia.
Qed.

(** X5. Whatever the request and whatever the server does, a completion
    channel (manual verification, redirect callback, webhook) adds no
    order and removes none: row by row an order is left as it was or is
    the same purchase now [completed].  No order ever goes back to
    pending, so the number of sold tickets never drops, and no other table
    is touched. *)
Theorem channels_only_complete (env : Env) (c : Channel) (w : World) :
  let after := db (snd (fire X env c w)) in
  Forall2 progress (orders (db w)) (orders after)
  /\ map Order.id (orders after) = map Order.id (orders (db w))
  /\ (forall n o o',
        nth_error (orders (db w)) n = Some o ->
        nth_error (orders after) n = Some o' ->
        Order.status o = "completed" -> Order.status o' = "completed")
  /\ (tickets_sold (db w) <= tickets_sold after)%nat
  /\ orders_id_seq after = orders_id_seq (db w)
  /\ event_packages after = event_packages (db w)
  /\ speakers after = speakers (db w).
Proof.
  intros after. subst after.
  destruct (fire_only_completes env c w) as [Hp [Hseq [Hpk [_ [Hsp _]]]]].
  split; [exact Hp|]. split; [apply fire_keeps_orders|].
  split; [|split; [now apply progress_sold | auto]].
  intros n o o' Hn Hn' Hst.
  assert (Hgen : forall l l', Forall2 progress l l' -> forall n,
            nth_error l n = Some o -> nth_error l' n = Some o' ->
            progress o o').
  { induction 1 as [|x y l l' Hxy Hl IH]; intros [|m] H1 H2; simpl in *;
      try discriminate.
    - inversion H1; inversion H2; subst; assumption.
    - eapply IH; eassumption. }
  destruct (Hgen _ _ Hp n Hn Hn') as [->|[_ H]]; assumption.
Qed.

(** The run of a channel that carries a confirmation. *)
Lemma fire_confirmed_run (env : Env) (c : Channel) (k : Z)
    (pid : option string) (w : World) :
  pool env = true ->
  next_outcome w = Succeeds ->
  confirms X env c k pid ->
  exists resp,
    reports_completion env c resp
    /\ fire X env c w
       = (resp,
          set_db
            (set_orders
               (map (where_id Order.id k (with_status "completed" pid))
                  (orders (db w))) (db w)) (pop w)).
Proof.
  intros Hpool Hnext Hc. destruct c as [r|q|b].
  - apply confirms_manual in Hc.
    destruct Hc as [secret [Hsec [Hsig [Hkey Hpid]]]]. subst pid.
    cbn [fire reports_completion].
    eexists. split; [|apply (verify_payment_match X env secret r w k); auto].
    reflexivity.
  - apply confirms_redirect in Hc.
    destruct Hc as [Hpaid [Hoid [Hkey Hpid]]]. subst pid.
    cbn [fire reports_completion].
    eexists. split; [|apply (payment_success_paid X env q w k); auto].
    reflexivity.
  - apply confirms_webhook in Hc.
    destruct Hc as [Hev [payload [link [payment
      [Hpl [Hlink [Hpay [Hoid [Hkey Hpid]]]]]]]]]. subst pid.
    cbn [fire reports_completion].
    eexists. split;
      [|apply (webhook_paid X env b w payload link payment k); auto].
    reflexivity.
Qed.

Lemma with_status_twice (k : Z) (pid : option string) (l : list Order.t) :
  map (where_id Order.id k (with_status "completed" pid))
    (map (where_id Order.id k (with_status "completed" pid)) l)
  = map (where_id Order.id k (with_status "completed" pid)) l.
Proof.
  rewrite map_map. apply map_ext. intros o. unfold where_id.
  destruct (Order.id o =? k) eqn:E; simpl; now rewrite E.
Qed.

Lemma where_id_absent {R} (rid : R -> Z) (k : Z) (f : R -> R) (l : list R) :
  (forall r, In r l -> rid r <> k) -> map (where_id rid k f) l = l.
Proof.
  induction l as [|a l IH]; intros Hne; [reflexivity|].
  simpl. unfold where_id at 1.
  destruct (Z.eqb_spec (rid a) k) as [E|_].
  - now destruct (Hne a (or_introl eq_refl)).
  - f_equal. apply IH. intros r Hr. apply Hne. now right.
Qed.

(** X6. A confirmation that arrives twice does nothing the second time:
    the channel reports the completion again and the store is the one
    the first delivery left. *)
Theorem confirmation_twice (env : Env) (c : Channel) (k : Z)
    (pid : option string) (w : World) :
  pool env = true ->
  script w = [] ->
  confirms X env c k pid ->
  let once := fire X env c w in
  let twice := fire X env c (snd once) in
  fst twice = fst once /\ snd twice = snd once.
Proof.
  intros Hpool Hs Hc once twice.
  assert (Hn : next_outcome w = Succeeds)
    by (unfold next_outcome; now rewrite Hs).
  destruct (fire_confirmed_run env c k pid w Hpool Hn Hc) as [r1 [R1 E1]].
  subst once twice. rewrite E1. cbn [fst snd].
  set (w1 := set_db _ (pop w)).
  assert (Hn1 : next_outcome w1 = Succeeds).
  { unfold next_outcome, w1. simpl. now rewrite Hs. }
  destruct (fire_confirmed_run env c k pid w1 Hpool Hn1 Hc) as [r2 [R2 E2]].
  rewrite E2. cbn [fst snd]. split.
  - destruct c; simpl in R1, R2; congruence.
  - unfold w1. destruct w as [d t s]. simpl in Hs. subst s.
    unfold set_db, pop, set_orders. simpl. now rewrite with_status_twice.
Qed.

(** X7. A confirmation for an order that is not in the table is reported
    as a completion all the same, and the table stays as it was: a
    success answer does not say that an order was found. *)
Theorem confirmation_of_unknown_order (env : Env) (c : Channel) (k : Z)
    (pid : option string) (w : World) :
  pool env = true ->
  next_outcome w = Succeeds ->
  confirms X env c k pid ->
  (forall o, In o (orders (db w)) -> Order.id o <> k) ->
  reports_completion env c (fst (fire X env c w))
  /\ db (snd (fire X env c w)) = db w.
Proof.
  intros Hpool Hn Hc Hno.
  destruct (fire_confirmed_run env c k pid w Hpool Hn Hc) as [r [R E]].
  rewrite E. cbn [fst snd]. split; [exact R|].
  rewrite (where_id_absent Order.id k _ _ Hno).
  destruct w as [[o s1 p s2 sp s3] t s]. reflexivity.
Qed.

(** X8. Without a pool the guarded routes answer 503 before they look at
    the request and leave the world alone.  The two payment callbacks
    have no guard: a paid redirect is sent to [payment=error] and a paid
    webhook gets 500, while any other webhook event still gets 200. *)
Theorem without_pool (env : Env) (now : Z) (provider : ProviderReply)
    (r : OrderReq.t) (v : VerifyReq.t) (q : SuccessQuery.t)
    (b : Webhook.Body) (w : World) :
  pool env = false ->
  (status_code (fst (post_orders X env now provider r w)) = 503
   /\ snd (post_orders X env now provider r w) = w)
  /\ (status_code (fst (verify_payment X env v w)) = 503
      /\ snd (verify_payment X env v w) = w)
  /\ (status_code (fst (get_packages env w)) = 503
      /\ snd (get_packages env w) = w)
  /\ (status_code (fst (get_speakers env w)) = 503
      /\ snd (get_speakers env w) = w)
  /\ snd (payment_success X env q w) = w
  /\ (SuccessQuery.razorpay_payment_link_status q = Some "paid" ->
      Js.truthy (Js.of_option (SuccessQuery.order_id q)) = true ->
      fst (payment_success X env q w)
      = redirect_to env "error" (Js.of_option (SuccessQuery.order_id q)))
  /\ snd (razorpay_webhook X env b w) = w
  /\ (Webhook.event b <> Js.Str "payment_link.paid" ->
      fst (razorpay_webhook X env b w) = Json 200 BStatusOk)
  /\ (forall payload link payment,
        Webhook.event b = Js.Str "payment_link.paid" ->
        Webhook.payload b = Some payload ->
        Webhook.payment_link payload = Some link ->
        Webhook.payment payload = Some payment ->
        Js.truthy (notes_order_id link) = true ->
        fst (razorpay_webhook X env b w)
        = Json 500 (BError "Webhook processing failed")).
Proof.
  intros Hpool.
  unfold post_orders, verify_payment, get_packages, get_speakers,
    checkDbConnection. rewrite Hpool. cbn [fst snd status_code].
  do 4 (split; [split; reflexivity|]).
  unfold payment_success, respond, payment_success_try, razorpay_webhook,
    webhook_body, property_of, bind, throw, ret, pool_query.
  rewrite Hpool.
  split; [destruct (_ && _); reflexivity|].
  split.
  { intros Hpaid Hoid. apply paid_status in Hpaid. now rewrite Hpaid, Hoid. }
  split.
  { destruct (Js.str_eq _ _); [|reflexivity].
    destruct (Webhook.payload b) as [payload|]; [|reflexivity].
    destruct (Webhook.payment_link payload) as [link|]; [|reflexivity].
    destruct (Js.truthy _); [|reflexivity].
    destruct (Webhook.payment payload); reflexivity. }
  split.
  { intros Hne. apply (str_eq_false "payment_link.paid") in Hne.
    now rewrite Hne. }
  intros payload link payment Hev Hpl Hlink Hpay Hoid.
  apply (str_eq_true "payment_link.paid") in Hev.
  rewrite Hev, Hpl. simpl. now rewrite Hlink, Hoid, Hpay.
Qed.

End ChannelEffects.

(** ** The admin router *)

Section AdminRouter.

Variable X : Externals.

Lemma admin_route_unauthorized (env : Env) (adminToken : option string)
    (body : M Response) (w : World) :
  ~ authorized X env adminToken ->
  exists message,
    admin_route X env adminToken body w = (Json 401 (BError message), w).
Proof.
  intros Hno. unfold admin_route, verifyAdminToken.
  destruct adminToken as [token|]; [|eauto].
  destruct (String.eqb token "") eqn:Ee; [eauto|].
  destruct (jwt_verify X (JWT_SECRET env) token) eqn:Ej; [|eauto].
  exfalso. apply Hno. exists token. repeat split; auto.
  now apply String.eqb_neq.
Qed.

Lemma admin_request_is_route (env : Env) (now : Z) (adminToken : option string)
    (a : AdminRequest) :
  exists body,
    admin_request X env now adminToken a = admin_route X env adminToken body.
Proof. destruct a; simpl; eexists; reflexivity. Qed.

(** X9. Every admin route stops at the cookie check: without a token
    that [jwt.verify] accepts the answer is 401 and nothing is read or
    written; with one but without a pool it is 503, again with no
    effect. *)
Theorem admin_routes_are_guarded (env : Env) (now : Z)
    (adminToken : option string) (a : AdminRequest) (w : World) :
  (~ authorized X env adminToken ->
   exists message,
     admin_request X env now adminToken a w = (Json 401 (BError message), w))
  /\ (authorized X env adminToken -> admin_pool env = false ->
      admin_request X env now adminToken a w
      = (Json 503 (BError "Database connection not available"), w))
  /\ (adminToken = None \/ adminToken = Some "" ->
      admin_request X env now adminToken a w
      = (Json 401 (BError "No token provided"), w)).
Proof.
  destruct (admin_request_is_route env now adminToken a) as [body ->].
  split; [apply admin_route_unauthorized|]. split.
  - intros [token [-> [Hne Hjwt]]] Hpool.
    unfold admin_route, verifyAdminToken, admin_checkDbConnection.
    apply String.eqb_neq in Hne. now rewrite Hne, Hjwt, Hpool.
  - intros [->| ->]; reflexivity.
Qed.

End AdminRouter.

Section CatalogInvariant.

Context {R : Type} `{CatalogLaws R}.

Lemma stays_deleted_all (l : list R) : Forall2 stays_deleted l l.
Proof. induction l; constructor; auto. split; auto. Qed.

Lemma grows_from_refl (l : list R) : grows_from l l.
Proof.
  exists l, []. split; [now rewrite app_nil_r | apply stays_deleted_all].
Qed.

Lemma stays_deleted_trans (l1 l2 l3 : list R) :
  Forall2 stays_deleted l1 l2 -> Forall2 stays_deleted l2 l3 ->
  Forall2 stays_deleted l1 l3.
Proof.
  intros H12. revert l3.
  induction H12 as [|a b l1 l2 Hab H12 IH]; intros l3 H23; inversion H23; subst.
  - constructor.
  - constructor; [|now apply IH].
    destruct Hab as [Hi Ha].
    match goal with Hb : stays_deleted b _ |- _ => destruct Hb as [Hi' Ha'] end.
    split; [congruence | auto].
Qed.

Lemma grows_from_trans (l1 l2 l3 : list R) :
  grows_from l1 l2 -> grows_from l2 l3 -> grows_from l1 l3.
Proof.
  intros [k1 [a1 [-> H1]]] [k2 [a2 [-> H2]]].
  apply Forall2_app_inv_l in H2. destruct H2 as [k1' [a1' [Hk [_ ->]]]].
  exists k1', (a1' ++ a2). split; [now rewrite app_assoc|].
  eapply stays_deleted_trans; eassumption.
Qed.

Lemma grows_from_app (l added : list R) : grows_from l (l ++ added).
Proof. exists l, added. split; [reflexivity | apply stays_deleted_all]. Qed.

(** An [UPDATE] that writes neither [id] nor [is_active = true]. *)
Lemma grows_from_update (k : Z) (f : R -> R) (l : list R) :
  (forall r, stays_deleted r (f r)) ->
  grows_from l (map (where_id row_id k f) l).
Proof.
  intros Hf. exists (map (where_id row_id k f) l), [].
  split; [now rewrite app_nil_r|].
  induction l as [|a l IH]; simpl; constructor; auto.
  unfold where_id. destruct (row_id a =? k); [apply Hf | split; auto].
Qed.

Lemma stays_deleted_deactivate (r : R) : stays_deleted r (deactivate r).
Proof.
  split; [apply deactivate_id | intros _; apply deactivate_is_active].
Qed.

Lemma grows_from_nth (before after : list R) (n : nat) (r : R) :
  grows_from before after ->
  nth_error before n = Some r ->
  exists r', nth_error after n = Some r' /\ stays_deleted r r'.
Proof.
  intros [kept [added [-> Hk]]]. revert n.
  induction Hk as [|a b l l' Hab Hl IH]; intros n Hn.
  - destruct n; discriminate.
  - destruct n as [|n]; simpl in *.
    + inversion Hn; subst. eauto.
    + now apply IH.
Qed.

End CatalogInvariant.

Section AdminSession.

Variable X : Externals.

Lemma catalog_step_refl (d : Db) : catalog_step d d.
Proof.
  unfold catalog_step. repeat split; apply grows_from_refl.
Qed.

Lemma catalog_step_trans (d1 d2 d3 : Db) :
  catalog_step d1 d2 -> catalog_step d2 d3 -> catalog_step d1 d3.
Proof.
  intros [P1 [S1 [O1 Q1]]] [P2 [S2 [O2 Q2]]].
  unfold catalog_step. repeat split; try congruence.
  - eapply grows_from_trans; eassumption.
  - eapply grows_from_trans; eassumption.
Qed.

Lemma pool_query_step {A} (has_pool : bool) (s : Stmt A) (w : World) :
  (forall d, catalog_step d (snd (s d))) ->
  catalog_step (db w) (db (snd (pool_query has_pool s w))).
Proof.
  intros Hs. unfold pool_query, run_stmt.
  destruct has_pool; [|apply catalog_step_refl].
  destruct (next_outcome w); [|apply catalog_step_refl].
  specialize (Hs (db w)). destruct (s (db w)) as [res d']. exact Hs.
Qed.

(** A route whose body is one statement and its answer. *)
Lemma one_query_step {A} (env : Env) (adminToken : option string)
    (s : Stmt A) (answer : A -> Response) (w : World) :
  (forall d, catalog_step d (snd (s d))) ->
  catalog_step (db w)
    (db (snd (admin_route X env adminToken
                (a <- pool_query (admin_pool env) s ;; ret (answer a)) w))).
Proof.
  intros Hs.
  destruct (admin_route_cases X env adminToken
              (a <- pool_query (admin_pool env) s ;; ret (answer a)) w)
    as [[c [m E]]|[_ E]]; rewrite E; [apply catalog_step_refl|].
  unfold respond, bind, ret.
  pose proof (pool_query_step (admin_pool env) s w Hs) as Hq.
  destruct (pool_query (admin_pool env) s w) as [[a|e] w']; exact Hq.
Qed.

(** A route whose body is two statements, the second fed by the first. *)
Lemma two_queries_step {A B} (env : Env) (adminToken : option string)
    (s1 : Stmt A) (s2 : A -> Stmt B) (answer : A -> B -> Response)
    (w : World) :
  (forall d, catalog_step d (snd (s1 d))) ->
  (forall a d, catalog_step d (snd (s2 a d))) ->
  catalog_step (db w)
    (db (snd (admin_route X env adminToken
                (a <- pool_query (admin_pool env) s1 ;;
                 b <- pool_query (admin_pool env) (s2 a) ;;
                 ret (answer a b)) w))).
Proof.
  intros H1 H2.
  destruct (admin_route_cases X env adminToken
              (a <- pool_query (admin_pool env) s1 ;;
               b <- pool_query (admin_pool env) (s2 a) ;;
               ret (answer a b)) w)
    as [[c [m E]]|[_ E]]; rewrite E; [apply catalog_step_refl|].
  unfold respond, bind, ret.
  pose proof (pool_query_step (admin_pool env) s1 w H1) as Hq1.
  destruct (pool_query (admin_pool env) s1 w) as [[a|e] w1]; [|exact Hq1].
  pose proof (pool_query_step (admin_pool env) (s2 a) w1 (H2 a)) as Hq2.
  simpl in Hq1.
  destruct (pool_query (admin_pool env) (s2 a) w1) as [[b|e] w2];
    eapply catalog_step_trans; eassumption.
Qed.

Lemma read_only_step {A} (q : Db -> A) (d : Db) :
  catalog_step d (snd ((fun d => (Ok (q d), d)) d)).
Proof. apply catalog_step_refl. Qed.

Lemma packages_step (d : Db) (l : list Package.t) :
  grows_from (event_packages d) l ->
  catalog_step d (set_event_packages l d).
Proof.
  intros Hg. unfold catalog_step. simpl. repeat split; auto.
  apply grows_from_refl.
Qed.

Lemma speakers_step (d : Db) (l : list Speaker.t) :
  grows_from (speakers d) l -> catalog_step d (set_speakers l d).
Proof.
  intros Hg. unfold catalog_step. simpl. repeat split; auto.
  apply grows_from_refl.
Qed.

Lemma update_packages_where_step (id : string) (f : Package.t -> Package.t)
    (d : Db) :
  (forall p, stays_deleted p (f p)) ->
  catalog_step d (snd (update_packages_where X id f d)).
Proof.
  intros Hf. unfold update_packages_where.
  destruct (key_of X (Js.Str id)); try apply catalog_step_refl.
  simpl. apply packages_step. exact (grows_from_update k f _ Hf).
Qed.

Lemma update_package_step (now : Z) (id : string) (r : PackageReq.t)
    (d : Db) :
  catalog_step d (snd (update_package X now id r d)).
Proof.
  unfold update_package.
  destruct (decimal_10_2 _); [|apply catalog_step_refl].
  apply update_packages_where_step. intros p. split; auto.
Qed.

Lemma update_speakers_where_step (id : string) (f : Speaker.t -> Speaker.t)
    (d : Db) :
  (forall p, stays_deleted p (f p)) ->
  catalog_step d (snd (update_speakers_where X id f d)).
Proof.
  intros Hf. unfold update_speakers_where.
  destruct (key_of X (Js.Str id)); try apply catalog_step_refl.
  simpl. apply speakers_step. exact (grows_from_update k f _ Hf).
Qed.

Lemma soft_delete_package_step (id : string) (d : Db) :
  catalog_step d (snd (soft_delete_package X id d)).
Proof.
  unfold soft_delete_package.
  destruct (key_of X (Js.Str id)); try apply catalog_step_refl.
  simpl. apply packages_step.
  exact (grows_from_update k deactivate _ stays_deleted_deactivate).
Qed.

Lemma soft_delete_speaker_step (id : string) (d : Db) :
  catalog_step d (snd (soft_delete_speaker X id d)).
Proof.
  unfold soft_delete_speaker.
  destruct (key_of X (Js.Str id)); try apply catalog_step_refl.
  simpl. apply speakers_step.
  exact (grows_from_update k deactivate _ stays_deleted_deactivate).
Qed.

Lemma insert_package_step (now : Z) (r : PackageReq.t) (ord : option Z)
    (d : Db) :
  catalog_step d (snd (insert_package now r ord d)).
Proof.
  unfold insert_package.
  destruct (decimal_10_2 _); [|apply catalog_step_refl].
  destruct (existsb _ _); simpl.
  - unfold catalog_step. simpl. repeat split; apply grows_from_refl.
  - unfold catalog_step. simpl. repeat split; try apply grows_from_refl.
    apply grows_from_app.
Qed.

Lemma insert_speaker_step (now : Z) (r : SpeakerReq.t) (ord : option Z)
    (d : Db) :
  catalog_step d (snd (insert_speaker now r ord d)).
Proof.
  unfold insert_speaker. destruct (existsb _ _); simpl.
  - unfold catalog_step. simpl. repeat split; apply grows_from_refl.
  - unfold catalog_step. simpl. repeat split; try apply grows_from_refl.
    apply grows_from_app.
Qed.

Lemma admin_request_step (env : Env) (now : Z) (adminToken : option string)
    (a : AdminRequest) (w : World) :
  catalog_step (db w) (db (snd (admin_request X env now adminToken a w))).
Proof.
  destruct a; simpl.
  - apply (two_queries_step env adminToken select_total_stats
             (fun _ => select_today_sales (date_of now))
             (fun t s => Json 200 (BStats (fst t) (parseFloat_or_0 (snd t)) s)));
      intros; apply catalog_step_refl.
  - apply (one_query_step env adminToken select_active_packages
             (fun rows => Json 200 (BPackages rows))).
    intros; apply catalog_step_refl.
  - apply (two_queries_step env adminToken select_next_package_order
             (fun n => insert_package now r (Some n))
             (fun _ row => Json 200 (BPackage row))).
    + intros; apply catalog_step_refl.
    + intros; apply insert_package_step.
  - apply (one_query_step env adminToken (update_package X now id r)
             (fun _ => Json 200 BSuccess)).
    apply update_package_step.
  - apply (one_query_step env adminToken (soft_delete_package X id)
             (fun _ => Json 200 BSuccess)).
    apply soft_delete_package_step.
  - apply (one_query_step env adminToken
             (update_packages_where X id (with_package_order display_order))
             (fun _ => Json 200 BSuccess)).
    intros d. apply update_packages_where_step. intros p. split; auto.
  - apply (one_query_step env adminToken select_active_speakers
             (fun rows => Json 200 (BSpeakers rows))).
    intros; apply catalog_step_refl.
  - apply (two_queries_step env adminToken select_next_speaker_order
             (fun n => insert_speaker now r (Some n))
             (fun _ row => Json 200 (BSpeaker row))).
    + intros; apply catalog_step_refl.
    + intros; apply insert_speaker_step.
  - apply (one_query_step env adminToken
             (update_speakers_where X id (with_speaker_fields now r))
             (fun _ => Json 200 BSuccess)).
    intros d. apply update_speakers_where_step. intros p. split; auto.
  - apply (one_query_step env adminToken (soft_delete_speaker X id)
             (fun _ => Json 200 BSuccess)).
    apply soft_delete_speaker_step.
  - apply (one_query_step env adminToken
             (update_speakers_where X id (with_speaker_order display_order))
             (fun _ => Json 200 BSuccess)).
    intros d. apply update_speakers_where_step. intros p. split; auto.
Qed.

Lemma admin_session_step (env : Env)
    (requests : list (Z * option string * AdminRequest)) (w : World) :
  catalog_step (db w) (db (admin_session X env requests w)).
Proof.
  revert w. induction requests as [|[[now tok] a] rest IH]; intros w; simpl.
  - apply catalog_step_refl.
  - eapply catalog_step_trans; [apply admin_request_step | apply IH].
Qed.

(** X10. Through any sequence of admin requests on the catalog, with any
    cookies and whatever the server does with the statements, a package
    or speaker stays in its table under its identifier, and one that has
    been deleted stays deleted: no route switches [is_active] back on.
    The orders are not touched. *)
Theorem deleted_rows_stay_deleted (env : Env)
    (requests : list (Z * option string * AdminRequest)) (w : World) :
  let after := db (admin_session X env requests w) in
  (forall n p, nth_error (event_packages (db w)) n = Some p ->
     exists p',
       nth_error (event_packages after) n = Some p'
       /\ Package.id p' = Package.id p
       /\ (Package.is_active p = false -> Package.is_active p' = false))
  /\ (forall n p, nth_error (speakers (db w)) n = Some p ->
        exists p',
          nth_error (speakers after) n = Some p'
          /\ Speaker.id p' = Speaker.id p
          /\ (Speaker.is_active p = false -> Speaker.is_active p' = false))
  /\ orders after = orders (db w).
Proof.
  intros after. subst after.
  destruct (admin_session_step env requests w) as [Hp [Hs [Ho _]]].
  split; [|split; [|exact Ho]].
  - intros n p Hn. destruct (grows_from_nth _ _ n p Hp Hn) as [p' [Hn' [Hi Ha]]].
    exists p'. auto.
  - intros n p Hn. destruct (grows_from_nth _ _ n p Hs Hn) as [p' [Hn' [Hi Ha]]].
    exists p'. auto.
Qed.

End AdminSession.

(** ** Editing, creating and deleting catalog rows *)

Section CatalogEdits.

Context {R : Type} `{CatalogLaws R}.

Lemma keeps_place_where (k : Z) (f : R -> R) :
  keeps_place f -> keeps_place (where_id row_id k f).
Proof.
  intros Hf r. unfold where_id. destruct (row_id r =? k); [apply Hf | auto].
Qed.

Lemma display_le_keeps_place (f : R -> R) (a b : R) :
  keeps_place f -> display_le (f a) (f b) = display_le a b.
Proof.
  intros Hf. unfold display_le.
  destruct (Hf a) as [-> [-> _]]. destruct (Hf b) as [-> [-> _]]. reflexivity.
Qed.

Lemma insert_row_map (f : R -> R) (a : R) (l : list R) :
  keeps_place f -> insert_row (f a) (map f l) = map f (insert_row a l).
Proof.
  intros Hf. induction l as [|b l IH]; simpl; [reflexivity|].
  rewrite (display_le_keeps_place f a b Hf).
  destruct (display_le a b); simpl; [reflexivity | now rewrite IH].
Qed.

Lemma order_by_display_map (f : R -> R) (l : list R) :
  keeps_place f -> order_by_display (map f l) = map f (order_by_display l).
Proof.
  intros Hf. induction l as [|a l IH]; simpl; [reflexivity|].
  rewrite IH. now apply insert_row_map.
Qed.

Lemma filter_active_map (f : R -> R) (l : list R) :
  keeps_place f -> filter row_is_active (map f l) = map f (filter row_is_active l).
Proof.
  intros Hf. induction l as [|a l IH]; simpl; [reflexivity|].
  destruct (Hf a) as [_ [_ ->]].
  destruct (row_is_active a); simpl; now rewrite IH.
Qed.

(** An edit that keeps the place of every row edits the listing in
    place. *)
Lemma select_active_map (f : R -> R) (l : list R) :
  keeps_place f -> select_active (map f l) = map f (select_active l).
Proof.
  intros Hf. unfold select_active.
  rewrite (filter_active_map f l Hf). now apply order_by_display_map.
Qed.

Lemma map_id_keeps_place (f : R -> R) (l : list R) :
  keeps_place f -> map row_id (map f l) = map row_id l.
Proof.
  intros Hf. rewrite map_map. apply map_ext. intros r. apply Hf.
Qed.

Lemma max_display_order_last (l : list R) (x : R) (n : Z) :
  row_display_order x = Some n ->
  (forall r m, In r l -> row_display_order r = Some m -> m <= n) ->
  max_display_order (l ++ [x]) = Some n.
Proof.
  intros Hx. induction l as [|a l IH]; intros Hle; simpl.
  - now rewrite Hx.
  - rewrite IH by (intros r m Hr; apply Hle; now right).
    destruct (row_display_order a) as [m|] eqn:Ea; [|reflexivity].
    f_equal. apply Z.max_r. apply (Hle a m); [now left | assumption].
Qed.

(** After a creation the next display order is one further. *)
Lemma next_order_after_creation (l : list R) (x : R) :
  row_display_order x = Some (next_order l) ->
  next_order (l ++ [x]) = next_order l + 1.
Proof.
  intros Hx. unfold next_order at 1.
  rewrite (max_display_order_last l x (next_order l) Hx); [reflexivity|].
  intros r m Hr Hm. pose proof (next_order_above l r m Hr Hm). lia.
Qed.

Lemma next_order_le (l : list R) (bound : Z) :
  1 <= bound ->
  (forall r m, In r l -> row_display_order r = Some m -> m < bound) ->
  next_order l <= bound.
Proof.
  intros Hb Hl. unfold next_order.
  destruct (max_display_order l) as [m|] eqn:Em; [|lia].
  destruct (max_display_order_attained _ _ Em) as [r [Hr Hm]].
  pose proof (Hl r m Hr Hm). lia.
Qed.

(** A list splits in one way into rows with a display order followed by
    rows without. *)
Lemma split_by_nulls (a b a' b' : list R) :
  a ++ b = a' ++ b' ->
  (forall r, In r a -> row_display_order r <> None) ->
  (forall r, In r a' -> row_display_order r <> None) ->
  (forall r, In r b -> row_display_order r = None) ->
  (forall r, In r b' -> row_display_order r = None) ->
  a = a' /\ b = b'.
Proof.
  revert a'. induction a as [|x a IH]; intros a' E Ha Ha' Hb Hb'.
  - destruct a' as [|y a']; [auto|]. simpl in E. subst b. exfalso.
    apply (Ha' y (or_introl eq_refl)). apply Hb. now left.
  - destruct a' as [|y a'].
    + simpl in E. subst b'. exfalso.
      apply (Ha x (or_introl eq_refl)). apply Hb'. now left.
    + simpl in E. injection E as -> E.
      destruct (IH a' E) as [-> ->]; auto.
      * intros r Hr. apply Ha. now right.
      * intros r Hr. apply Ha'. now right.
Qed.

(** Two rows created one after the other take their places side by
    side. *)
Lemma placed_twice (before : list R) (row1 row2 : R) :
  placed before row1 -> placed (before ++ [row1]) row2 ->
  exists ordered nulls,
    select_active before = ordered ++ nulls
    /\ (forall r, In r ordered -> row_display_order r <> None)
    /\ (forall r, In r nulls -> row_display_order r = None)
    /\ select_active ((before ++ [row1]) ++ [row2])
       = ordered ++ row1 :: row2 :: nulls.
Proof.
  intros [_ [[n [Hn _]] [o1 [n1 [E1 [Ho1 [Hn1 L1]]]]]]]
         [_ [_ [o2 [n2 [E2 [Ho2 [Hn2 L2]]]]]]].
  exists o1, n1. repeat split; try assumption.
  rewrite L1 in E2.
  change (o1 ++ row1 :: n1) with (o1 ++ [row1] ++ n1) in E2.
  rewrite app_assoc in E2.
  destruct (split_by_nulls _ _ _ _ E2) as [Eo En]; try assumption.
  - intros r Hr. apply in_app_or in Hr.
    destruct Hr as [Hr|[<-|[]]]; [now apply Ho1 | now rewrite Hn].
  - rewrite L2, <- Eo, <- En, <- app_assoc. reflexivity.
Qed.

Lemma soft_delete_twice (k : Z) (l : list R) :
  (forall r : R, deactivate (deactivate r) = deactivate r) ->
  soft_delete k (soft_delete k l) = soft_delete k l.
Proof.
  intros Hd. unfold soft_delete. rewrite map_map. apply map_ext.
  intros r. unfold where_id. destruct (row_id r =? k) eqn:E.
  - now rewrite deactivate_id, E, Hd.
  - now rewrite E.
Qed.

End CatalogEdits.

Section CatalogEditEndpoints.

Variable X : Externals.

Lemma update_package_done (env : Env) (now : Z) (adminToken : option string)
    (id : string) (r : PackageReq.t) (price : Q) (w : World) (k : Z) :
  authorized X env adminToken -> admin_pool env = true ->
  next_outcome w = Succeeds -> int4in X id = Some k ->
  decimal_10_2 (PackageReq.price r) = Some price ->
  admin_update_package X env now adminToken id r w =
    (Json 200 BSuccess,
     set_db
       (set_event_packages
          (map (where_id Package.id k (with_package_fields now r price))
             (event_packages (db w))) (db w)) (pop w)).
Proof.
  intros Ha Hp Hn Hk Hprice. unfold admin_update_package.
  rewrite admin_route_authorized by assumption.
  unfold respond, bind, pool_query, run_stmt, update_package,
    update_packages_where, ret.
  now rewrite Hp, Hn, Hprice, (key_of_text X (Js.Str id) id eq_refl), Hk.
Qed.

Lemma update_speaker_done (env : Env) (now : Z) (adminToken : option string)
    (id : string) (r : SpeakerReq.t) (w : World) (k : Z) :
  authorized X env adminToken -> admin_pool env = true ->
  next_outcome w = Succeeds -> int4in X id = Some k ->
  admin_update_speaker X env now adminToken id r w =
    (Json 200 BSuccess,
     set_db
       (set_speakers
          (map (where_id Speaker.id k (with_speaker_fields now r))
             (speakers (db w))) (db w)) (pop w)).
Proof.
  intros Ha Hp Hn Hk. unfold admin_update_speaker.
  rewrite admin_route_authorized by assumption.
  unfold respond, bind, pool_query, run_stmt, update_speakers_where, ret.
  now rewrite Hp, Hn, (key_of_text X (Js.Str id) id eq_refl), Hk.
Qed.

Lemma with_package_fields_keeps_place (now : Z) (r : PackageReq.t)
    (price : Q) :
  keeps_place (with_package_fields now r price).
Proof. intros p. repeat split. Qed.

Lemma with_speaker_fields_keeps_place (now : Z) (r : SpeakerReq.t) :
  keeps_place (with_speaker_fields now r).
Proof. intros p. repeat split. Qed.

(** X11. Editing a package or a speaker, under an identifier that the
    database reads as the integer [k], replaces its fields and stamps
    [updated_at], and moves nothing: the price is stored rounded to the
    cent, the public listing is the old one with the edited row in its
    old place, a deleted row stays out of it, and every other row is as
    it was. *)
Theorem update_keeps_the_place (env : Env) (now : Z)
    (adminToken : option string) (id : string) (rp : PackageReq.t)
    (rs : SpeakerReq.t) (price : Q) (w : World) (k : Z) :
  authorized X env adminToken ->
  admin_pool env = true ->
  next_outcome w = Succeeds ->
  int4in X id = Some k ->
  decimal_10_2 (PackageReq.price rp) = Some price ->
  (let out := admin_update_package X env now adminToken id rp w in
   exists edit,
     fst out = Json 200 BSuccess
     /\ event_packages (db (snd out)) = map edit (event_packages (db w))
     /\ select_active (event_packages (db (snd out)))
        = map edit (select_active (event_packages (db w)))
     /\ map Package.id (select_active (event_packages (db (snd out))))
        = map Package.id (select_active (event_packages (db w)))
     /\ (forall p, Package.id p <> k -> edit p = p)
     /\ (forall p, Package.id p = k ->
         edit p =
           {| Package.id := k;
              Package.name := PackageReq.name rp;
              Package.category := PackageReq.category rp;
              Package.price := price;
              Package.features := PackageReq.features rp;
              Package.package_type := PackageReq.package_type rp;
              Package.display_order := Package.display_order p;
              Package.is_active := Package.is_active p;
              Package.created_at := Package.created_at p;
              Package.updated_at := now |}))
  /\ (let out := admin_update_speaker X env now adminToken id rs w in
      exists edit,
        fst out = Json 200 BSuccess
        /\ speakers (db (snd out)) = map edit (speakers (db w))
        /\ select_active (speakers (db (snd out)))
           = map edit (select_active (speakers (db w)))
        /\ map Speaker.id (select_active (speakers (db (snd out))))
           = map Speaker.id (select_active (speakers (db w)))
        /\ (forall p, Speaker.id p <> k -> edit p = p)
        /\ (forall p, Speaker.id p = k ->
            edit p =
              {| Speaker.id := k;
                 Speaker.name := SpeakerReq.name rs;
                 Speaker.title := SpeakerReq.title rs;
                 Speaker.company := SpeakerReq.company rs;
                 Speaker.bio := SpeakerReq.bio rs;
                 Speaker.image_url := SpeakerReq.image_url rs;
                 Speaker.display_order := Speaker.display_order p;
                 Speaker.is_active := Speaker.is_active p;
                 Speaker.created_at := Speaker.created_at p;
                 Speaker.updated_at := now |})).
Proof.
  intros Ha Hp Hn Hk Hprice. split.
  - intros out. subst out.
    rewrite (update_package_done env now adminToken id rp price w k)
      by assumption.
    cbn [fst snd db set_db event_packages set_event_packages].
    set (edit := where_id Package.id k (with_package_fields now rp price)).
    exists edit.
    assert (Hplace : keeps_place edit).
    { unfold edit.
      exact (keeps_place_where (R:=Package.t) k _
               (with_package_fields_keeps_place now rp price)). }
    split; [reflexivity|]. split; [reflexivity|].
    split; [exact (select_active_map edit _ Hplace)|].
    split.
    { rewrite (select_active_map edit _ Hplace).
      exact (map_id_keeps_place edit _ Hplace). }
    split.
    + intros p Hne. unfold edit, where_id.
      destruct (Z.eqb_spec (Package.id p) k); [contradiction | reflexivity].
    + intros p <-. unfold edit, where_id. rewrite Z.eqb_refl. reflexivity.
  - intros out. subst out.
    rewrite (update_speaker_done env now adminToken id rs w k) by assumption.
    cbn [fst snd db set_db speakers set_speakers].
    set (edit := where_id Speaker.id k (with_speaker_fields now rs)).
    exists edit.
    assert (Hplace : keeps_place edit).
    { unfold edit.
      exact (keeps_place_where (R:=Speaker.t) k _
               (with_speaker_fields_keeps_place now rs)). }
    split; [reflexivity|]. split; [reflexivity|].
    split; [exact (select_active_map edit _ Hplace)|].
    split.
    { rewrite (select_active_map edit _ Hplace).
      exact (map_id_keeps_place edit _ Hplace). }
    split.
    + intros p Hne. unfold edit, where_id.
      destruct (Z.eqb_spec (Speaker.id p) k); [contradiction | reflexivity].
    + intros p <-. unfold edit, where_id. rewrite Z.eqb_refl. reflexivity.
Qed.

Lemma fresh_after_creation {R} (rid : R -> Z) (l : list R) (x : R) (k : Z) :
  (forall r, In r l -> rid r < k) -> rid x = k ->
  forall r, In r (l ++ [x]) -> rid r < k + 1.
Proof.
  intros Hl Hx r Hr. apply in_app_or in Hr.
  destruct Hr as [Hr|[<-|[]]]; [apply Hl in Hr|]; lia.
Qed.

Lemma fits_after_creation {R} `{CatalogLaws R} (l : list R) (x : R) :
  (forall r m, In r l -> row_display_order r = Some m -> m < 2147483646) ->
  row_display_order x = Some (next_order l) ->
  forall r m,
    In r (l ++ [x]) -> row_display_order r = Some m -> m < 2147483647.
Proof.
  intros Hl Hx r m Hr Hm. apply in_app_or in Hr.
  destruct Hr as [Hr|[<-|[]]].
  - pose proof (Hl r m Hr Hm). lia.
  - rewrite Hx in Hm. injection Hm as <-.
    assert (next_order l <= 2147483646) by (apply next_order_le; [lia|auto]).
    lia.
Qed.

(** X12. Two creations in a row, in a table whose display orders are
    below 2147483646, line up: the second row gets the next identifier
    and the next display order, and among the active rows the two new
    rows are listed in the order of their creation, after the rows that
    have a display order and before those whose display order is NULL;
    they end the listing when no active row has a NULL there.  The first
    new row takes the place that a single creation gives it. *)
Theorem creations_line_up (env : Env) (now1 now2 : Z)
    (adminToken : option string) (p1 p2 : PackageReq.t)
    (s1 s2 : SpeakerReq.t) (w : World) :
  authorized X env adminToken ->
  admin_pool env = true ->
  script w = [] ->
  (packages_fresh (db w) ->
   forall price1 price2,
   decimal_10_2 (PackageReq.price p1) = Some price1 ->
   decimal_10_2 (PackageReq.price p2) = Some price2 ->
   (forall p m, In p (event_packages (db w)) ->
      Package.display_order p = Some m -> m < 2147483646) ->
   let before := event_packages (db w) in
   let out1 := admin_create_package X env now1 adminToken p1 w in
   let out2 := admin_create_package X env now2 adminToken p2 (snd out1) in
   exists row1 row2 n,
     fst out1 = Json 200 (BPackage row1)
     /\ fst out2 = Json 200 (BPackage row2)
     /\ Package.id row1 = event_packages_id_seq (db w)
     /\ Package.id row2 = Package.id row1 + 1
     /\ placed before row1
     /\ Package.display_order row1 = Some n
     /\ Package.display_order row2 = Some (n + 1)
     /\ event_packages (db (snd out2)) = before ++ [row1; row2]
     /\ (exists ordered nulls,
           select_active before = ordered ++ nulls
           /\ (forall r, In r ordered -> Package.display_order r <> None)
           /\ (forall r, In r nulls -> Package.display_order r = None)
           /\ select_active (event_packages (db (snd out2)))
              = ordered ++ row1 :: row2 :: nulls)
     /\ ((forall p, In p before -> Package.is_active p = true ->
            Package.display_order p <> None) ->
         select_active (event_packages (db (snd out2)))
         = select_active before ++ [row1; row2])
     /\ packages_fresh (db (snd out2)))
  /\ (speakers_fresh (db w) ->
      (forall p m, In p (speakers (db w)) ->
         Speaker.display_order p = Some m -> m < 2147483646) ->
      let before := speakers (db w) in
      let out1 := admin_create_speaker X env now1 adminToken s1 w in
      let out2 := admin_create_speaker X env now2 adminToken s2 (snd out1) in
      exists row1 row2 n,
        fst out1 = Json 200 (BSpeaker row1)
        /\ fst out2 = Json 200 (BSpeaker row2)
        /\ Speaker.id row1 = speakers_id_seq (db w)
        /\ Speaker.id row2 = Speaker.id row1 + 1
        /\ placed before row1
        /\ Speaker.display_order row1 = Some n
        /\ Speaker.display_order row2 = Some (n + 1)
        /\ speakers (db (snd out2)) = before ++ [row1; row2]
        /\ (exists ordered nulls,
              select_active before = ordered ++ nulls
              /\ (forall r, In r ordered -> Speaker.display_order r <> None)
              /\ (forall r, In r nulls -> Speaker.display_order r = None)
              /\ select_active (speakers (db (snd out2)))
                 = ordered ++ row1 :: row2 :: nulls)
        /\ ((forall p, In p before -> Speaker.is_active p = true ->
               Speaker.display_order p <> None) ->
            select_active (speakers (db (snd out2)))
            = select_active before ++ [row1; row2])
        /\ speakers_fresh (db (snd out2))).
Proof.
  intros Ha Hp Hs. destruct w as [d t s]. simpl in Hs. subst s.
  split.
  - intros Hfresh price1 price2 Hprice1 Hprice2 Hfits before.
    cbn [db] in Hfresh, Hfits, before. cbv zeta.
    assert (Hfits0 : forall p m, In p before ->
              Package.display_order p = Some m -> m < 2147483647).
    { intros p m Hin Hm. pose proof (Hfits p m Hin Hm). lia. }
    rewrite (create_package_appends X env now1 adminToken p1 price1
               {| db := d; tx := t; script := [] |} Ha Hp eq_refl Hfresh
               Hprice1 Hfits0).
    cbv zeta. cbn [snd fst db tx].
    set (row1 := {| Package.id := event_packages_id_seq d |}).
    set (d1 := set_event_packages (event_packages d ++ [row1])
                 (bump_event_packages_id_seq d)).
    assert (Hfresh1 : packages_fresh d1).
    { unfold packages_fresh, d1. cbn [event_packages set_event_packages
        event_packages_id_seq bump_event_packages_id_seq].
      now apply (fresh_after_creation Package.id). }
    assert (Hfits1 : forall p m, In p (event_packages d1) ->
              Package.display_order p = Some m -> m < 2147483647).
    { unfold d1. cbn [event_packages set_event_packages].
      exact (@fits_after_creation Package.t Catalog_Package
               CatalogLaws_Package (event_packages d) row1 Hfits eq_refl). }
    rewrite (create_package_appends X env now2 adminToken p2 price2
               {| db := d1; tx := t; script := [] |} Ha Hp eq_refl Hfresh1
               Hprice2 Hfits1).
    cbv zeta. cbn [snd fst db tx].
    set (row2 := {| Package.id := event_packages_id_seq d1 |}).
    exists row1, row2, (next_order before).
    assert (A1 : placed before row1)
      by (apply placed_next_order; reflexivity).
    assert (A2 : placed (before ++ [row1]) row2)
      by (apply placed_next_order; reflexivity).
    assert (Hrows : event_packages
                      (set_event_packages (event_packages d1 ++ [row2])
                         (bump_event_packages_id_seq d1))
                    = (before ++ [row1]) ++ [row2]) by reflexivity.
    split; [reflexivity|]. split; [reflexivity|]. split; [reflexivity|].
    split; [reflexivity|]. split; [exact A1|]. split; [reflexivity|].
    split.
    { unfold row2. cbn [Package.display_order]. f_equal.
      unfold d1. cbn [event_packages set_event_packages].
      now apply (next_order_after_creation (R:=Package.t) before row1). }
    split; [now rewrite Hrows, <- app_assoc|].
    split; [rewrite Hrows; exact (placed_twice before row1 row2 A1 A2)|].
    split.
    { intros Hsome. rewrite Hrows.
      rewrite (placed_last (before ++ [row1]) row2 A2).
      - rewrite (placed_last before row1 A1 Hsome).
        now rewrite <- app_assoc.
      - intros p Hin Hact. apply in_app_or in Hin.
        destruct Hin as [Hin|[<-|[]]]; [now apply Hsome | discriminate]. }
    unfold packages_fresh.
    cbn [event_packages set_event_packages event_packages_id_seq
         bump_event_packages_id_seq].
    apply (fresh_after_creation Package.id); [|reflexivity].
    exact Hfresh1.
  - intros Hfresh Hfits before.
    cbn [db] in Hfresh, Hfits, before. cbv zeta.
    assert (Hfits0 : forall p m, In p before ->
              Speaker.display_order p = Some m -> m < 2147483647).
    { intros p m Hin Hm. pose proof (Hfits p m Hin Hm). lia. }
    rewrite (create_speaker_appends X env now1 adminToken s1
               {| db := d; tx := t; script := [] |} Ha Hp eq_refl Hfresh
               Hfits0).
    cbv zeta. cbn [snd fst db tx].
    set (row1 := {| Speaker.id := speakers_id_seq d |}).
    set (d1 := set_speakers (speakers d ++ [row1]) (bump_speakers_id_seq d)).
    assert (Hfresh1 : speakers_fresh d1).
    { unfold speakers_fresh, d1. cbn [speakers set_speakers
        speakers_id_seq bump_speakers_id_seq].
      now apply (fresh_after_creation Speaker.id). }
    assert (Hfits1 : forall p m, In p (speakers d1) ->
              Speaker.display_order p = Some m -> m < 2147483647).
    { unfold d1. cbn [speakers set_speakers].
      exact (@fits_after_creation Speaker.t Catalog_Speaker
               CatalogLaws_Speaker (speakers d) row1 Hfits eq_refl). }
    rewrite (create_speaker_appends X env now2 adminToken s2
               {| db := d1; tx := t; script := [] |} Ha Hp eq_refl Hfresh1
               Hfits1).
    cbv zeta. cbn [snd fst db tx].
    set (row2 := {| Speaker.id := speakers_id_seq d1 |}).
    exists row1, row2, (next_order before).
    assert (A1 : placed before row1)
      by (apply placed_next_order; reflexivity).
    assert (A2 : placed (before ++ [row1]) row2)
      by (apply placed_next_order; reflexivity).
    assert (Hrows : speakers
                      (set_speakers (speakers d1 ++ [row2])
                         (bump_speakers_id_seq d1))
                    = (before ++ [row1]) ++ [row2]) by reflexivity.
    split; [reflexivity|]. split; [reflexivity|]. split; [reflexivity|].
    split; [reflexivity|]. split; [exact A1|]. split; [reflexivity|].
    split.
    { unfold row2. cbn [Speaker.display_order]. f_equal.
      unfold d1. cbn [speakers set_speakers].
      now apply (next_order_after_creation (R:=Speaker.t) before row1). }
    split; [now rewrite Hrows, <- app_assoc|].
    split; [rewrite Hrows; exact (placed_twice before row1 row2 A1 A2)|].
    split.
    { intros Hsome. rewrite Hrows.
      rewrite (placed_last (before ++ [row1]) row2 A2).
      - rewrite (placed_last before row1 A1 Hsome).
        now rewrite <- app_assoc.
      - intros p Hin Hact. apply in_app_or in Hin.
        destruct Hin as [Hin|[<-|[]]]; [now apply Hsome | discriminate]. }
    unfold speakers_fresh.
    cbn [speakers set_speakers speakers_id_seq bump_speakers_id_seq].
    apply (fresh_after_creation Speaker.id); [|reflexivity].
    exact Hfresh1.
Qed.

End CatalogEditEndpoints.

(** ** Deleting twice, and the public configuration *)

Section DeleteEdges.

Variable X : Externals.

Lemma delete_package_refused (env : Env) (adminToken : option string)
    (id : string) (w : World) :
  authorized X env adminToken -> admin_pool env = true ->
  next_outcome w = Succeeds -> key_of X (Js.Str id) = KeyError ->
  admin_delete_package X env adminToken id w
  = (Json 500 (BError "Internal server error"), pop w).
Proof.
  intros Ha Hp Hn Hk. unfold admin_delete_package.
  rewrite admin_route_authorized by assumption.
  unfold respond, bind, pool_query, run_stmt, soft_delete_package, ret.
  rewrite Hp, Hn, Hk. destruct w as [[] ? ?]; reflexivity.
Qed.

Lemma delete_speaker_refused (env : Env) (adminToken : option string)
    (id : string) (w : World) :
  authorized X env adminToken -> admin_pool env = true ->
  next_outcome w = Succeeds -> key_of X (Js.Str id) = KeyError ->
  admin_delete_speaker X env adminToken id w
  = (Json 500 (BError "Internal server error"), pop w).
Proof.
  intros Ha Hp Hn Hk. unfold admin_delete_speaker.
  rewrite admin_route_authorized by assumption.
  unfold respond, bind, pool_query, run_stmt, soft_delete_speaker, ret.
  rewrite Hp, Hn, Hk. destruct w as [[] ? ?]; reflexivity.
Qed.

(** X13. Deleting is idempotent and forgiving: a second delete of the
    same package or speaker answers success again and changes nothing
    more; a delete of an identifier that is in no row answers success and
    changes nothing at all; an [:id] that is no integer gets 500 and
    changes nothing either. *)
Theorem delete_again_or_nothing (env : Env) (adminToken : option string)
    (id : string) (w : World) :
  authorized X env adminToken ->
  admin_pool env = true ->
  script w = [] ->
  (forall k, key_of X (Js.Str id) = KeyInt k ->
     let once := admin_delete_package X env adminToken id w in
     let twice := admin_delete_package X env adminToken id (snd once) in
     fst once = Json 200 BSuccess
     /\ twice = once
     /\ ((forall p, In p (event_packages (db w)) -> Package.id p <> k) ->
         snd once = w))
  /\ (forall k, key_of X (Js.Str id) = KeyInt k ->
        let once := admin_delete_speaker X env adminToken id w in
        let twice := admin_delete_speaker X env adminToken id (snd once) in
        fst once = Json 200 BSuccess
        /\ twice = once
        /\ ((forall p, In p (speakers (db w)) -> Speaker.id p <> k) ->
            snd once = w))
  /\ (key_of X (Js.Str id) = KeyError ->
      admin_delete_package X env adminToken id w
      = (Json 500 (BError "Internal server error"), w)
      /\ admin_delete_speaker X env adminToken id w
         = (Json 500 (BError "Internal server error"), w)).
Proof.
  intros Ha Hp Hs. destruct w as [d t s]. simpl in Hs. subst s.
  assert (Hn : forall d', next_outcome {| db := d'; tx := t; script := [] |}
                          = Succeeds) by reflexivity.
  split; [|split].
  - intros k Hk once twice. subst once twice.
    rewrite (delete_package_done X env adminToken id _ k Ha Hp (Hn d) Hk).
    cbn [fst snd]. split; [reflexivity|]. split.
    + unfold pop, set_db. cbn [db tx script tl].
      rewrite (delete_package_done X env adminToken id _ k Ha Hp (Hn _) Hk).
      cbn [db set_db pop event_packages set_event_packages tx script tl].
      rewrite (soft_delete_twice (R:=Package.t) k (event_packages d))
        by reflexivity.
      reflexivity.
    + intros Hno. unfold soft_delete.
      rewrite (where_id_absent Package.id k _ _ Hno). now destruct d.
  - intros k Hk once twice. subst once twice.
    rewrite (delete_speaker_done X env adminToken id _ k Ha Hp (Hn d) Hk).
    cbn [fst snd]. split; [reflexivity|]. split.
    + unfold pop, set_db. cbn [db tx script tl].
      rewrite (delete_speaker_done X env adminToken id _ k Ha Hp (Hn _) Hk).
      cbn [db set_db pop speakers set_speakers tx script tl].
      rewrite (soft_delete_twice (R:=Speaker.t) k (speakers d))
        by reflexivity.
      reflexivity.
    + intros Hno. unfold soft_delete.
      rewrite (where_id_absent Speaker.id k _ _ Hno). now destruct d.
  - intros Hk.
    rewrite (delete_package_refused env adminToken id _ Ha Hp (Hn d) Hk).
    rewrite (delete_speaker_refused env adminToken id _ Ha Hp (Hn d) Hk).
    split; reflexivity.
Qed.

(** X14. [GET /api/config] agrees with order creation on the mode: its
    [testMode] is true exactly when there is no provider client, which is
    the flag every created order is answered with.  The key it shows is
    the configured one or the demo key, never the placeholder and never
    empty. *)
Theorem config_tells_the_mode (env : Env) (now : Z) (provider : ProviderReply)
    (r : OrderReq.t) (w : World) :
  let config := get_config env in
  Config.testMode config = negb (razorpay env)
  /\ Config.useHostedPage config = true
  /\ Config.razorpayKeyId config <> "your_key_id"
  /\ Config.razorpayKeyId config <> ""
  /\ (Config.razorpayKeyId config = "rzp_test_demo_key"
      \/ RAZORPAY_KEY_ID env = Some (Config.razorpayKeyId config))
  /\ (razorpay env = true ->
      RAZORPAY_KEY_ID env = Some (Config.razorpayKeyId config))
  /\ (tx w = None ->
      forall k link lid a tm hosted,
        fst (post_orders X env now provider r w)
        = Json 200 (BOrder k link lid a tm hosted) ->
        tm = Config.testMode config /\ hosted = Config.useHostedPage config).
Proof.
  intros config.
  assert (Hm : Config.testMode config = negb (razorpay env)).
  { unfold config, get_config, razorpay. cbn [Config.testMode].
    destruct (env_set (RAZORPAY_KEY_ID env)),
      (env_set (RAZORPAY_KEY_SECRET env)),
      (env_is (RAZORPAY_KEY_ID env) "your_key_id"),
      (env_is (RAZORPAY_KEY_SECRET env) "your_key_secret"); reflexivity. }
  split; [exact Hm|]. split; [reflexivity|].
  assert (Hkey : Config.razorpayKeyId config <> "your_key_id"
                 /\ Config.razorpayKeyId config <> ""
                 /\ (Config.razorpayKeyId config = "rzp_test_demo_key"
                     \/ RAZORPAY_KEY_ID env = Some (Config.razorpayKeyId config))
                 /\ (razorpay env = true ->
                     RAZORPAY_KEY_ID env = Some (Config.razorpayKeyId config))).
  { unfold config, get_config, razorpay. cbn [Config.razorpayKeyId].
    generalize (env_set (RAZORPAY_KEY_SECRET env))
      (env_is (RAZORPAY_KEY_SECRET env) "your_key_secret").
    intros s1 s2.
    destruct (RAZORPAY_KEY_ID env) as [key|];
      cbn [env_set env_is env_or Js.truthy Js.of_option Js.str_eq].
    - destruct (String.eqb key "") eqn:Ee; cbn [negb andb].
      + repeat split; try discriminate; auto.
      + destruct (String.eqb "your_key_id" key) eqn:Ep; cbn [negb andb].
        * repeat split; try discriminate; auto.
          destruct s1; discriminate.
        * apply String.eqb_neq in Ee. apply String.eqb_neq in Ep.
          repeat split; auto.
    - repeat split; try discriminate; auto. }
  destruct Hkey as [K1 [K2 [K3 K4]]].
  do 4 (split; [assumption|]).
  intros Htx k link lid a tm hosted E.
  destruct (post_orders_flags X env now provider r w Htx
              k link lid a tm hosted E) as [_ [-> ->]].
  rewrite Hm. split; reflexivity.
Qed.

End DeleteEdges.

(** ** The dashboard *)

Section DashboardBounds.

Variable X : Externals.

Lemma filter_length_le {A} (p : A -> bool) (l : list A) :
  (List.length (filter p l) <= List.length l)%nat.
Proof.
  induction l as [|a l IH]; simpl; [lia|]. destruct (p a); simpl; lia.
Qed.

Lemma admin_stats_answer (env : Env) (now : Z) (adminToken : option string)
    (w : World) :
  let out := admin_stats X env now adminToken w in
  db (snd out) = db w
  /\ In (status_code (fst out)) [200; 401; 500; 503]
  /\ forall t r s,
       fst out = Json 200 (BStats t r s) ->
       t = Z.of_nat (tickets_sold (db w))
       /\ 0 <= s <= t
       /\ r = parseFloat_or_0 (sum_amount (filter is_completed (orders (db w)))).
Proof.
  unfold admin_stats, admin_route, verifyAdminToken, admin_checkDbConnection.
  destruct adminToken as [token|];
    [|simpl; repeat split; auto; try discriminate].
  destruct (String.eqb token "");
    [simpl; repeat split; auto; try discriminate|].
  destruct (jwt_verify X (JWT_SECRET env) token);
    [|simpl; repeat split; auto; try discriminate].
  destruct (admin_pool env);
    [|simpl; repeat split; auto; try discriminate].
  destruct w as [d t0 s0].
  unfold respond, bind, pool_query, run_stmt, next_outcome,
    select_total_stats, select_today_sales, ret, tickets_sold.
  destruct s0 as [|[|c1] [|[|c2] s0]]; simpl.
  all: split; [now destruct d|].
  all: split; [auto 6|].
  all: intros t r s E; try discriminate.
  all: inversion E; subst; clear E.
  all: rewrite filter_and.
  all: repeat split; try lia.
  all: apply inj_le; apply filter_length_le.
Qed.

(** X15. The dashboard only reads.  Whatever the cookie and whatever the
    server does, [GET /api/admin/stats] leaves every table as it was;
    when it answers figures, the total is the number of completed orders,
    today's sales lie between 0 and the total, and with no completed
    order all three are 0.  A completion channel fired in between never
    brings the total down. *)
Theorem dashboard_reads_and_bounds (env : Env) (now : Z)
    (adminToken : option string) (w : World) :
  let out := admin_stats X env now adminToken w in
  db (snd out) = db w
  /\ In (status_code (fst out)) [200; 401; 500; 503]
  /\ (forall t r s,
        fst out = Json 200 (BStats t r s) ->
        t = Z.of_nat (tickets_sold (db w))
        /\ 0 <= s <= t
        /\ (t = 0 -> r = 0%Q /\ s = 0))
  /\ (forall env' c now' adminToken' t r s t' r' s',
        fst out = Json 200 (BStats t r s) ->
        fst (admin_stats X env now' adminToken' (snd (fire X env' c (snd out))))
        = Json 200 (BStats t' r' s') ->
        t <= t').
Proof.
  intros out. subst out.
  destruct (admin_stats_answer env now adminToken w) as [Hdb [Hcode Hfig]].
  split; [exact Hdb|]. split; [exact Hcode|]. split.
  - intros t r s E. destruct (Hfig t r s E) as [Ht [Hs Hr]].
    split; [exact Ht|]. split; [exact Hs|].
    intros H0. split; [|lia]. subst r. subst t.
    unfold tickets_sold in H0.
    destruct (filter is_completed (orders (db w))); [reflexivity|].
    simpl in H0. lia.
  - intros env' c now' tok' t r s t' r' s' E E'.
    destruct (Hfig t r s E) as [-> _].
    set (w1 := snd (admin_stats X env now adminToken w)) in *.
    destruct (admin_stats_answer env now' tok' (snd (fire X env' c w1)))
      as [_ [_ Hfig']].
    destruct (Hfig' t' r' s' E') as [-> _].
    apply inj_le. rewrite <- Hdb. fold w1.
    destruct (fire_only_completes X env' c w1) as [Hp _].
    unfold tickets_sold. now apply progress_sold.
Qed.

End DashboardBounds.

(** ** Reordering the catalog *)

Section Reordering.

Context {R : Type} `{CatalogLaws R}.

Lemma insert_row_front (a : R) (l : list R) :
  Forall (display_before a) l -> insert_row a l = a :: l.
Proof.
  destruct l as [|b l]; simpl; [reflexivity|].
  intros Hf. inversion Hf as [|? ? Hab _]; subst.
  apply display_le_before in Hab. now rewrite Hab.
Qed.

Lemma filter_insert_row (p : R -> bool) (a : R) (l : list R) :
  StronglySorted display_before l ->
  filter p (insert_row a l)
  = if p a then insert_row a (filter p l) else filter p l.
Proof.
  induction 1 as [|b l Hs IH Hall].
  - simpl. destruct (p a); reflexivity.
  - cbn [insert_row]. destruct (display_le a b) eqn:E.
    + cbn [filter]. destruct (p a); [|reflexivity].
      symmetry. apply insert_row_front.
      apply display_le_before in E.
      assert (Hfull : Forall (display_before a) (b :: l)).
      { constructor; [assumption|].
        eapply Forall_impl; [|exact Hall].
        intros c Hc. eapply display_before_trans; eassumption. }
      rewrite Forall_forall in Hfull |- *.
      intros c Hc. apply Hfull.
      change (In c (filter p (b :: l))) in Hc.
      apply filter_In in Hc. tauto.
    + cbn [filter]. rewrite IH.
      destruct (p b), (p a); cbn [insert_row]; rewrite ?E; reflexivity.
Qed.

(** Sorting and selecting commute. *)
Lemma filter_order_by_display (p : R -> bool) (l : list R) :
  filter p (order_by_display l) = order_by_display (filter p l).
Proof.
  induction l as [|a l IH]; [reflexivity|].
  cbn [order_by_display fold_right].
  change (fold_right insert_row [] l) with (order_by_display l).
  rewrite filter_insert_row by apply order_by_display_sorted.
  rewrite IH. cbn [filter]. destruct (p a); reflexivity.
Qed.

(** An [UPDATE ... WHERE id = k] that writes neither [id] nor
    [is_active] leaves the other rows of the listing in their order. *)
Lemma update_keeps_the_others (k : Z) (f : R -> R) (l : list R) :
  (forall r, row_id (f r) = row_id r) ->
  (forall r, row_is_active (f r) = row_is_active r) ->
  filter (fun r => negb (row_id r =? k))
    (select_active (map (where_id row_id k f) l))
  = filter (fun r => negb (row_id r =? k)) (select_active l).
Proof.
  intros Hid Hact. unfold select_active.
  rewrite !filter_order_by_display. f_equal.
  induction l as [|a l IH]; [reflexivity|].
  cbn [map filter].
  replace (where_id row_id k f a) with (if row_id a =? k then f a else a)
    by reflexivity.
  destruct (row_id a =? k) eqn:E.
  - rewrite Hact. destruct (row_is_active a); [|exact IH].
    cbn [filter]. rewrite Hid, E. cbn [negb]. exact IH.
  - destruct (row_is_active a); [|exact IH].
    cbn [filter]. rewrite E. cbn [negb]. now rewrite IH.
Qed.

Lemma update_keeps_the_ids (k : Z) (f : R -> R) (l : list R) :
  (forall r, row_id (f r) = row_id r) ->
  (forall r, row_is_active (f r) = row_is_active r) ->
  Permutation (map row_id (select_active (map (where_id row_id k f) l)))
    (map row_id (select_active l)).
Proof.
  intros Hid Hact. unfold select_active.
  rewrite !order_by_display_perm.
  replace (map row_id (filter row_is_active (map (where_id row_id k f) l)))
    with (map row_id (filter row_is_active l)); [reflexivity|].
  induction l as [|a l IH]; [reflexivity|].
  cbn [map filter].
  replace (where_id row_id k f a) with (if row_id a =? k then f a else a)
    by reflexivity.
  destruct (row_id a =? k).
  - rewrite Hact. destruct (row_is_active a); [|exact IH].
    cbn [map]. now rewrite Hid, IH.
  - destruct (row_is_active a); [|exact IH]. cbn [map]. now rewrite IH.
Qed.

Lemma updated_row_in_listing (k : Z) (f : R -> R) (l : list R) (r : R) :
  (forall r, row_id (f r) = row_id r) ->
  In r (select_active (map (where_id row_id k f) l)) -> row_id r = k ->
  exists r0, In r0 l /\ r = f r0.
Proof.
  intros Hid Hin Hk.
  destruct (select_active_listing (map (where_id row_id k f) l))
    as [_ [_ Hl]].
  apply Hl in Hin. destruct Hin as [Hin _].
  apply in_map_iff in Hin. destruct Hin as [r0 [E Hr0]].
  exists r0. split; [assumption|]. subst r. unfold where_id in *.
  destruct (Z.eqb_spec (row_id r0) k); [reflexivity | contradiction].
Qed.

End Reordering.

Section ReorderEndpoints.

Variable X : Externals.

Lemma update_package_order_done (env : Env) (adminToken : option string)
    (id : string) (ord : option Z) (w : World) (k : Z) :
  authorized X env adminToken -> admin_pool env = true ->
  next_outcome w = Succeeds -> key_of X (Js.Str id) = KeyInt k ->
  admin_update_package_order X env adminToken id ord w =
    (Json 200 BSuccess,
     set_db
       (set_event_packages
          (map (where_id Package.id k (with_package_order ord))
             (event_packages (db w))) (db w)) (pop w)).
Proof.
  intros Ha Hp Hn Hk. unfold admin_update_package_order.
  rewrite admin_route_authorized by assumption.
  unfold respond, bind, pool_query, run_stmt, update_packages_where, ret.
  now rewrite Hp, Hn, Hk.
Qed.

Lemma update_speaker_order_done (env : Env) (adminToken : option string)
    (id : string) (ord : option Z) (w : World) (k : Z) :
  authorized X env adminToken -> admin_pool env = true ->
  next_outcome w = Succeeds -> key_of X (Js.Str id) = KeyInt k ->
  admin_update_speaker_order X env adminToken id ord w =
    (Json 200 BSuccess,
     set_db
       (set_speakers
          (map (where_id Speaker.id k (with_speaker_order ord))
             (speakers (db w))) (db w)) (pop w)).
Proof.
  intros Ha Hp Hn Hk. unfold admin_update_speaker_order.
  rewrite admin_route_authorized by assumption.
  unfold respond, bind, pool_query, run_stmt, update_speakers_where, ret.
  now rewrite Hp, Hn, Hk.
Qed.

(** X16. Reordering moves one row and no other: after
    [PUT /:id/order] the listing holds the same identifiers, the rows
    other than [:id] are as they were and in the order they had among
    themselves, and the row of [:id], when listed, carries the new
    display order, which is NULL when the body has none. *)
Theorem reorder_moves_one_row (env : Env) (adminToken : option string)
    (id : string) (ord : option Z) (w : World) (k : Z) :
  authorized X env adminToken ->
  admin_pool env = true ->
  next_outcome w = Succeeds ->
  key_of X (Js.Str id) = KeyInt k ->
  (let out := admin_update_package_order X env adminToken id ord w in
   let before := select_active (event_packages (db w)) in
   let after := select_active (event_packages (db (snd out))) in
   fst out = Json 200 BSuccess
   /\ filter (fun p => negb (Package.id p =? k)) after
      = filter (fun p => negb (Package.id p =? k)) before
   /\ Permutation (map Package.id after) (map Package.id before)
   /\ listing (event_packages (db (snd out))) after
   /\ (forall p, In p after -> Package.id p = k ->
       Package.display_order p = ord
       /\ exists p0, In p0 (event_packages (db w))
                     /\ p = with_package_order ord p0)
   /\ speakers (db (snd out)) = speakers (db w)
   /\ orders (db (snd out)) = orders (db w))
  /\ (let out := admin_update_speaker_order X env adminToken id ord w in
      let before := select_active (speakers (db w)) in
      let after := select_active (speakers (db (snd out))) in
      fst out = Json 200 BSuccess
      /\ filter (fun p => negb (Speaker.id p =? k)) after
         = filter (fun p => negb (Speaker.id p =? k)) before
      /\ Permutation (map Speaker.id after) (map Speaker.id before)
      /\ listing (speakers (db (snd out))) after
      /\ (forall p, In p after -> Speaker.id p = k ->
          Speaker.display_order p = ord
          /\ exists p0, In p0 (speakers (db w))
                        /\ p = with_speaker_order ord p0)
      /\ event_packages (db (snd out)) = event_packages (db w)
      /\ orders (db (snd out)) = orders (db w)).
Proof.
  intros Ha Hp Hn Hk. split.
  - intros out before after. subst out before after.
    rewrite (update_package_order_done env adminToken id ord w k)
      by assumption.
    cbn [fst snd db set_db event_packages set_event_packages speakers orders].
    split; [reflexivity|].
    split.
    { exact (update_keeps_the_others (R:=Package.t) k
               (with_package_order ord) _ (fun _ => eq_refl)
               (fun _ => eq_refl)). }
    split.
    { exact (update_keeps_the_ids (R:=Package.t) k
               (with_package_order ord) _ (fun _ => eq_refl)
               (fun _ => eq_refl)). }
    split; [apply select_active_listing|].
    split; [|split; reflexivity].
    intros p Hin Hid.
    assert (Hkeep : forall r : Package.t,
              row_id (with_package_order ord r) = row_id r)
      by reflexivity.
    destruct (updated_row_in_listing (R:=Package.t) k
                (with_package_order ord) _ p Hkeep Hin Hid)
      as [p0 [Hp0 ->]].
    split; [reflexivity | eauto].
  - intros out before after. subst out before after.
    rewrite (update_speaker_order_done env adminToken id ord w k)
      by assumption.
    cbn [fst snd db set_db event_packages set_speakers speakers orders].
    split; [reflexivity|].
    split.
    { exact (update_keeps_the_others (R:=Speaker.t) k
               (with_speaker_order ord) _ (fun _ => eq_refl)
               (fun _ => eq_refl)). }
    split.
    { exact (update_keeps_the_ids (R:=Speaker.t) k
               (with_speaker_order ord) _ (fun _ => eq_refl)
               (fun _ => eq_refl)). }
    split; [apply select_active_listing|].
    split; [|split; reflexivity].
    intros p Hin Hid.
    assert (Hkeep : forall r : Speaker.t,
              row_id (with_speaker_order ord r) = row_id r)
      by reflexivity.
    destruct (updated_row_in_listing (R:=Speaker.t) k
                (with_speaker_order ord) _ p Hkeep Hin Hid)
      as [p0 [Hp0 ->]].
    split; [reflexivity | eauto].
Qed.

End ReorderEndpoints.

(** ** The admin list of orders *)

Section RecentOrders.

Variable X : Externals.

Lemma insert_desc_perm {R} (key : R -> Z) (a : R) (l : list R) :
  Permutation (insert_desc key a l) (a :: l).
Proof.
  induction l as [|b l IH]; simpl; [reflexivity|].
  destruct (key b <=? key a); [reflexivity|].
  rewrite IH. apply perm_swap.
Qed.

Lemma order_desc_perm {R} (key : R -> Z) (l : list R) :
  Permutation (order_desc key l) l.
Proof.
  induction l as [|a l IH]; simpl; [reflexivity|].
  rewrite insert_desc_perm. now constructor.
Qed.

Lemma insert_desc_sorted {R} (key : R -> Z) (a : R) (l : list R) :
  sorted_desc key l -> sorted_desc key (insert_desc key a l).
Proof.
  unfold sorted_desc. induction 1 as [|b l Hs IH Hall]; simpl.
  - repeat constructor.
  - destruct (Z.leb_spec (key b) (key a)) as [E|E].
    + constructor; [now constructor|].
      constructor; [assumption|].
      eapply Forall_impl; [|exact Hall]. simpl. intros c Hc. lia.
    + constructor; [assumption|].
      rewrite Forall_forall. intros c Hc.
      apply (Permutation_in _ (insert_desc_perm key a l)) in Hc.
      destruct Hc as [<-|Hc]; [lia|].
      rewrite Forall_forall in Hall. now apply Hall.
Qed.

Lemma order_desc_sorted {R} (key : R -> Z) (l : list R) :
  sorted_desc key (order_desc key l).
Proof.
  induction l as [|a l IH]; simpl; [constructor | now apply insert_desc_sorted].
Qed.

Lemma sorted_desc_limit {R} (key : R -> Z) (n : nat) (l : list R) :
  sorted_desc key l ->
  sorted_desc key (firstn n l)
  /\ forall a b, In a (firstn n l) -> In b (skipn n l) -> key b <= key a.
Proof.
  unfold sorted_desc. intros Hs. revert n.
  induction Hs as [|x l Hs IH Hall]; intros n.
  - rewrite firstn_nil, skipn_nil. split; [constructor | contradiction].
  - destruct n as [|n]; simpl.
    + split; [constructor | contradiction].
    + destruct (IH n) as [Hf Hcut]. rewrite Forall_forall in Hall.
      split.
      * constructor; [assumption|]. rewrite Forall_forall.
        intros c Hc. apply Hall. rewrite <- (firstn_skipn n l).
        apply in_or_app. now left.
      * intros a b [<-|Ha] Hb; [|now apply Hcut].
        apply Hall. rewrite <- (firstn_skipn n l). apply in_or_app. now right.
Qed.

Lemma admin_rows_refused {W B} (env : Env) (adminToken : option string)
    (body : W -> Res B * W) (w : W) :
  (~ authorized X env adminToken ->
   exists message,
     admin_rows X env adminToken body w = (Failed (Json 401 (BError message)), w))
  /\ (authorized X env adminToken -> admin_pool env = false ->
      admin_rows X env adminToken body w
      = (Failed (Json 503 (BError "Database connection not available")), w)).
Proof.
  unfold admin_rows. split.
  - intros Hno. destruct adminToken as [token|]; [|eauto].
    destruct (String.eqb token "") eqn:Ee; [eauto|].
    destruct (jwt_verify X (JWT_SECRET env) token) eqn:Ej; [|eauto].
    exfalso. apply Hno. exists token. repeat split; auto.
    now apply String.eqb_neq.
  - intros [token [-> [Hne Hjwt]]] Hpool.
    apply String.eqb_neq in Hne. now rewrite Hne, Hjwt, Hpool.
Qed.

(** X17. [GET /api/admin/orders] shows the 50 newest orders, whatever
    their status: the rows are the named columns of orders of the table,
    each order at most once, newest first; all of them when the table
    holds at most 50, and otherwise no order left out is newer than one
    shown.  The route reads only, and sends nothing without a valid
    cookie. *)
Theorem admin_orders_newest_fifty (env : Env) (adminToken : option string)
    (w : World) :
  let out := admin_orders X env adminToken w in
  db (snd out) = db w
  /\ (~ authorized X env adminToken ->
      exists message, fst out = Failed (Json 401 (BError message)))
  /\ (authorized X env adminToken -> admin_pool env = true ->
      next_outcome w = Succeeds -> exists rows, fst out = Sent rows)
  /\ (forall rows,
        fst out = Sent rows ->
        exists shown rest,
          rows = map order_columns shown
          /\ Permutation (shown ++ rest) (orders (db w))
          /\ newest_first shown
          /\ List.length shown = Nat.min 50 (List.length (orders (db w)))
          /\ (forall a b, In a shown -> In b rest ->
              Order.created_at b <= Order.created_at a)).
Proof.
  intros out. subst out. unfold admin_orders.
  split; [|split; [|split]].
  - unfold admin_rows, send, pool_query, run_stmt, select_recent_orders.
    destruct adminToken as [token|]; [|reflexivity].
    destruct (String.eqb token ""); [reflexivity|].
    destruct (jwt_verify X (JWT_SECRET env) token); [|reflexivity].
    destruct (admin_pool env); [|reflexivity].
    destruct (next_outcome w); [|reflexivity].
    simpl. now destruct (db w).
  - intros Hno.
    destruct (admin_rows_refused env adminToken
                (pool_query (admin_pool env) select_recent_orders) w)
      as [H401 _].
    destruct (H401 Hno) as [m E]. exists m. now rewrite E.
  - intros [token [-> [Hne Hjwt]]] Hpool Hn.
    unfold admin_rows, send, pool_query, run_stmt, select_recent_orders.
    apply String.eqb_neq in Hne. rewrite Hne, Hjwt, Hpool, Hn.
    simpl. eauto.
  - intros rows.
    unfold admin_rows, send, pool_query, run_stmt, select_recent_orders.
    destruct adminToken as [token|]; [|discriminate].
    destruct (String.eqb token ""); [discriminate|].
    destruct (jwt_verify X (JWT_SECRET env) token); [|discriminate].
    destruct (admin_pool env); [|discriminate].
    destruct (next_outcome w); [|discriminate].
    simpl. intros E. inversion E; subst; clear E.
    set (sorted := order_by_created_desc (orders (db w))).
    exists (firstn 50 sorted), (skipn 50 sorted).
    destruct (sorted_desc_limit Order.created_at 50 sorted
                (order_desc_sorted Order.created_at (orders (db w))))
      as [Hs Hcut].
    split; [reflexivity|].
    split; [rewrite firstn_skipn; apply order_desc_perm|].
    split; [exact Hs|].
    split; [|exact Hcut].
    rewrite length_firstn. unfold sorted, order_by_created_desc.
    now rewrite (Permutation_length (order_desc_perm Order.created_at (orders (db w)))).
Qed.

End RecentOrders.

(** ** Seeding the catalog *)

Section Seeding.

Lemma seeded_refl (d : Db) : seeded d d [] [].
Proof.
  unfold seeded. rewrite !app_nil_r. repeat split; constructor.
Qed.

Lemma package_fields_inserted (now : Z) (r : PackageReq.t) (ord : option Z)
    (k : Z) :
  package_fields
    {| Package.id := k; Package.name := PackageReq.name r;
       Package.category := PackageReq.category r;
       Package.price := PackageReq.price r;
       Package.features := PackageReq.features r;
       Package.package_type := PackageReq.package_type r;
       Package.display_order := ord; Package.is_active := true;
       Package.created_at := now; Package.updated_at := now |}
  = (r, ord).
Proof. now destruct r. Qed.

Lemma speaker_fields_inserted (now : Z) (r : SpeakerReq.t) (ord : option Z)
    (k : Z) :
  speaker_fields
    {| Speaker.id := k; Speaker.name := SpeakerReq.name r;
       Speaker.title := SpeakerReq.title r;
       Speaker.company := SpeakerReq.company r;
       Speaker.bio := SpeakerReq.bio r;
       Speaker.image_url := SpeakerReq.image_url r;
       Speaker.display_order := ord; Speaker.is_active := true;
       Speaker.created_at := now; Speaker.updated_at := now |}
  = (r, ord).
Proof. now destruct r. Qed.

Lemma for_of_step {A} (i : nat) (a : A) (l : list A)
    (body : nat -> A -> M unit) (w : World) :
  for_of i (a :: l) body w
  = match body i a w with
    | (Ok _, w') => for_of (S i) l body w'
    | (Throw e, w') => (Throw e, w')
    end.
Proof. reflexivity. Qed.

Lemma insert_default_package_step (clock : nat -> Z) (i : nat)
    (r : PackageReq.t) (ord : option Z) (w : World) :
  exact_price (r, ord) ->
  insert_default_package clock i (r, ord) w
  = match next_outcome w with
    | Fails c => (Throw (DbError c), pop w)
    | Succeeds =>
        let k := event_packages_id_seq (db w) in
        if existsb (fun p => Package.id p =? k) (event_packages (db w))
        then (Throw (DbError "23505"),
              set_db (bump_event_packages_id_seq (db w)) (pop w))
        else
          (Ok tt,
           set_db
             (set_event_packages
                (event_packages (db w) ++
                 [ {| Package.id := k; Package.name := PackageReq.name r;
                      Package.category := PackageReq.category r;
                      Package.price := PackageReq.price r;
                      Package.features := PackageReq.features r;
                      Package.package_type := PackageReq.package_type r;
                      Package.display_order := ord;
                      Package.is_active := true;
                      Package.created_at := clock i;
                      Package.updated_at := clock i |} ])
                (bump_event_packages_id_seq (db w))) (pop w))
    end.
Proof.
  unfold exact_price. cbn [fst]. intros Hprice.
  unfold insert_default_package, bind, pool_query, run_stmt, insert_package,
    ret. cbn [fst snd].
  destruct (next_outcome w); [|reflexivity].
  rewrite Hprice. cbv zeta. destruct (existsb _ _); reflexivity.
Qed.

Lemma insert_default_speaker_step (clock : nat -> Z) (i : nat)
    (r : SpeakerReq.t) (ord : option Z) (w : World) :
  insert_default_speaker clock i (r, ord) w
  = match next_outcome w with
    | Fails c => (Throw (DbError c), pop w)
    | Succeeds =>
        let k := speakers_id_seq (db w) in
        if existsb (fun p => Speaker.id p =? k) (speakers (db w))
        then (Throw (DbError "23505"),
              set_db (bump_speakers_id_seq (db w)) (pop w))
        else
          (Ok tt,
           set_db
             (set_speakers
                (speakers (db w) ++
                 [ {| Speaker.id := k; Speaker.name := SpeakerReq.name r;
                      Speaker.title := SpeakerReq.title r;
                      Speaker.company := SpeakerReq.company r;
                      Speaker.bio := SpeakerReq.bio r;
                      Speaker.image_url := SpeakerReq.image_url r;
                      Speaker.display_order := ord;
                      Speaker.is_active := true;
                      Speaker.created_at := clock i;
                      Speaker.updated_at := clock i |} ])
                (bump_speakers_id_seq (db w))) (pop w))
    end.
Proof.
  unfold insert_default_speaker, bind, pool_query, run_stmt, insert_speaker,
    ret. cbn [fst snd].
  destruct (next_outcome w); [|reflexivity].
  cbv zeta. destruct (existsb _ _); reflexivity.
Qed.

(** The insertions of the loop, whatever the server does: a prefix of
    the list gets in; all of it when every statement succeeds and the
    counter is ahead of the identifiers. *)
Lemma insert_default_packages_run (clock : nat -> Z)
    (l : list (PackageReq.t * option Z)) (i : nat) (w : World) :
  Forall exact_price l ->
  let out := for_of i l (insert_default_package clock) w in
  exists added n,
    seeded (db w) (db (snd out)) added []
    /\ map package_fields added = firstn n l
    /\ tx (snd out) = tx w
    /\ speakers_id_seq (db (snd out)) = speakers_id_seq (db w)
    /\ (script w = [] -> packages_fresh (db w) ->
        fst out = Ok tt /\ n = List.length l /\ script (snd out) = []
        /\ packages_fresh (db (snd out))).
Proof.
  intros Hexact. revert i w.
  induction l as [|[r ord] l IH]; intros i w out; subst out.
  - exists [], 0%nat. simpl. split; [apply seeded_refl|]. auto 10.
  - inversion Hexact as [|? ? Hr Hl]; subst.
    rewrite for_of_step, insert_default_package_step by exact Hr.
    destruct (next_outcome w) eqn:En.
    + cbv zeta.
      destruct (existsb _ (event_packages (db w))) eqn:Ex.
      * exists [], 0%nat. cbn [fst snd db set_db].
        split; [unfold seeded; simpl; rewrite !app_nil_r;
                repeat split; constructor|].
        split; [reflexivity|]. split; [reflexivity|].
        split; [reflexivity|].
        intros _ Hfresh.
        rewrite (unused_key Package.id _ _ Hfresh) in Ex. discriminate.
      * set (row := {| Package.id := event_packages_id_seq (db w) |}).
        set (w1 := set_db _ (pop w)).
        destruct (IH Hl (S i) w1)
          as [added [n [Hseed [Hmap [Htx [Hseq Hall]]]]]].
        exists (row :: added), (S n).
        destruct Hseed as [Hp [Hs [Hap [_ [Ho Hos]]]]].
        split.
        { unfold seeded. rewrite Hp, Hs, Ho, Hos. unfold w1.
          cbn [db set_db event_packages set_event_packages speakers orders
               orders_id_seq bump_event_packages_id_seq].
          rewrite <- app_assoc. repeat split; auto. }
        split.
        { cbn [map firstn]. rewrite Hmap. f_equal.
          apply package_fields_inserted. }
        split; [rewrite Htx; reflexivity|].
        split; [rewrite Hseq; reflexivity|].
        intros Hsc Hfresh.
        assert (Hsc1 : script w1 = []) by (unfold w1; simpl; now rewrite Hsc).
        assert (Hfresh1 : packages_fresh (db w1)).
        { unfold packages_fresh, w1.
          cbn [db set_db event_packages set_event_packages
               event_packages_id_seq bump_event_packages_id_seq].
          now apply (fresh_after_creation Package.id). }
        destruct (Hall Hsc1 Hfresh1) as [Hok [Hn [Hsc' Hfresh']]].
        repeat split; auto. simpl. now rewrite Hn.
    + exists [], 0%nat. cbn [fst snd db pop].
      split; [apply seeded_refl|]. split; [reflexivity|].
      split; [reflexivity|]. split; [reflexivity|].
      intros Hsc. unfold next_outcome in En. rewrite Hsc in En. discriminate.
Qed.

Lemma insert_default_speakers_run (clock : nat -> Z)
    (l : list (SpeakerReq.t * option Z)) (i : nat) (w : World) :
  let out := for_of i l (insert_default_speaker clock) w in
  exists added n,
    seeded (db w) (db (snd out)) [] added
    /\ map speaker_fields added = firstn n l
    /\ tx (snd out) = tx w
    /\ event_packages_id_seq (db (snd out)) = event_packages_id_seq (db w)
    /\ (script w = [] -> speakers_fresh (db w) ->
        fst out = Ok tt /\ n = List.length l /\ script (snd out) = []
        /\ speakers_fresh (db (snd out))).
Proof.
  revert i w. induction l as [|[r ord] l IH]; intros i w out; subst out.
  - exists [], 0%nat. simpl. split; [apply seeded_refl|]. auto 10.
  - rewrite for_of_step, insert_default_speaker_step.
    destruct (next_outcome w) eqn:En.
    + cbv zeta.
      destruct (existsb _ (speakers (db w))) eqn:Ex.
      * exists [], 0%nat. cbn [fst snd db set_db].
        split; [unfold seeded; simpl; rewrite !app_nil_r;
                repeat split; constructor|].
        split; [reflexivity|]. split; [reflexivity|].
        split; [reflexivity|].
        intros _ Hfresh.
        rewrite (unused_key Speaker.id _ _ Hfresh) in Ex. discriminate.
      * set (row := {| Speaker.id := speakers_id_seq (db w) |}).
        set (w1 := set_db _ (pop w)).
        destruct (IH (S i) w1) as [added [n [Hseed [Hmap [Htx [Hseq Hall]]]]]].
        exists (row :: added), (S n).
        destruct Hseed as [Hp [Hs [_ [Hap [Ho Hos]]]]].
        split.
        { unfold seeded. rewrite Hp, Hs, Ho, Hos. unfold w1.
          cbn [db set_db event_packages set_speakers speakers orders
               orders_id_seq bump_speakers_id_seq].
          rewrite <- app_assoc. repeat split; auto. }
        split.
        { cbn [map firstn]. rewrite Hmap. f_equal.
          apply speaker_fields_inserted. }
        split; [rewrite Htx; reflexivity|].
        split; [rewrite Hseq; reflexivity|].
        intros Hsc Hfresh.
        assert (Hsc1 : script w1 = []) by (unfold w1; simpl; now rewrite Hsc).
        assert (Hfresh1 : speakers_fresh (db w1)).
        { unfold speakers_fresh, w1.
          cbn [db set_db speakers set_speakers speakers_id_seq
               bump_speakers_id_seq].
          now apply (fresh_after_creation Speaker.id). }
        destruct (Hall Hsc1 Hfresh1) as [Hok [Hn [Hsc' Hfresh']]].
        repeat split; auto. simpl. now rewrite Hn.
    + exists [], 0%nat. cbn [fst snd db pop].
      split; [apply seeded_refl|]. split; [reflexivity|].
      split; [reflexivity|]. split; [reflexivity|].
      intros Hsc. unfold next_outcome in En. rewrite Hsc in En. discriminate.
Qed.

Lemma count_is_zero {A} (l : list A) :
  (Z.of_nat (List.length l) =? 0) = true <-> l = [].
Proof.
  rewrite Z.eqb_eq. destruct l; simpl; split; intros E;
    try reflexivity; try discriminate; lia.
Qed.

Lemma pop_db (w : World) : db (pop w) = db w.
Proof. reflexivity. Qed.

Lemma seed_packages_step (clock : nat -> Z) (w : World) :
  seed_packages clock w
  = match next_outcome w with
    | Fails c => (Throw (DbError c), pop w)
    | Succeeds =>
        if Z.of_nat (List.length (event_packages (db w))) =? 0
        then for_of 0 defaultPackages (insert_default_package clock) (pop w)
        else (Ok tt, pop w)
    end.
Proof.
  unfold seed_packages, bind, pool_query, run_stmt, count_packages, ret.
  destruct (next_outcome w); [|reflexivity].
  destruct (_ =? 0); reflexivity.
Qed.

Lemma seed_speakers_step (clock : nat -> Z) (w : World) :
  seed_speakers clock w
  = match next_outcome w with
    | Fails c => (Throw (DbError c), pop w)
    | Succeeds =>
        if Z.of_nat (List.length (speakers (db w))) =? 0
        then for_of (List.length defaultPackages) defaultSpeakers
               (insert_default_speaker clock) (pop w)
        else (Ok tt, pop w)
    end.
Proof.
  unfold seed_speakers, bind, pool_query, run_stmt, count_speakers, ret.
  destruct (next_outcome w); [|reflexivity].
  destruct (_ =? 0); reflexivity.
Qed.

Lemma seed_packages_run (clock : nat -> Z) (w : World) :
  let out := seed_packages clock w in
  exists added n,
    seeded (db w) (db (snd out)) added []
    /\ map package_fields added = firstn n defaultPackages
    /\ (event_packages (db w) <> [] -> added = [])
    /\ tx (snd out) = tx w
    /\ (script w = [] ->
        fst out = Ok tt /\ script (snd out) = []
        /\ (event_packages (db w) = [] -> n = 3%nat)).
Proof.
  intros out. subst out. rewrite seed_packages_step.
  destruct (next_outcome w) eqn:En.
  - destruct (Z.of_nat (List.length (event_packages (db w))) =? 0) eqn:Ec.
    + apply count_is_zero in Ec.
      assert (Hexact : Forall exact_price defaultPackages)
        by (repeat constructor).
      destruct (insert_default_packages_run clock defaultPackages 0 (pop w)
                  Hexact)
        as [added [n [Hseed [Hmap [Htx [_ Hall]]]]]].
      exists added, n. rewrite pop_db in *.
      split; [exact Hseed|]. split; [exact Hmap|].
      split; [intros Hne; contradiction|].
      split; [exact Htx|].
      intros Hsc.
      assert (Hsc1 : script (pop w) = []) by (simpl; now rewrite Hsc).
      assert (Hfresh : packages_fresh (db w)).
      { unfold packages_fresh. rewrite Ec. contradiction. }
      destruct (Hall Hsc1 Hfresh) as [Hok [Hn [Hsc' _]]].
      repeat split; auto.
    + exists [], 0%nat. cbn [fst snd ret]. rewrite pop_db.
      split; [apply seeded_refl|]. split; [reflexivity|].
      split; [reflexivity|]. split; [reflexivity|].
      intros Hsc. split; [reflexivity|].
      split; [simpl; now rewrite Hsc|].
      intros E. rewrite E in Ec. discriminate.
  - exists [], 0%nat. cbn [fst snd]. rewrite pop_db.
    split; [apply seeded_refl|]. split; [reflexivity|].
    split; [reflexivity|]. split; [reflexivity|].
    intros Hsc. unfold next_outcome in En. rewrite Hsc in En. discriminate.
Qed.

Lemma seed_speakers_run (clock : nat -> Z) (w : World) :
  let out := seed_speakers clock w in
  exists added n,
    seeded (db w) (db (snd out)) [] added
    /\ map speaker_fields added = firstn n defaultSpeakers
    /\ (speakers (db w) <> [] -> added = [])
    /\ tx (snd out) = tx w
    /\ (script w = [] ->
        fst out = Ok tt /\ script (snd out) = []
        /\ (speakers (db w) = [] -> n = 4%nat)).
Proof.
  intros out. subst out. rewrite seed_speakers_step.
  destruct (next_outcome w) eqn:En.
  - destruct (Z.of_nat (List.length (speakers (db w))) =? 0) eqn:Ec.
    + apply count_is_zero in Ec.
      destruct (insert_default_speakers_run clock defaultSpeakers
                  (List.length defaultPackages) (pop w))
        as [added [n [Hseed [Hmap [Htx [_ Hall]]]]]].
      exists added, n. rewrite pop_db in *.
      split; [exact Hseed|]. split; [exact Hmap|].
      split; [intros Hne; contradiction|].
      split; [exact Htx|].
      intros Hsc.
      assert (Hsc1 : script (pop w) = []) by (simpl; now rewrite Hsc).
      assert (Hfresh : speakers_fresh (db w)).
      { unfold speakers_fresh. rewrite Ec. contradiction. }
      destruct (Hall Hsc1 Hfresh) as [Hok [Hn [Hsc' _]]].
      repeat split; auto.
    + exists [], 0%nat. cbn [fst snd ret]. rewrite pop_db.
      split; [apply seeded_refl|]. split; [reflexivity|].
      split; [reflexivity|]. split; [reflexivity|].
      intros Hsc. split; [reflexivity|].
      split; [simpl; now rewrite Hsc|].
      intros E. rewrite E in Ec. discriminate.
  - exists [], 0%nat. cbn [fst snd]. rewrite pop_db.
    split; [apply seeded_refl|]. split; [reflexivity|].
    split; [reflexivity|]. split; [reflexivity|].
    intros Hsc. unfold next_outcome in En. rewrite Hsc in En. discriminate.
Qed.

Lemma seed_catalog_run (clock : nat -> Z) (w : World) :
  let out := seed_catalog clock w in
  exists added_p added_s n m,
    seeded (db w) (db (snd out)) added_p added_s
    /\ map package_fields added_p = firstn n defaultPackages
    /\ map speaker_fields added_s = firstn m defaultSpeakers
    /\ (event_packages (db w) <> [] -> added_p = [])
    /\ (speakers (db w) <> [] -> added_s = [])
    /\ tx (snd out) = tx w
    /\ (script w = [] ->
        fst out = Ok tt /\ script (snd out) = []
        /\ (event_packages (db w) = [] -> n = 3%nat)
        /\ (speakers (db w) = [] -> m = 4%nat)).
Proof.
  intros out. subst out. unfold seed_catalog, bind.
  destruct (seed_packages_run clock w)
    as [added_p [n [Hseed [Hmap [Hkeep [Htx Hall]]]]]].
  destruct (seed_packages clock w) as [[[]|e] w1]; cbn [fst snd] in *.
  - destruct (seed_speakers_run clock w1)
      as [added_s [m [Hseed' [Hmap' [Hkeep' [Htx' Hall']]]]]].
    exists added_p, added_s, n, m.
    destruct Hseed as [Hp [Hs [Hap [_ [Ho Hos]]]]].
    destruct Hseed' as [Hp' [Hs' [_ [Has [Ho' Hos']]]]].
    rewrite app_nil_r in Hs, Hp'.
    split.
    { unfold seeded. rewrite Hp', Hs', Ho', Hos', Hp, Hs, Ho, Hos.
      repeat split; auto. }
    split; [exact Hmap|]. split; [exact Hmap'|].
    split; [exact Hkeep|].
    split; [intros Hne; apply Hkeep'; now rewrite Hs|].
    split; [congruence|].
    intros Hsc. destruct (Hall Hsc) as [_ [Hsc1 Hn]].
    destruct (Hall' Hsc1) as [Hok [Hsc2 Hm]].
    repeat split; auto. intros E. apply Hm. now rewrite Hs.
  - exists added_p, [], n, 0%nat.
    destruct Hseed as [Hp [Hs [Hap [_ [Ho Hos]]]]].
    split; [unfold seeded; repeat split; auto|].
    split; [exact Hmap|]. split; [reflexivity|].
    split; [exact Hkeep|]. split; [reflexivity|].
    split; [exact Htx|].
    intros Hsc. destruct (Hall Hsc) as [Hok _]. discriminate.
Qed.

(** X18. Seeding fills empty tables only.  Whatever the server does, the
    catalog blocks of [initializeDatabase] touch no row that exists: a
    table that holds a row, deleted or not, gets nothing, an empty one
    gets the first so many of the defaults in their order, and once any
    of them is in, no later run adds the missing ones.  The orders are
    never touched. *)
Theorem seeding_fills_empty_tables_only (clock : nat -> Z) (w : World) :
  let after := db (snd (seed_catalog clock w)) in
  (exists added_p added_s n m,
     seeded (db w) after added_p added_s
     /\ map package_fields added_p = firstn n defaultPackages
     /\ map speaker_fields added_s = firstn m defaultSpeakers
     /\ (event_packages (db w) <> [] -> added_p = [])
     /\ (speakers (db w) <> [] -> added_s = []))
  /\ (forall clock',
        let later := db (snd (seed_catalog clock' (snd (seed_catalog clock w)))) in
        (event_packages after <> [] -> event_packages later = event_packages after)
        /\ (speakers after <> [] -> speakers later = speakers after)).
Proof.
  intros after. subst after. split.
  - destruct (seed_catalog_run clock w)
      as [added_p [added_s [n [m [H1 [H2 [H3 [H4 [H5 _]]]]]]]]].
    exists added_p, added_s, n, m. auto.
  - intros clock' later. subst later.
    destruct (seed_catalog_run clock' (snd (seed_catalog clock w)))
      as [added_p [added_s [n [m [[Hp [Hs _] ] [_ [_ [H4 [H5 _]]]]]]]]].
    split; intros Hne.
    + rewrite Hp, (H4 Hne). apply app_nil_r.
    + rewrite Hs, (H5 Hne). apply app_nil_r.
Qed.

Lemma select_active_sorted {R} `{CatalogLaws R} (l : list R) :
  Forall (fun r => row_is_active r = true) l ->
  StronglySorted display_before l ->
  select_active l = l.
Proof.
  intros Hact Hs. unfold select_active.
  replace (filter row_is_active l) with l.
  - induction Hs as [|a l Hs IH Hall]; [reflexivity|].
    inversion Hact; subst. cbn [order_by_display fold_right].
    change (fold_right insert_row [] l) with (order_by_display l).
    rewrite IH by assumption. now apply insert_row_front.
  - clear Hs. induction Hact as [|a l Ha Hl IH]; [reflexivity|].
    cbn [filter]. now rewrite Ha, <- IH.
Qed.

Lemma package_display_orders (l : list Package.t) :
  map Package.display_order l = map snd (map package_fields l).
Proof. rewrite map_map. reflexivity. Qed.

Lemma speaker_display_orders (l : list Speaker.t) :
  map Speaker.display_order l = map snd (map speaker_fields l).
Proof. rewrite map_map. reflexivity. Qed.

(** X19. On a new database, with the server answering every statement,
    the seeding puts in the three default packages and the four default
    speakers; the public listings show them in the order of the source,
    the next package an admin creates takes display order 4 and the next
    speaker 5, and a second run adds nothing. *)
Theorem seeding_from_scratch (clock : nat -> Z) (w : World) :
  script w = [] ->
  event_packages (db w) = [] ->
  speakers (db w) = [] ->
  let out := seed_catalog clock w in
  let after := db (snd out) in
  fst out = Ok tt
  /\ map package_fields (event_packages after) = defaultPackages
  /\ map speaker_fields (speakers after) = defaultSpeakers
  /\ select_active (event_packages after) = event_packages after
  /\ select_active (speakers after) = speakers after
  /\ next_order (event_packages after) = 4
  /\ next_order (speakers after) = 5
  /\ orders after = orders (db w)
  /\ (forall clock',
        let again := seed_catalog clock' (snd out) in
        fst again = Ok tt
        /\ event_packages (db (snd again)) = event_packages after
        /\ speakers (db (snd again)) = speakers after).
Proof.
  intros Hsc Hpe Hse out after. subst after out.
  destruct (seed_catalog_run clock w)
    as [added_p [added_s [n [m [Hseed [Hmp [Hms [_ [_ [_ Hall]]]]]]]]]].
  destruct (Hall Hsc) as [Hok [Hsc' [Hn Hm]]].
  rewrite (Hn Hpe) in Hmp. rewrite (Hm Hse) in Hms.
  cbn [firstn defaultPackages defaultSpeakers] in Hmp, Hms.
  destruct Hseed as [Hp [Hs [Hap [Has [Ho _]]]]].
  rewrite Hpe in Hp. rewrite Hse in Hs. cbn [app] in Hp, Hs.
  rewrite Hp, Hs.
  assert (Hdp : map Package.display_order added_p = [Some 1; Some 2; Some 3])
    by (rewrite package_display_orders, Hmp; reflexivity).
  assert (Hds : map Speaker.display_order added_s
                = [Some 1; Some 2; Some 3; Some 4])
    by (rewrite speaker_display_orders, Hms; reflexivity).
  split; [exact Hok|]. split; [exact Hmp|]. split; [exact Hms|].
  split.
  { apply select_active_sorted; [exact Hap|].
    destruct added_p as [|a [|b [|c [|]]]]; try discriminate.
    injection Hdp as Ha Hb Hc.
    repeat constructor; unfold display_before; simpl;
      rewrite ?Ha, ?Hb, ?Hc, ?Hd; lia. }
  split.
  { apply select_active_sorted; [exact Has|].
    destruct added_s as [|a [|b [|c [|d [|]]]]]; try discriminate.
    injection Hds as Ha Hb Hc Hd.
    repeat constructor; unfold display_before; simpl;
      rewrite ?Ha, ?Hb, ?Hc, ?Hd; lia. }
  split.
  { destruct added_p as [|a [|b [|c [|]]]]; try discriminate.
    injection Hdp as Ha Hb Hc.
    unfold next_order, max_display_order. simpl. rewrite Ha, Hb, Hc.
    reflexivity. }
  split.
  { destruct added_s as [|a [|b [|c [|d [|]]]]]; try discriminate.
    injection Hds as Ha Hb Hc Hd.
    unfold next_order, max_display_order. simpl. rewrite Ha, Hb, Hc, Hd.
    reflexivity. }
  split; [exact Ho|].
  intros clock' again. subst again.
  destruct (seed_catalog_run clock' (snd (seed_catalog clock w)))
    as [added_p' [added_s' [n' [m' [Hseed' [_ [_ [Hkp [Hks [_ Hall']]]]]]]]]].
  destruct (Hall' Hsc') as [Hok' _].
  destruct Hseed' as [Hp' [Hs' _]].
  split; [exact Hok'|].
  rewrite Hp', Hs', Hp, Hs.
  rewrite Hkp, Hks.
  - now rewrite !app_nil_r.
  - rewrite Hs. destruct added_s; discriminate.
  - rewrite Hp. destruct added_p; discriminate.
Qed.

End Seeding.

(** ** Contact forms *)

Section DescendingOrder.

Context {R : Type} (key : R -> Z).

Lemma insert_desc_front (a : R) (l : list R) :
  Forall (fun b => key b <= key a) l -> insert_desc key a l = a :: l.
Proof.
  destruct l as [|b l]; simpl; [reflexivity|].
  intros Hf. inversion Hf as [|? ? Hab _]; subst.
  apply Z.leb_le in Hab. now rewrite Hab.
Qed.

Lemma filter_insert_desc (p : R -> bool) (a : R) (l : list R) :
  sorted_desc key l ->
  filter p (insert_desc key a l)
  = if p a then insert_desc key a (filter p l) else filter p l.
Proof.
  unfold sorted_desc. induction 1 as [|b l Hs IH Hall].
  - simpl. destruct (p a); reflexivity.
  - cbn [insert_desc]. destruct (key b <=? key a) eqn:E.
    + cbn [filter]. destruct (p a); [|reflexivity].
      symmetry. apply insert_desc_front.
      apply Z.leb_le in E. rewrite Forall_forall in Hall |- *.
      intros c Hc. change (In c (filter p (b :: l))) in Hc.
      apply filter_In in Hc. destruct Hc as [[<-|Hc] _]; [assumption|].
      specialize (Hall c Hc). simpl in Hall. lia.
    + cbn [filter]. rewrite IH.
      destruct (p b), (p a); cbn [insert_desc]; rewrite ?E; reflexivity.
Qed.

(** Sorting and selecting commute. *)
Lemma filter_order_desc (p : R -> bool) (l : list R) :
  filter p (order_desc key l) = order_desc key (filter p l).
Proof.
  induction l as [|a l IH]; [reflexivity|].
  cbn [order_desc fold_right].
  change (fold_right (insert_desc key) [] l) with (order_desc key l).
  rewrite filter_insert_desc by apply order_desc_sorted.
  rewrite IH. cbn [filter]. destruct (p a); reflexivity.
Qed.

End DescendingOrder.

Section ContactForms.

Variable X : Externals.



Lemma post_contact_id (env : Env) (now : Z) (r : ContactReq.t)
    (w : Run Inbox) (k : Z) :
  fst (post_contact X env now r w) = Sent k ->
  k = contact_forms_id_seq (store w).
Proof.
  unfold post_contact, when_connected.
  destruct (pool env); [|discriminate].
  destruct (validateContact X r); [|discriminate].
  unfold send, query, insert_contact_form.
  destruct (outcomes w) as [|[|c] rest]; [| |discriminate].
  all: destruct (existsb _ (contact_forms (store w))); [discriminate|].
  all: cbn [fst]; intros E; now inversion E.
Qed.

Lemma delete_filter_twice (k : Z) (l : list ContactForm.t) :
  filter (fun f => negb (ContactForm.id f =? k))
    (filter (fun f => negb (ContactForm.id f =? k)) l)
  = filter (fun f => negb (ContactForm.id f =? k)) l.
Proof.
  induction l as [|a l IH]; simpl; [reflexivity|].
  destruct (negb (ContactForm.id a =? k)) eqn:E; simpl; [rewrite E|];
    now rewrite IH.
Qed.

Lemma admin_delete_contact_form_done (env : Env) (adminToken : option string)
    (id : string) (w : Run Inbox) (k : Z) :
  authorized X env adminToken -> admin_pool env = true ->
  outcomes w = [] -> key_of X (Js.Str id) = KeyInt k ->
  admin_delete_contact_form X env adminToken id w
  = (Sent tt,
     {| store :=
          {| contact_forms :=
               filter (fun f => negb (ContactForm.id f =? k))
                 (contact_forms (store w));
             contact_forms_id_seq := contact_forms_id_seq (store w) |};
        outcomes := [] |}).
Proof.
  intros [token [-> [Hne Hjwt]]] Hp Hs Hk.
  unfold admin_delete_contact_form, admin_rows, send, query,
    delete_contact_form.
  apply String.eqb_neq in Hne. now rewrite Hne, Hjwt, Hp, Hs, Hk.
Qed.

Lemma admin_contact_forms_done (env : Env) (adminToken : option string)
    (w : Run Inbox) :
  authorized X env adminToken -> admin_pool env = true ->
  outcomes w = [] ->
  admin_contact_forms X env adminToken w
  = (Sent (order_desc ContactForm.created_at (contact_forms (store w))),
     {| store := store w; outcomes := [] |}).
Proof.
  intros [token [-> [Hne Hjwt]]] Hp Hs.
  unfold admin_contact_forms, admin_rows, send, query, select_contact_forms.
  apply String.eqb_neq in Hne. now rewrite Hne, Hjwt, Hp, Hs.
Qed.

(** X21. Deleting a contact form removes the row for good, unlike the
    soft delete of the catalog.  After [DELETE /contact-forms/:id] no
    row has the identifier, the other rows are there in their order, the
    admin list is the old one without the row, a second delete changes
    nothing, and the next form that comes in does not take the
    identifier over. *)
Theorem contact_form_delete_is_final (env : Env) (adminToken : option string)
    (id : string) (w : Run Inbox) (k : Z) :
  authorized X env adminToken ->
  admin_pool env = true ->
  outcomes w = [] ->
  key_of X (Js.Str id) = KeyInt k ->
  let out := admin_delete_contact_form X env adminToken id w in
  let before := contact_forms (store w) in
  let after := contact_forms (store (snd out)) in
  fst out = Sent tt
  /\ after = filter (fun f => negb (ContactForm.id f =? k)) before
  /\ (forall f, In f after <-> In f before /\ ContactForm.id f <> k)
  /\ contact_forms_id_seq (store (snd out)) = contact_forms_id_seq (store w)
  /\ fst (admin_contact_forms X env adminToken (snd out))
     = Sent (filter (fun f => negb (ContactForm.id f =? k))
               (order_desc ContactForm.created_at before))
  /\ admin_delete_contact_form X env adminToken id (snd out) = out
  /\ (forms_fresh (store w) -> In k (map ContactForm.id before) ->
      forall env' now r k',
        fst (post_contact X env' now r (snd out)) = Sent k' -> k < k').
Proof.
  intros Ha Hp Hs Hk out before after. subst out before after.
  rewrite (admin_delete_contact_form_done env adminToken id w k Ha Hp Hs Hk).
  cbn [fst snd store contact_forms contact_forms_id_seq].
  split; [reflexivity|]. split; [reflexivity|].
  split.
  { intros f. rewrite filter_In, negb_true_iff, Z.eqb_neq. tauto. }
  split; [reflexivity|].
  split.
  { rewrite admin_contact_forms_done by auto.
    cbn [fst store contact_forms]. f_equal.
    symmetry. apply filter_order_desc. }
  split.
  { rewrite admin_delete_contact_form_done with (k := k) by auto.
    cbn [store contact_forms contact_forms_id_seq].
    now rewrite delete_filter_twice. }
  intros Hfresh Hin env' now r k' E.
  apply post_contact_id in E. cbn [store contact_forms_id_seq] in E.
  subst k'.
  apply in_map_iff in Hin. destruct Hin as [f0 [<- Hf0]].
  now apply Hfresh.
Qed.

End ContactForms.

(** ** The event *)

Section TheEvent.

Variable X : Externals.

Lemma order_desc_nil {R} (key : R -> Z) (l : list R) :
  order_desc key l = [] -> l = [].
Proof.
  intros E. pose proof (Permutation_length (order_desc_perm key l)) as Hl.
  rewrite E in Hl. destruct l; [reflexivity | discriminate].
Qed.

Lemma latest_is_an_event {R} (key : R -> Z) (l : list R) (e : R) :
  hd_error (order_desc key l) = Some e -> In e l.
Proof.
  intros E. apply (Permutation_in _ (order_desc_perm key l)).
  destruct (order_desc key l); inversion E; subst. now left.
Qed.

(** What [PUT /api/admin/event] may do to the table. *)
Lemma admin_put_event_cases (env : Env) (now : Z) (adminToken : option string)
    (r : EventReq.t) (w : Run Agenda) :
  let out := admin_put_event X env now adminToken r w in
  let before := events (store w) in
  let after := events (store (snd out)) in
  after = before
  \/ (exists time price,
        time_in X (EventReq.time r) = Some time
        /\ decimal_10_2 (EventReq.price r) = Some price
        /\ fst out = Sent tt
        /\ ((before = []
             /\ after =
                [ {| Event.id := events_id_seq (store w);
                     Event.title := EventReq.title r;
                     Event.description := EventReq.description r;
                     Event.date := EventReq.date r; Event.time := time;
                     Event.location := EventReq.location r;
                     Event.price := price; Event.created_at := now |} ])
            \/ (exists latest,
                  hd_error (order_desc Event.date before) = Some latest
                  /\ after
                     = map (where_id Event.id (Event.id latest)
                              (with_event_fields r time price)) before))).
Proof.
  intros out before after. subst out before after.
  unfold admin_put_event, admin_rows.
  destruct adminToken as [token|]; [|now left].
  destruct (String.eqb token ""); [now left|].
  destruct (jwt_verify X (JWT_SECRET env) token); [|now left].
  destruct (admin_pool env); [|now left].
  unfold send, and_then, query, select_latest_event.
  destruct w as [[evs seq] sc]. cbn [store outcomes events events_id_seq].
  assert (Hnil : hd_error (order_desc Event.date evs) = None -> evs = []).
  { intros El. apply (order_desc_nil Event.date).
    destruct (order_desc Event.date evs); [reflexivity | discriminate]. }
  unfold insert_event, update_event, event_columns.
  destruct (time_in X (EventReq.time r)) as [time|] eqn:Et.
  2:{ destruct sc as [|[|c] sc]; cbn [tl]; [| |now left];
        destruct (hd_error (order_desc Event.date evs)) as [e|];
        cbn [outcomes store];
        try (destruct sc as [|[|c] sc]); now left. }
  destruct (decimal_10_2 (EventReq.price r)) as [price|] eqn:Ep.
  2:{ destruct sc as [|[|c] sc]; cbn [tl]; [| |now left];
        destruct (hd_error (order_desc Event.date evs)) as [e|];
        cbn [outcomes store];
        try (destruct sc as [|[|c] sc]); now left. }
  destruct sc as [|[|c] sc]; cbn [tl]; [| |now left].
  - destruct (hd_error (order_desc Event.date evs)) as [e|] eqn:El.
    + cbn [outcomes store fst snd events].
      right. exists time, price. repeat split; try assumption.
      right. exists e. auto.
    + cbn [outcomes store]. rewrite (Hnil eq_refl). cbn.
      right. exists time, price. repeat split; try assumption.
      left. auto.
  - destruct (hd_error (order_desc Event.date evs)) as [e|] eqn:El.
    + cbn [outcomes store].
      destruct sc as [|[|c] sc]; cbn [fst snd store events];
        [ | |now left];
        (right; exists time, price; repeat split; try assumption;
         right; exists e; auto).
    + rewrite (Hnil eq_refl). cbn [outcomes store].
      destruct sc as [|[|c] sc]; cbn; [ | |now left];
        (right; exists time, price; repeat split; try assumption;
         left; auto).
Qed.

(** X22. [PUT /api/admin/event] never adds a second event.  Whatever the
    cookie and whatever the server does, the table is left as it was, or
    it was empty and holds the one new event, or the row of the event
    with the latest date has taken the new fields and keeps its
    identifier; so a table of at most one event stays one.  The fields
    are those of the request, with [time] as the [TIME] column reads it
    and [price] rounded to the cent. *)
Theorem event_is_edited_in_place (env : Env) (now : Z)
    (adminToken : option string) (r : EventReq.t) (w : Run Agenda) :
  let out := admin_put_event X env now adminToken r w in
  let before := events (store w) in
  let after := events (store (snd out)) in
  (after = before
   \/ (exists time price,
         time_in X (EventReq.time r) = Some time
         /\ decimal_10_2 (EventReq.price r) = Some price
         /\ ((before = []
              /\ after =
                 [ {| Event.id := events_id_seq (store w);
                      Event.title := EventReq.title r;
                      Event.description := EventReq.description r;
                      Event.date := EventReq.date r; Event.time := time;
                      Event.location := EventReq.location r;
                      Event.price := price; Event.created_at := now |} ])
             \/ (exists latest,
                   In latest before
                   /\ (forall e, In e before ->
                         Event.date e <= Event.date latest)
                   /\ after
                      = map
                          (fun e =>
                             if Event.id e =? Event.id latest
                             then
                               {| Event.id := Event.id e;
                                  Event.title := EventReq.title r;
                                  Event.description := EventReq.description r;
                                  Event.date := EventReq.date r;
                                  Event.time := time;
                                  Event.location := EventReq.location r;
                                  Event.price := price;
                                  Event.created_at := Event.created_at e |}
                             else e)
                          before))))
  /\ (before <> [] ->
      map Event.id after = map Event.id before
      /\ map Event.created_at after = map Event.created_at before)
  /\ (List.length before <= 1 -> List.length after <= 1)%nat.
Proof.
  intros out before after.
  pose proof (admin_put_event_cases env now adminToken r w) as Hc.
  cbv zeta in Hc. fold out in Hc. fold before in Hc. fold after in Hc.
  assert (Hids : forall k time price,
            map Event.id
              (map (where_id Event.id k (with_event_fields r time price))
                 before)
            = map Event.id before
            /\ map Event.created_at
                 (map (where_id Event.id k (with_event_fields r time price))
                    before)
               = map Event.created_at before).
  { intros k time price. rewrite !map_map. split; apply map_ext; intros e;
      unfold where_id; destruct (Event.id e =? k); reflexivity. }
  split; [|split].
  - destruct Hc as [E|[time [price [Ht [Hp [_ Hc]]]]]]; [now left|].
    right. exists time, price. split; [exact Ht|]. split; [exact Hp|].
    destruct Hc as [[Hb E]|[latest [Hl E]]]; [left; auto|].
    right. exists latest.
    split; [now apply (latest_is_an_event Event.date)|].
    split; [|exact E].
    intros e He.
    pose proof (order_desc_sorted Event.date before) as Hs.
    apply (Permutation_in _ (Permutation_sym (order_desc_perm Event.date before)))
      in He.
    unfold sorted_desc in Hs.
    destruct (order_desc Event.date before) as [|x l]; [discriminate|].
    inversion Hl; subst x. inversion Hs as [|? ? _ Hall]; subst.
    destruct He as [<-|He]; [lia|].
    rewrite Forall_forall in Hall. now apply Hall.
  - intros Hne.
    destruct Hc as [E|[time [price [_ [_ [_ [[Hb _]|[latest [_ E]]]]]]]]].
    + rewrite E. auto.
    + contradiction.
    + rewrite E. apply Hids.
  - intros Hlen.
    destruct Hc as [E|[time [price [_ [_ [_ [[Hb E]|[latest [_ E]]]]]]]]].
    + now rewrite E.
    + rewrite E. simpl. lia.
    + rewrite E, length_map. exact Hlen.
Qed.

(** X23. With the single event that the seeding and the admin route keep,
    what the admin puts is what the public gets, as the columns store it:
    after a successful [PUT /api/admin/event] with a [time] that the
    [TIME] column reads and a price that fits, [GET /api/event] answers
    the event with the title, description, day and location of the
    request, the time as the column writes it and the price rounded to
    the cent, under the identifier it had.  A [time] or a price that the
    columns refuse is answered 500 and changes nothing. *)
Theorem event_round_trip (env : Env) (now : Z) (adminToken : option string)
    (r : EventReq.t) (w : Run Agenda) :
  authorized X env adminToken ->
  admin_pool env = true ->
  pool env = true ->
  outcomes w = [] ->
  (List.length (events (store w)) <= 1)%nat ->
  let out := admin_put_event X env now adminToken r w in
  (forall time price,
     time_in X (EventReq.time r) = Some time ->
     decimal_10_2 (EventReq.price r) = Some price ->
     fst out = Sent tt
     /\ exists id created_at,
          let e :=
            {| Event.id := id; Event.title := EventReq.title r;
               Event.description := EventReq.description r;
               Event.date := EventReq.date r; Event.time := time;
               Event.location := EventReq.location r; Event.price := price;
               Event.created_at := created_at |} in
          events (store (snd out)) = [e]
          /\ fst (get_event env (snd out)) = Sent (StoredEvent e)
          /\ store (snd (get_event env (snd out))) = store (snd out)
          /\ (forall e0, events (store w) = [e0] ->
              id = Event.id e0 /\ created_at = Event.created_at e0)
          /\ (events (store w) = [] ->
              id = events_id_seq (store w) /\ created_at = now))
  /\ (time_in X (EventReq.time r) = None
      \/ decimal_10_2 (EventReq.price r) = None ->
      fst out = Failed (Json 500 (BError "Internal server error"))
      /\ store (snd out) = store w).
Proof.
  intros [token [-> [Hne Hjwt]]] Hap Hp Hs Hlen out. subst out.
  apply String.eqb_neq in Hne.
  unfold admin_put_event, admin_rows, get_event, when_connected, send,
    and_then, query, select_latest_event, done, insert_event, update_event,
    event_columns.
  rewrite Hne, Hjwt, Hap, Hp.
  destruct w as [[evs seq] sc]. cbn [store outcomes events events_id_seq] in *.
  subst sc. split.
  - intros time price Ht Hprice. rewrite Ht, Hprice.
    destruct evs as [|e0 [|e1 evs]]; [| |simpl in Hlen; lia].
    + cbn. split; [reflexivity|]. eexists _, _. split; [reflexivity|].
      split; [reflexivity|]. split; [reflexivity|].
      split; [discriminate | auto].
    + cbn. unfold where_id. rewrite Z.eqb_refl.
      split; [reflexivity|]. eexists _, _. split; [reflexivity|].
      split; [reflexivity|]. split; [reflexivity|].
      split; [|discriminate].
      intros e E. inversion E; subst. auto.
  - intros Hbad.
    assert (E : match time_in X (EventReq.time r) with
                | Some time =>
                    match decimal_10_2 (EventReq.price r) with
                    | Some price => Ok (time, price)
                    | None => Throw (DbError "22003")
                    end
                | None => Throw (DbError "22007")
                end = Throw (DbError "22007")
                \/ match time_in X (EventReq.time r) with
                   | Some time =>
                       match decimal_10_2 (EventReq.price r) with
                       | Some price => Ok (time, price)
                       | None => Throw (DbError "22003")
                       end
                   | None => Throw (DbError "22007")
                   end = Throw (DbError "22003")).
    { destruct Hbad as [-> | ->]; [now left|].
      destruct (time_in X (EventReq.time r)); [now right | now left]. }
    destruct evs as [|e0 [|e1 evs]]; [| |simpl in Hlen; lia];
      destruct E as [-> | ->]; cbn; split; reflexivity.
Qed.

End TheEvent.

(** ** Site content *)

Section SiteContent.

Variable X : Externals.

Lemma update_content_sections (now : Z) (section : string) (r : ContentReq.t)
    (s : list Content.t) :
  map (fun c => (Content.id c, Content.section c))
    (snd (update_content now section r s))
  = map (fun c => (Content.id c, Content.section c)) s.
Proof.
  unfold update_content. cbn [snd]. rewrite map_map. apply map_ext.
  intros c. destruct (String.eqb (Content.section c) section); reflexivity.
Qed.

Lemma find_section_updated (now : Z) (section : string) (r : ContentReq.t)
    (s : list Content.t) :
  find (fun c => String.eqb (Content.section c) section)
    (map (fun c =>
            if String.eqb (Content.section c) section
            then with_content_fields now r c else c) s)
  = option_map (with_content_fields now r)
      (find (fun c => String.eqb (Content.section c) section) s).
Proof.
  induction s as [|c s IH]; [reflexivity|].
  cbn [map find].
  destruct (String.eqb (Content.section c) section) eqn:E.
  - cbn [with_content_fields Content.section]. now rewrite E.
  - now rewrite E.
Qed.

(** X24. Saving a section of the site never creates it.
    [PUT /api/admin/content/:section] leaves the identifiers and the
    sections of the table as they are, whatever the cookie and the
    server; when it goes through it answers success also for a section
    that has no row, and then [GET /api/content/:section] still answers
    [null]; for a section that has a row the public gets the new fields
    under the old identifier. *)
Theorem content_update_never_inserts (env : Env) (now : Z)
    (adminToken : option string) (section : string) (r : ContentReq.t)
    (w : Run (list Content.t)) :
  let out := admin_put_content X env now adminToken section r w in
  map (fun c => (Content.id c, Content.section c)) (store (snd out))
  = map (fun c => (Content.id c, Content.section c)) (store w)
  /\ (authorized X env adminToken -> admin_pool env = true ->
      pool env = true -> outcomes w = [] ->
      fst out = Sent tt
      /\ fst (get_content env section (snd out))
         = Sent (option_map (with_content_fields now r)
                   (find (fun c => String.eqb (Content.section c) section)
                      (store w)))
      /\ ((forall c, In c (store w) -> Content.section c <> section) ->
          store (snd out) = store w
          /\ fst (get_content env section (snd out)) = Sent None)).
Proof.
  intros out. subst out. split.
  - unfold admin_put_content, admin_rows.
    destruct adminToken as [token|]; [|reflexivity].
    destruct (String.eqb token ""); [reflexivity|].
    destruct (jwt_verify X (JWT_SECRET env) token); [|reflexivity].
    destruct (admin_pool env); [|reflexivity].
    unfold send, query.
    destruct (outcomes w) as [|[|c] sc]; [| |reflexivity].
    + pose proof (update_content_sections now section r (store w)) as E.
      destruct (update_content now section r (store w)) as [[[]|e] st];
        exact E.
    + pose proof (update_content_sections now section r (store w)) as E.
      destruct (update_content now section r (store w)) as [[[]|e] st];
        exact E.
  - intros [token [-> [Hne Hjwt]]] Hap Hp Hs.
    apply String.eqb_neq in Hne.
    unfold admin_put_content, admin_rows, get_content, when_connected, send,
      query, update_content, select_content.
    rewrite Hne, Hjwt, Hap, Hp, Hs. cbn [fst snd store outcomes tl].
    split; [reflexivity|].
    split; [now rewrite find_section_updated|].
    intros Hno.
    assert (Hfind : find (fun c => String.eqb (Content.section c) section)
                      (store w) = None).
    { induction (store w) as [|c s IH]; [reflexivity|].
      cbn [find].
      assert (E : String.eqb (Content.section c) section = false)
        by (apply String.eqb_neq, Hno; now left).
      rewrite E. apply IH. intros c' Hc'. apply Hno. now right. }
    split.
    + rewrite <- (map_id (store w)) at 2. apply map_ext_in.
      intros c Hc. apply Hno in Hc. apply String.eqb_neq in Hc.
      now rewrite Hc.
    + now rewrite find_section_updated, Hfind.
Qed.

End SiteContent.

(** ** Orders through their life *)

Section OrderLedger.

Variable X : Externals.

Lemma progress_refl (o : Order.t) : progress o o.
Proof. now left. Qed.

Lemma progress_trans (a b c : Order.t) :
  progress a b -> progress b c -> progress a c.
Proof.
  intros [->|[Hab Sb]] [->|[Hbc Sc]].
  - now left.
  - right. auto.
  - right. auto.
  - right. split; [|assumption].
    unfold same_purchase in *. intuition congruence.
Qed.

Lemma progress_all_refl (l : list Order.t) : Forall2 progress l l.
Proof. induction l; constructor; auto. apply progress_refl. Qed.

Lemma progress_all_trans (l1 l2 l3 : list Order.t) :
  Forall2 progress l1 l2 -> Forall2 progress l2 l3 -> Forall2 progress l1 l3.
Proof.
  intros H12. revert l3.
  induction H12 as [|a b l1 l2 Hab H12 IH]; intros l3 H23; inversion H23; subst.
  - constructor.
  - constructor; [eapply progress_trans; eassumption | now apply IH].
Qed.

Lemma ledger_grows_refl (l : list Order.t) : ledger_grows l l.
Proof.
  exists l, []. split; [now rewrite app_nil_r | apply progress_all_refl].
Qed.

Lemma ledger_grows_trans (l1 l2 l3 : list Order.t) :
  ledger_grows l1 l2 -> ledger_grows l2 l3 -> ledger_grows l1 l3.
Proof.
  intros [k1 [a1 [-> H1]]] [k2 [a2 [-> H2]]].
  apply Forall2_app_inv_l in H2. destruct H2 as [k1' [a1' [Hk [_ ->]]]].
  exists k1', (a1' ++ a2). split; [now rewrite app_assoc|].
  eapply progress_all_trans; eassumption.
Qed.

Lemma ledger_grows_nth (before after : list Order.t) (n : nat) (o : Order.t) :
  ledger_grows before after ->
  nth_error before n = Some o ->
  exists o', nth_error after n = Some o' /\ progress o o'.
Proof.
  intros [kept [added [-> Hk]]]. revert n.
  induction Hk as [|a b l l' Hab Hl IH]; intros n Hn.
  - destruct n; discriminate.
  - destruct n as [|n]; simpl in *.
    + inversion Hn; subst. eauto.
    + now apply IH.
Qed.

Lemma pool_query_keeps_tx {A} (has_pool : bool) (s : Stmt A) (w : World) :
  tx (snd (pool_query has_pool s w)) = tx w.
Proof.
  unfold pool_query, run_stmt. destruct has_pool; [|reflexivity].
  destruct (next_outcome w); [|reflexivity].
  destruct (s (db w)); reflexivity.
Qed.

Lemma fire_keeps_tx (env : Env) (c : Channel) (w : World) :
  tx (snd (fire X env c w)) = tx w.
Proof.
  destruct c as [r|q|b]; simpl.
  - unfold verify_payment, checkDbConnection, respond, verify_payment_try,
      createHmac_sha256_hex, bind, throw, ret.
    destruct (pool env); [|reflexivity].
    destruct (RAZORPAY_KEY_SECRET env); [|reflexivity].
    destruct (Js.str_eq _ _); [|reflexivity].
    pose proof (pool_query_keeps_tx true
                  (update_order_status X "completed" (VerifyReq.paymentId r)
                     (VerifyReq.orderId r)) w) as E.
    destruct (pool_query _ _ w) as [[u|e] w']; exact E.
  - unfold payment_success, respond, payment_success_try, bind, ret.
    destruct (_ && _); [|reflexivity].
    pose proof (pool_query_keeps_tx (pool env)
                  (update_order_status X "completed" (provider_payment_id q)
                     (Js.of_option (SuccessQuery.order_id q))) w) as E.
    destruct (pool_query _ _ w) as [[u|e] w']; exact E.
  - unfold razorpay_webhook, respond, webhook_body, property_of, bind, throw,
      ret.
    destruct (Js.str_eq _ _); [|reflexivity].
    destruct (Webhook.payload b) as [payload|]; [|reflexivity].
    destruct (Webhook.payment_link payload) as [link|]; [|reflexivity].
    destruct (Js.truthy _); [|reflexivity].
    destruct (Webhook.payment payload) as [payment|]; [|reflexivity].
    pose proof (pool_query_keeps_tx (pool env)
                  (update_order_status X "completed" (Webhook.id payment)
                     (notes_order_id link)) w) as E.
    destruct (pool_query _ _ w) as [[u|e] w']; exact E.
Qed.

(** One public request: the ledger grows, no transaction stays open, the
    catalog is not touched. *)
Lemma public_request_step (env : Env) (p : PublicRequest) (w : World) :
  tx w = None ->
  let w' := snd (public_request X env p w) in
  tx w' = None
  /\ ledger_grows (orders (db w)) (orders (db w'))
  /\ event_packages (db w') = event_packages (db w)
  /\ speakers (db w') = speakers (db w).
Proof.
  intros Htx w'. subst w'. destruct p as [now provider r|c]; simpl.
  - unfold post_orders, checkDbConnection.
    destruct (pool env);
      [|repeat split; auto; apply ledger_grows_refl].
    destruct (validateOrder X r);
      [|repeat split; auto; apply ledger_grows_refl].
    destruct w as [d t s]. simpl in Htx. subst t.
    destruct (create_order_rows X env now provider r (price_of r) d s)
      as [Ht [_ [Hrows [_ [Hp Hs]]]]].
    cbn [db] in *. repeat split; auto.
    destruct Hrows as [->|[pid [amount [_ ->]]]]; [apply ledger_grows_refl|].
    eexists _, _. split; [reflexivity | apply progress_all_refl].
  - destruct (fire_only_completes X env c w) as [Hp [_ [Hpk [_ [Hsp _]]]]].
    rewrite fire_keeps_tx. repeat split; auto.
    exists (orders (db (snd (fire X env c w)))), [].
    split; [now rewrite app_nil_r | exact Hp].
Qed.

Lemma public_session_step (env : Env) (requests : list PublicRequest)
    (w : World) :
  tx w = None ->
  let w' := public_session X env requests w in
  tx w' = None
  /\ ledger_grows (orders (db w)) (orders (db w'))
  /\ event_packages (db w') = event_packages (db w)
  /\ speakers (db w') = speakers (db w).
Proof.
  revert w. induction requests as [|p rest IH]; intros w Htx; simpl.
  - repeat split; auto. apply ledger_grows_refl.
  - destruct (public_request_step env p w Htx) as [Ht [Hg [Hp Hs]]].
    destruct (IH _ Ht) as [Ht' [Hg' [Hp' Hs']]].
    repeat split; try congruence.
    eapply ledger_grows_trans; eassumption.
Qed.

(** X25. The table of orders is append-only for the public.  Through any
    sequence of order creations and payment confirmations, whatever the
    requests and whatever the server does, an order stays in its place
    with its identifier, customer, package, amount and time of creation;
    its status is as it was or [completed], and once completed it stays
    so.  No request of the public touches packages or speakers. *)
Theorem orders_are_append_only (env : Env) (requests : list PublicRequest)
    (w : World) :
  tx w = None ->
  let after := db (public_session X env requests w) in
  ledger_grows (orders (db w)) (orders after)
  /\ (forall n o,
        nth_error (orders (db w)) n = Some o ->
        exists o',
          nth_error (orders after) n = Some o'
          /\ same_purchase o o'
          /\ (Order.status o' = Order.status o
              \/ Order.status o' = "completed")
          /\ (Order.status o = "completed" -> Order.status o' = "completed"))
  /\ (List.length (orders (db w)) <= List.length (orders after))%nat
  /\ (tickets_sold (db w) <= tickets_sold after)%nat
  /\ event_packages after = event_packages (db w)
  /\ speakers after = speakers (db w).
Proof.
  intros Htx after. subst after.
  destruct (public_session_step env requests w Htx) as [_ [Hg [Hp Hs]]].
  split; [exact Hg|]. split; [|split; [|split; [|split; assumption]]].
  - intros n o Hn.
    destruct (ledger_grows_nth _ _ n o Hg Hn) as [o' [Hn' Hprog]].
    exists o'. split; [exact Hn'|].
    destruct Hprog as [->|[Hsame Hst]].
    + repeat split; auto.
    + split; [exact Hsame|]. split; [now right | auto].
  - destruct Hg as [kept [added [-> Hk]]].
    rewrite length_app, <- (Forall2_length Hk). lia.
  - destruct Hg as [kept [added [E Hk]]]. unfold tickets_sold.
    rewrite E, filter_app, length_app.
    pose proof (progress_sold _ _ Hk). lia.
Qed.

Lemma pending_not_counted (l : list Order.t) (o : Order.t) :
  Order.status o = "pending" ->
  filter is_completed (l ++ [o]) = filter is_completed l.
Proof.
  intros E. rewrite filter_app. cbn [filter]. unfold is_completed at 2.
  rewrite E. cbn. apply app_nil_r.
Qed.

(** X26. An order counts as a ticket exactly once it is confirmed.
    Creating a valid order leaves the number of sold tickets as it was;
    the confirmation of that order through any of the three channels
    makes it one more: the new row is completed with the payment
    identifier of the confirmation and holds the price rounded to the
    cent, the older rows are as they were, and the dashboard, when it
    answers, shows one ticket more. *)
Theorem ticket_counted_once_confirmed (env : Env) (now : Z)
    (provider : ProviderReply) (r : OrderReq.t) (price amount : Q)
    (c : Channel) (pid : option string) (w : World) :
  pool env = true ->
  validateOrder X r = [] ->
  OrderReq.price r = Some price ->
  decimal_10_2 price = Some amount ->
  script w = [] ->
  orders_fresh (db w) ->
  confirms X env c (orders_id_seq (db w)) pid ->
  let placed := snd (post_orders X env now provider r w) in
  let paid := snd (fire X env c placed) in
  tickets_sold (db placed) = tickets_sold (db w)
  /\ tickets_sold (db paid) = S (tickets_sold (db w))
  /\ reports_completion env c (fst (fire X env c placed))
  /\ orders (db paid)
     = orders (db w) ++
       [ {| Order.id := orders_id_seq (db w);
            Order.customer_name := trim (OrderReq.name r);
            Order.customer_email := normalizeEmail X (OrderReq.email r);
            Order.customer_phone := OrderReq.phone r;
            Order.package_name := OrderReq.package r;
            Order.amount := amount;
            Order.status := "completed";
            Order.payment_id := pid;
            Order.created_at := now |} ]
  /\ (forall now' adminToken t rev s,
        fst (admin_stats X env now' adminToken paid) = Json 200 (BStats t rev s) ->
        t = Z.of_nat (tickets_sold (db w)) + 1).
Proof.
  intros Hpool Hvalid Hprice Hamt Hs Hfresh Hc placed paid. subst paid placed.
  destruct w as [d t s]. simpl in Hs, Hfresh, Hc. subst s.
  cbn [db] in *.
  assert (Hof : decimal_10_2 (price_of r) = Some amount)
    by (unfold price_of; now rewrite Hprice).
  rewrite (post_orders_run X env now provider r amount d t Hpool Hvalid
             Hfresh Hof).
  cbn [snd].
  set (w1 := {| db := set_orders _ (bump_orders_id_seq d); tx := None;
                script := [] |}).
  destruct (fire_confirmed_run X env c (orders_id_seq d) pid w1 Hpool eq_refl Hc)
    as [resp [Hrep E]].
  rewrite E. cbn [fst snd].
  assert (Hrows :
    orders (db (set_db
                  (set_orders
                     (map (where_id Order.id (orders_id_seq d)
                             (with_status "completed" pid)) (orders (db w1)))
                     (db w1)) (pop w1)))
    = orders d ++
      [ with_status "completed" pid
          (stored_order X env now provider r amount (orders_id_seq d)) ]).
  { unfold w1. cbn [db set_db orders set_orders pop].
    rewrite map_app, (where_id_other Order.id _ _ (orders d) Hfresh).
    cbn [map]. unfold where_id. cbn [stored_order Order.id].
    now rewrite Z.eqb_refl. }
  assert (Hsold1 : tickets_sold (db w1) = tickets_sold d).
  { unfold tickets_sold, w1. cbn [db set_orders orders].
    now rewrite pending_not_counted by reflexivity. }
  assert (Hsold2 :
    tickets_sold (db (set_db
                  (set_orders
                     (map (where_id Order.id (orders_id_seq d)
                             (with_status "completed" pid)) (orders (db w1)))
                     (db w1)) (pop w1)))
    = S (tickets_sold d)).
  { unfold tickets_sold. rewrite Hrows, filter_app, length_app.
    cbn. lia. }
  split; [exact Hsold1|]. split; [exact Hsold2|]. split; [exact Hrep|].
  split; [exact Hrows|].
  intros now' tok tt rev s' Est.
  match type of Est with
  | fst (admin_stats _ _ _ _ ?w2) = _ =>
      destruct (admin_stats_answer X env now' tok w2) as [_ [_ Hfig]]
  end.
  destruct (Hfig tt rev s' Est) as [-> _].
  rewrite Hsold2. lia.
Qed.

End OrderLedger.

(** * The further statements at work on the fixtures *)

(** An Indian mobile number with its sign has 13 characters. *)
Lemma phone_matches_shape_witness :
  phone_matches "+919999999999" = true
  /\ (1 <= String.length "+919999999999" <= 17)%nat
  /\ all_digits (unsigned_phone "+919999999999") = true.
Proof.
  split; [reflexivity|].
  destruct (phone_matches_shape "+919999999999" eq_refl)
    as [Hlen [_ [Hdigits _]]].
  split; assumption.
Defined.

(** The first statement of the transaction fails: 500, and the two
    orders are as they were. *)
Lemma post_orders_all_or_nothing_witness :
  status_code
    (fst (post_orders Sample.externals Sample.live 100 LinkFailed
            (Sample.jane (Some (299 # 1)))
            {| db := Sample.store; tx := None;
               script := [Succeeds; Succeeds; Fails "57P01"] |}))
  = 500
  /\ orders
       (db (snd (post_orders Sample.externals Sample.live 100 LinkFailed
                   (Sample.jane (Some (299 # 1)))
                   {| db := Sample.store; tx := None;
                      script := [Succeeds; Succeeds; Fails "57P01"] |})))
     = orders Sample.store.
Proof.
  destruct (post_orders_all_or_nothing Sample.externals Sample.live 100
              LinkFailed (Sample.jane (Some (299 # 1)))
              {| db := Sample.store; tx := None;
                 script := [Succeeds; Succeeds; Fails "57P01"] |} eq_refl)
    as [_ [Hsame _]].
  split; [reflexivity|]. apply Hsame. discriminate.
Defined.


(** A name between two blanks and a tab. *)
Lemma validateOrder_ignores_padding_witness :
  validateOrder Sample.externals
    {| OrderReq.name := "  Jane Doe" ++ String "009"%char "";
       OrderReq.email := "jane@x.com"; OrderReq.phone := "+919999999999";
       OrderReq.package := "Professional"; OrderReq.price := Some (299 # 1) |}
  = validateOrder Sample.externals (Sample.jane (Some (299 # 1))).
Proof.
  destruct (validateOrder_ignores_padding Sample.externals
              (Sample.jane (Some (299 # 1))) "  " (String "009"%char "")
              eq_refl eq_refl) as [Hsame _].
  exact Hsame.
Defined.

(** The webhook for order 42 delivered twice. *)
Lemma confirmation_twice_witness :
  fire Sample.externals Sample.live (PaidWebhook Scenario.paid_event)
    (snd (fire Sample.externals Sample.live (PaidWebhook Scenario.paid_event)
            Sample.world))
  = fire Sample.externals Sample.live (PaidWebhook Scenario.paid_event)
      Sample.world.
Proof.
  assert (C : confirms Sample.externals Sample.live
                (PaidWebhook Scenario.paid_event) 42 (Some "pay_abc"%string)).
  { split; [reflexivity|]. do 4 eexists. exists "42"%string. repeat split. }
  destruct (confirmation_twice Sample.externals Sample.live _ 42 _
              Sample.world eq_refl eq_refl C) as [Hresp Hworld].
  apply injective_projections; assumption.
Defined.

(** The redirect for order 42 on a table without orders. *)
Lemma confirmation_of_unknown_order_witness :
  fire Sample.externals Sample.live
    (RedirectCallback (Scenario.callback "paid"))
    (with_orders [] Sample.world)
  = (Redirect 302 "https://www.rtalks.in/?payment=success&order=42",
     with_orders [] Sample.world).
Proof.
  assert (C : confirms Sample.externals Sample.live
                (RedirectCallback (Scenario.callback "paid")) 42
                (Some "pay_xyz"%string)).
  { split; [reflexivity|]. exists "42"%string.
    split; [reflexivity|]. split; [discriminate|]. split; reflexivity. }
  destruct (confirmation_of_unknown_order Sample.externals Sample.live _ 42 _
              (with_orders [] Sample.world) eq_refl eq_refl C)
    as [Hresp Hdb].
  - intros o [].
  - reflexivity.
Defined.

(** No pool: the order is refused with 503, the paid redirect reports an
    error. *)
Lemma without_pool_witness :
  pool Cases.offline = false
  /\ status_code
       (fst (post_orders Sample.externals Cases.offline 100 LinkFailed
               (Sample.jane (Some (299 # 1))) Sample.world))
     = 503
  /\ fst (payment_success Sample.externals Cases.offline
            (Scenario.callback "paid") Sample.world)
     = Redirect 302 "https://www.rtalks.in/?payment=error&order=42".
Proof.
  destruct (without_pool Sample.externals Cases.offline 100 LinkFailed
              (Sample.jane (Some (299 # 1)))
              (Scenario.signed (Js.Num 42) (Js.Str "pay_abc"))
              (Scenario.callback "paid") Scenario.paid_event Sample.world
              eq_refl)
    as [[H503 _] [_ [_ [_ [_ [Hpaid _]]]]]].
  split; [reflexivity|]. split; [exact H503|].
  exact (Hpaid eq_refl eq_refl).
Defined.

(** Package 2 becomes the Leadership pass at 4999.999: the listing still
    starts with it, and it holds 5000 as its price. *)
Lemma update_keeps_the_place_witness :
  select_active
    (event_packages
       (db (snd (admin_update_package Sample.externals Sample.live 100
                   (Some "jwt") "2" Cases.repriced Sample.world))))
  = [ {| Package.id := 2; Package.name := "Leadership";
         Package.category := None; Package.price := 5000 # 1;
         Package.features := None; Package.package_type := "premium";
         Package.display_order := Some 1; Package.is_active := true;
         Package.created_at := 0; Package.updated_at := 100 |};
      Sample.package 1 2 true ].
Proof.
  destruct (update_keeps_the_place Sample.externals Sample.live 100
              (Some "jwt") "2" Cases.repriced Scenario.new_speaker (5000 # 1)
              Sample.world 2 sample_authorized eq_refl eq_refl eq_refl
              eq_refl)
    as [[edit [_ [_ [Hlist [_ [Hother Hrow]]]]]] _].
  rewrite Hlist.
  change (select_active (event_packages (db Sample.world)))
    with [Sample.package 2 1 true; Sample.package 1 2 true].
  cbn [map].
  rewrite (Hrow (Sample.package 2 1 true) eq_refl).
  rewrite (Hother (Sample.package 1 2 true)) by discriminate.
  reflexivity.
Defined.

(** Two packages created one after the other take the identifiers 4 and
    5 and the display orders 3 and 4, and end the listing. *)
Lemma creations_line_up_witness :
  exists row1 row2,
    event_packages
      (db (snd (admin_create_package Sample.externals Sample.live 200
                  (Some "jwt") Scenario.new_package
                  (snd (admin_create_package Sample.externals Sample.live
                          100 (Some "jwt") Scenario.new_package
                          Sample.world)))))
    = event_packages Sample.store ++ [row1; row2]
    /\ Package.id row1 = 4 /\ Package.id row2 = 5
    /\ Package.display_order row1 = Some 3
    /\ Package.display_order row2 = Some 4
    /\ map Package.id
         (select_active
            (event_packages
               (db (snd (admin_create_package Sample.externals Sample.live 200
                           (Some "jwt") Scenario.new_package
                           (snd (admin_create_package Sample.externals
                                   Sample.live 100 (Some "jwt")
                                   Scenario.new_package Sample.world)))))))
       = [2; 1; 4; 5].
Proof.
  destruct (creations_line_up Sample.externals Sample.live 100 200
              (Some "jwt") Scenario.new_package Scenario.new_package
              Scenario.new_speaker Scenario.new_speaker Sample.world
              sample_authorized eq_refl eq_refl) as [Hp _].
  destruct (Hp sample_packages_fresh (999 # 1) (999 # 1) eq_refl eq_refl)
    as [row1 [row2 [n [_ [_ [Hid1 [Hid2 [Hplaced [Ho1 [Ho2
         [Hrows [_ [Hlast _]]]]]]]]]]]]].
  { intros p m [<-|[<-|[<-|[]]]] [= <-]; reflexivity. }
  assert (Hn : n = 3).
  { destruct Hplaced as [_ [[n' [Hn' [_ [Hlt Htop]]]] _]].
    change (Package.display_order row1 = Some n') in Hn'.
    rewrite Ho1 in Hn'. injection Hn' as <-.
    destruct Htop as [top [Hin Htopn]].
    { exists (Sample.package 1 2 true). split; [now left | discriminate]. }
    pose proof (Hlt (Sample.package 1 2 true) 2 (or_introl eq_refl) eq_refl).
    destruct Hin as [<-|[<-|[<-|[]]]]; cbn in Htopn; injection Htopn; lia. }
  subst n. rewrite Hid1 in Hid2.
  exists row1, row2.
  split; [exact Hrows|]. split; [exact Hid1|]. split; [exact Hid2|].
  split; [exact Ho1|]. split; [exact Ho2|].
  rewrite Hlast.
  - rewrite map_app. cbn [map]. rewrite Hid1, Hid2. reflexivity.
  - intros p [<-|[<-|[<-|[]]]] _; discriminate.
Defined.

(** Package 1 deleted twice. *)
Lemma delete_again_or_nothing_witness :
  admin_delete_package Sample.externals Sample.live (Some "jwt") "1"
    (snd (admin_delete_package Sample.externals Sample.live (Some "jwt") "1"
            Sample.world))
  = admin_delete_package Sample.externals Sample.live (Some "jwt") "1"
      Sample.world.
Proof.
  destruct (delete_again_or_nothing Sample.externals Sample.live (Some "jwt")
              "1" Sample.world sample_authorized eq_refl eq_refl)
    as [Hp _].
  destruct (Hp 1 eq_refl) as [_ [Htwice _]]. exact Htwice.
Defined.

(** Package 2 is sent behind package 1: the listing turns around. *)
Lemma reorder_moves_one_row_witness :
  map Package.id
    (select_active
       (event_packages
          (db (snd (admin_update_package_order Sample.externals Sample.live
                      (Some "jwt") "2" (Some 5) Sample.world)))))
  = [1; 2]
  /\ Permutation [1; 2] [2; 1].
Proof.
  destruct (reorder_moves_one_row Sample.externals Sample.live (Some "jwt")
              "2" (Some 5) Sample.world 2 sample_authorized eq_refl eq_refl
              eq_refl)
    as [[_ [_ [Hperm _]]] _].
  split; [reflexivity|]. exact Hperm.
Defined.

(** A new database gets its three packages and four speakers. *)
Lemma seeding_from_scratch_witness :
  map Package.name
    (event_packages (db (snd (seed_catalog (fun _ => 100) Cases.new_database))))
  = ["Professional Pass"; "Executive Pass"; "Leadership Pass"]%string
  /\ next_order
       (event_packages
          (db (snd (seed_catalog (fun _ => 100) Cases.new_database))))
     = 4
  /\ List.length
       (speakers (db (snd (seed_catalog (fun _ => 100) Cases.new_database))))
     = 4%nat.
Proof.
  destruct (seeding_from_scratch (fun _ => 100) Cases.new_database
              eq_refl eq_refl eq_refl)
    as [_ [_ [Hs [_ [_ [Hnext _]]]]]].
  split; [reflexivity|]. split; [exact Hnext|].
  apply (f_equal (@List.length _)) in Hs. rewrite length_map in Hs.
  exact Hs.
Defined.

(** Form 2, the newest, is deleted: the list shows 3 and 1, and the
    next form is number 4. *)
Lemma contact_form_delete_is_final_witness :
  fst (admin_contact_forms Sample.externals Sample.live (Some "jwt")
         (snd (admin_delete_contact_form Sample.externals Sample.live
                 (Some "jwt") "2" Cases.inbox)))
  = Sent [Cases.form 3 200; Cases.form 1 100]
  /\ forall k',
       fst (post_contact Sample.externals Sample.live 400 Cases.question
              (snd (admin_delete_contact_form Sample.externals Sample.live
                      (Some "jwt") "2" Cases.inbox)))
       = Sent k' -> 2 < k'.
Proof.
  destruct (contact_form_delete_is_final Sample.externals Sample.live
              (Some "jwt") "2" Cases.inbox 2 sample_authorized eq_refl
              eq_refl eq_refl)
    as [_ [_ [_ [_ [Hlist [_ Hnext]]]]]].
  split; [exact Hlist|].
  intros k'. apply Hnext.
  - intros f [<-|[<-|[<-|[]]]]; reflexivity.
  - right. now left.
Defined.

(** The event is moved, its time sent as [10:00] and its price as
    1999.999: the one row takes the new fields, the time as [10:00:00]
    and the price as 2000, and keeps its identifier. *)
Lemma event_is_edited_in_place_witness :
  events
    (store (snd (admin_put_event Sample.externals Sample.live 500 (Some "jwt")
                   Cases.moved Cases.agenda)))
  = [ {| Event.id := 1; Event.title := "R-TALKS SUMMIT 2025";
         Event.description := None; Event.date := 20150;
         Event.time := "10:00:00";
         Event.location := Some "Rathinam Grand Hall";
         Event.price := 2000 # 1; Event.created_at := 0 |} ].
Proof.
  destruct (event_is_edited_in_place Sample.externals Sample.live 500
              (Some "jwt") Cases.moved Cases.agenda)
    as [[E|[time [price [Ht [Hp [[Hb _]|[latest [Hin [_ E]]]]]]]]] _].
  - vm_compute in E. discriminate E.
  - discriminate Hb.
  - vm_compute in Ht. injection Ht as <-.
    vm_compute in Hp. injection Hp as <-.
    destruct Hin as [<-|[]]. rewrite E. reflexivity.
Defined.

(** The event is moved, its time sent as [10:00] and its price as
    1999.999: the public sees the new day and hall under the old
    identifier, at [10:00:00] and for 2000. *)
Lemma event_round_trip_witness :
  fst (get_event Sample.live
         (snd (admin_put_event Sample.externals Sample.live 500 (Some "jwt")
                 Cases.moved Cases.agenda)))
  = Sent
      (StoredEvent
         {| Event.id := 1; Event.title := "R-TALKS SUMMIT 2025";
            Event.description := None; Event.date := 20150;
            Event.time := "10:00:00";
            Event.location := Some "Rathinam Grand Hall";
            Event.price := 2000 # 1; Event.created_at := 0 |}).
Proof.
  destruct (event_round_trip Sample.externals Sample.live 500 (Some "jwt")
              Cases.moved Cases.agenda sample_authorized eq_refl eq_refl
              eq_refl (le_n 1))
    as [Hput _].
  destruct (Hput "10:00:00"%string (2000 # 1) eq_refl eq_refl)
    as [_ [id [created_at [_ [Hget [_ [Hold _]]]]]]].
  destruct (Hold _ eq_refl) as [Hid Hcreated].
  rewrite Hid, Hcreated in Hget. exact Hget.
Defined.

(** An order is placed while the first statement fails, then the webhook
    for order 42 arrives: order 42 is completed in its place. *)
Lemma orders_are_append_only_witness :
  exists o',
    nth_error
      (orders
         (db (public_session Sample.externals Sample.live
                [ PlaceOrder 100 LinkFailed (Sample.jane (Some (299 # 1)));
                  Confirm (PaidWebhook Scenario.paid_event) ]
                Sample.world)))
      1
    = Some o'
    /\ Order.id o' = 42
    /\ (List.length (orders Sample.store)
        <= List.length
             (orders
                (db (public_session Sample.externals Sample.live
                       [ PlaceOrder 100 LinkFailed
                           (Sample.jane (Some (299 # 1)));
                         Confirm (PaidWebhook Scenario.paid_event) ]
                       Sample.world))))%nat.
Proof.
  destruct (orders_are_append_only Sample.externals Sample.live
              [ PlaceOrder 100 LinkFailed (Sample.jane (Some (299 # 1)));
                Confirm (PaidWebhook Scenario.paid_event) ]
              Sample.world eq_refl) as [_ [Hrows [Hlen _]]].
  destruct (Hrows 1%nat _ eq_refl) as [o' [Hn [[Hid _] _]]].
  exists o'. split; [exact Hn|]. split; [exact Hid | exact Hlen].
Defined.

(** Jane's order 43 at 299.999 and its redirect: one ticket before, two
    after, and row 43 completed with [pay_43] and an amount of 300. *)
Lemma ticket_counted_once_confirmed_witness :
  tickets_sold Sample.store = 1%nat
  /\ tickets_sold
       (db (snd (fire Sample.externals Sample.live
                   (RedirectCallback (Cases.paid_redirect "43" "pay_43"))
                   (snd (post_orders Sample.externals Sample.live 100
                           LinkFailed (Sample.jane (Some (299999 # 1000)))
                           Sample.world)))))
     = 2%nat
  /\ orders
       (db (snd (fire Sample.externals Sample.live
                   (RedirectCallback (Cases.paid_redirect "43" "pay_43"))
                   (snd (post_orders Sample.externals Sample.live 100
                           LinkFailed (Sample.jane (Some (299999 # 1000)))
                           Sample.world)))))
     = orders Sample.store
       ++ [Sample.order 43 "completed" (Some "pay_43"%string) (300 # 1) 100].
Proof.
  split; [reflexivity|].
  assert (C : confirms Sample.externals Sample.live
                (RedirectCallback (Cases.paid_redirect "43" "pay_43"))
                (orders_id_seq (db Sample.world)) (Some "pay_43"%string)).
  { split; [reflexivity|]. exists "43"%string.
    split; [reflexivity|]. split; [discriminate|]. split; reflexivity. }
  destruct (ticket_counted_once_confirmed Sample.externals Sample.live 100
              LinkFailed (Sample.jane (Some (299999 # 1000)))
              (299999 # 1000) (300 # 1) _ _ Sample.world
              eq_refl eq_refl eq_refl eq_refl eq_refl sample_orders_fresh C)
    as [_ [Hpaid [_ [Hrows _]]]].
  split; [exact Hpaid | exact Hrows].
Defined.
